(** * Sports-websockets: the match and commentary REST handlers

    A shallow embedding of [src/index.js] (the ten Express route handlers)
    and [src/db/schema.js] (the two Drizzle tables), with the properties the
    specification states about them.

    Layout of the development:
    - [Js]        JSON request values, truthiness, [||], destructuring, [parseInt],
                  the [Date] constructor;
    - [matchesTable], [commentaryTable]   the rows of [schema.js];
    - [Pg]        what the storage layer does with one parameter or one row:
                  column input, constraints;
    - [Drizzle]   the query builder calls the handlers make
                  ([select/from/where/orderBy], [insert/values/returning],
                  [update/set/where/returning], [delete/where]);
    - [App]       the handlers, written call by call as in [index.js], and
                  the middleware around them;
    - the theorems.

    Conventions.  A handler is a function from the stored tables and the
    request to the new tables and the response.  An exception thrown inside
    a handler's [try] block is a [Throw]; the [catch] block turns it into
    the 400 response.  The database clock and the [serial] sequences are
    inputs of the inserting handlers ([Env]).

    The storage layer and the JavaScript runtime are not part of the
    repository.  Where their behaviour on an input is not pinned down here
    (a JSON string sent to an integer column, a date string that is not in
    the ECMAScript interchange format, ...) the model says so with the
    outcome [Unmodelled] and the handler has no result on that input:
    nothing is claimed about it.  JSON numbers are integer valued in this
    model, and strings are UTF-8 byte sequences. *)

From Stdlib Require Import ZArith List String Ascii Bool Lia Sorted Permutation.
Import ListNotations.
Local Open Scope string_scope.
Local Open Scope Z_scope.
Set Warnings "-register-all".

(* ===================================================================== *)
(** ** Outcomes of a computation inside [try { ... }]                     *)
(* ===================================================================== *)

(** The exceptions a handler can catch, by kind: [error.message] is the text
    of one of them. *)
Inductive Exn : Type :=
| TypeError                        (* JS: destructuring undefined, x.map is not a function *)
| RangeError                       (* JS: Invalid time value (toISOString) *)
| NoValuesToSet                    (* drizzle-orm: Error('No values to set') *)
| DataException                    (* Postgres SQLSTATE class 22 *)
| IntegrityConstraintViolation.    (* Postgres SQLSTATE class 23 *)

Inductive completion (A : Type) : Type :=
| Normal (a : A)
| Throw (e : Exn)
| Unmodelled.
Arguments Normal {A} a.
Arguments Throw {A} e.
Arguments Unmodelled {A}.

Definition bind {A B : Type} (c : completion A) (k : A -> completion B) : completion B :=
  match c with
  | Normal a => k a
  | Throw e => Throw e
  | Unmodelled => Unmodelled
  end.

Declare Scope js_scope.
Delimit Scope js_scope with js.
Notation "x <- c ;; k" := (bind c (fun x => k))
  (at level 61, c at next level, right associativity) : js_scope.
Notation "c ;;; k" := (bind c (fun _ => k))
  (at level 61, right associativity) : js_scope.
Local Open Scope js_scope.

(* ===================================================================== *)
(** ** JavaScript values and built-ins                                    *)
(* ===================================================================== *)

Module Js.

(** A value of a parsed JSON body, plus [undefined] for an absent property. *)
Inductive JsVal : Type :=
| JUndefined
| JNull
| JBool (b : bool)
| JNum (n : Z)
| JStr (s : string)
| JArr (items : list JsVal)
| JObj (props : list (string * JsVal)).

(** ToBoolean: [undefined], [null], [false], [0] and the empty string are falsy. *)
Definition truthy (v : JsVal) : bool :=
  match v with
  | JUndefined | JNull => false
  | JBool b => b
  | JNum n => negb (n =? 0)
  | JStr s => negb (s =? EmptyString)%string
  | JArr _ | JObj _ => true
  end.

(** [a || b] *)
Definition or (a b : JsVal) : JsVal := if truthy a then a else b.

(** [v !== undefined] *)
Definition defined (v : JsVal) : bool :=
  match v with JUndefined => false | _ => true end.

(** Own property of an object built by [JSON.parse]: the last occurrence of
    a repeated key wins; an absent key reads as [undefined]. *)
Definition get_prop (k : string) (props : list (string * JsVal)) : JsVal :=
  fold_left (fun acc kv => if (fst kv =? k)%string then snd kv else acc) props JUndefined.

(** One property of [const { k, ... } = body].  Destructuring [undefined] or
    [null] throws; an array or a primitive has none of the handlers' keys. *)
Definition destructure (body : JsVal) (k : string) : completion JsVal :=
  match body with
  | JUndefined | JNull => Throw TypeError
  | JObj props => Normal (get_prop k props)
  | _ => Normal JUndefined
  end.

Definition code (c : ascii) : Z := Z.of_N (N_of_ascii c).

(** White space skipped by [parseInt], in UTF-8: TAB, LF, VT, FF, CR, SP,
    U+00A0, U+1680, U+2000..U+200A, U+2028, U+2029, U+202F, U+205F, U+3000,
    U+FEFF. *)
Definition ws1 (a : Z) : bool :=
  ((9 <=? a) && (a <=? 13)) || (a =? 32).

Definition ws2 (a b : Z) : bool := (a =? 194) && (b =? 160).

Definition ws3 (a b c : Z) : bool :=
  ((a =? 225) && (b =? 154) && (c =? 128))
  || ((a =? 226) && (b =? 128)
      && (((128 <=? c) && (c <=? 138)) || (c =? 168) || (c =? 169) || (c =? 175)))
  || ((a =? 226) && (b =? 129) && (c =? 159))
  || ((a =? 227) && (b =? 128) && (c =? 128))
  || ((a =? 239) && (b =? 187) && (c =? 191)).

Fixpoint trim_start (s : string) : string :=
  match s with
  | EmptyString => s
  | String c1 r1 =>
      if ws1 (code c1) then trim_start r1 else
      match r1 with
      | EmptyString => s
      | String c2 r2 =>
          if ws2 (code c1) (code c2) then trim_start r2 else
          match r2 with
          | EmptyString => s
          | String c3 r3 =>
              if ws3 (code c1) (code c2) (code c3) then trim_start r3 else s
          end
      end
  end.

Definition digit_val (radix : Z) (c : ascii) : option Z :=
  let a := code c in
  let d := if (48 <=? a) && (a <=? 57) then Some (a - 48)
           else if (97 <=? a) && (a <=? 102) then Some (a - 87)
           else if (65 <=? a) && (a <=? 70) then Some (a - 55)
           else None in
  match d with
  | Some v => if v <? radix then Some v else None
  | None => None
  end.

(** The longest prefix of radix-[radix] digits, as a number; [acc] is [None]
    until a digit has been read. *)
Fixpoint digits (radix : Z) (s : string) (acc : option Z) : option Z :=
  match s with
  | EmptyString => acc
  | String c r =>
      match digit_val radix c with
      | Some v => digits radix r (Some (radix * match acc with Some a => a | None => 0 end + v))
      | None => acc
      end
  end.

(** A JS number that holds an integer, or NaN ([None]). *)
Definition Number : Type := option Z.

(** [parseInt(s)] with no radix: skip white space, read a sign, read a
    [0x]/[0X] prefix (radix 16, otherwise 10), read digits up to the first
    character that is not one; NaN when there is no digit. *)
Definition parseInt (input : string) : Number :=
  let s := trim_start input in
  let '(sign, s1) :=
    match s with
    | String "-" r => (-1, r)
    | String "+" r => (1, r)
    | _ => (1, s)
    end in
  let '(radix, s2) :=
    match s1 with
    | String "0" (String "x" r) => (16, r)
    | String "0" (String "X" r) => (16, r)
    | _ => (10, s1)
    end in
  option_map (Z.mul sign) (digits radix s2 None).

(** *** [new Date(v)] *)

(** The time value of a Date object in milliseconds since the epoch, or
    [None] for an Invalid Date. *)
Definition Date : Type := option Z.

Definition TimeClip (t : Z) : Date :=
  if Z.abs t <=? 8640000000000000 then Some t else None.

Definition dec_digit (c : ascii) : option Z :=
  let a := code c in
  if (48 <=? a) && (a <=? 57) then Some (a - 48) else None.

(** Exactly [n] decimal digits at the head of [s], and the rest. *)
Fixpoint fixed_digits (n : nat) (s : string) (acc : Z) : option (Z * string) :=
  match n with
  | O => Some (acc, s)
  | S k =>
      match s with
      | String c r =>
          match dec_digit c with
          | Some d => fixed_digits k r (10 * acc + d)
          | None => None
          end
      | EmptyString => None
      end
  end.

Definition expect (c : ascii) (s : string) : option string :=
  match s with
  | String c' r => if Ascii.eqb c c' then Some r else None
  | EmptyString => None
  end.

Definition leap (y : Z) : bool :=
  ((y mod 4 =? 0) && negb (y mod 100 =? 0)) || (y mod 400 =? 0).

Definition days_in_month (y m : Z) : Z :=
  if m =? 2 then (if leap y then 29 else 28)
  else if (m =? 4) || (m =? 6) || (m =? 9) || (m =? 11) then 30
  else 31.

(** Days from 1970-01-01 to the civil date [y-m-d] (proleptic Gregorian). *)
Definition days_from_civil (y m d : Z) : Z :=
  let y' := if m <=? 2 then y - 1 else y in
  let era := y' / 400 in
  let yoe := y' - era * 400 in
  let doy := (153 * (if 2 <? m then m - 3 else m + 9) + 2) / 5 + d - 1 in
  let doe := yoe * 365 + yoe / 4 - yoe / 100 + doy in
  era * 146097 + doe - 719468.

(** The UTC forms [YYYY-MM-DDTHH:mm:ssZ] and [YYYY-MM-DDTHH:mm:ss.sssZ] of
    the ECMAScript date-time string format, with every element in range. *)
Definition parse_utc (s : string) : option Z :=
  match fixed_digits 4 s 0 with
  | None => None
  | Some (y, s) =>
  match expect "-" s with None => None | Some s =>
  match fixed_digits 2 s 0 with None => None | Some (mo, s) =>
  match expect "-" s with None => None | Some s =>
  match fixed_digits 2 s 0 with None => None | Some (d, s) =>
  match expect "T" s with None => None | Some s =>
  match fixed_digits 2 s 0 with None => None | Some (h, s) =>
  match expect ":" s with None => None | Some s =>
  match fixed_digits 2 s 0 with None => None | Some (mi, s) =>
  match expect ":" s with None => None | Some s =>
  match fixed_digits 2 s 0 with None => None | Some (sec, s) =>
  let ms_rest :=
    match s with
    | String "." r => fixed_digits 3 r 0
    | _ => Some (0, s)
    end in
  match ms_rest with
  | Some (ms, "Z") =>
      if (1 <=? mo) && (mo <=? 12) && (1 <=? d) && (d <=? days_in_month y mo)
         && (h <=? 23) && (mi <=? 59) && (sec <=? 59)
      then Some (((days_from_civil y mo d * 24 + h) * 60 + mi) * 60000 + sec * 1000 + ms)
      else None
  | _ => None
  end end end end end end end end end end end end.

(** [new Date(v)] for a JSON value: a number is its own time value (after
    TimeClip), [null] and [false] are 0, [true] is 1, [undefined] is NaN.  A
    string goes through [Date.parse]: the UTC interchange forms are parsed
    here, any other string is left to the implementation, as is the string
    an array or an object converts to. *)
Definition new_Date (v : JsVal) : completion Date :=
  match v with
  | JUndefined => Normal None
  | JNull => Normal (Some 0)
  | JBool b => Normal (Some (if b then 1 else 0))
  | JNum n => Normal (TimeClip n)
  | JStr s =>
      match parse_utc s with
      | Some t => Normal (Some t)
      | None => Unmodelled
      end
  | JArr _ | JObj _ => Unmodelled
  end.

End Js.


Import Js.

(* ===================================================================== *)
(** ** [src/db/schema.js]                                                 *)
(* ===================================================================== *)

(** [pgEnum('match_status', ['scheduled', 'live', 'finished'])] *)
Inductive matchStatusEnum : Type := scheduled | live | finished.

Definition status_eqb (a b : matchStatusEnum) : bool :=
  match a, b with
  | scheduled, scheduled | live, live | finished, finished => true
  | _, _ => false
  end.

Definition enumValues (s : string) : option matchStatusEnum :=
  if (s =? "scheduled")%string then Some scheduled
  else if (s =? "live")%string then Some live
  else if (s =? "finished")%string then Some finished
  else None.

(** A row of [matchesTable]; a nullable column is an [option], a timestamp
    is its time value in milliseconds. *)
Module matchesTable.
Record row : Type := {
  id : Z;                      (* serial, primary key *)
  sport : string;              (* varchar(50), not null *)
  homeTeam : string;           (* varchar(100), not null *)
  awayTeam : string;           (* varchar(100), not null *)
  status : matchStatusEnum;    (* not null, default 'scheduled' *)
  startTime : Z;               (* timestamp, not null *)
  endTime : option Z;          (* timestamp *)
  homeScore : Z;               (* integer, not null, default 0 *)
  awayScore : Z;               (* integer, not null, default 0 *)
  createdAt : Z                (* timestamp, not null, default now() *)
}.
End matchesTable.

(** A row of [commentaryTable]. *)
Module commentaryTable.
Record row : Type := {
  id : Z;                      (* serial, primary key *)
  matchId : Z;                 (* integer, not null, references matches.id, on delete cascade *)
  minute : option Z;           (* integer *)
  sequence : Z;                (* integer, not null *)
  period : option string;      (* varchar(20) *)
  eventType : string;          (* varchar(50), not null *)
  actor : string;              (* varchar(100), not null *)
  team : string;               (* varchar(100), not null *)
  message : string;            (* text, not null *)
  metadata : option JsVal;     (* jsonb *)
  tags : option (list string); (* text[] *)
  createdAt : Z                (* timestamp, not null, default now() *)
}.
End commentaryTable.

(** The stored state: the two tables, in storage order. *)
Record Db : Type := {
  matches : list matchesTable.row;
  commentary : list commentaryTable.row
}.

(** What the database supplies to an insert: the clock read by [now()] and
    the value drawn from the [serial] sequence. *)
Record Env : Type := {
  now : Z;
  nextval : Z
}.

(* ===================================================================== *)
(** ** The storage layer: column input and constraints                    *)
(* ===================================================================== *)

Module Pg.

Definition int4_range (n : Z) : bool :=
  (-2147483648 <=? n) && (n <=? 2147483647).

(** A JS number sent for an [integer] or [serial] column: NaN and numbers
    outside 32 bits are refused when the parameter is read. *)
Definition int4_param (n : Number) : completion Z :=
  match n with
  | Some z => if int4_range z then Normal z else Throw DataException
  | None => Throw DataException
  end.

(** A body value sent for an [integer] column.  A boolean, an array or an
    object is sent as text that is no integer; whether the text of a string
    is one is left open. *)
Definition int4_in (v : JsVal) : completion (option Z) :=
  match v with
  | JUndefined | JNull => Normal None
  | JNum n => z <- int4_param (Some n) ;; Normal (Some z)
  | JStr _ => Unmodelled
  | JBool _ | JArr _ | JObj _ => Throw DataException
  end.

(** A body value sent for the [match_status] column: only the three labels
    are read. *)
Definition enum_in (v : JsVal) : completion (option matchStatusEnum) :=
  match v with
  | JUndefined | JNull => Normal None
  | JStr s =>
      match enumValues s with
      | Some e => Normal (Some e)
      | None => Throw DataException
      end
  | JBool _ | JNum _ | JArr _ | JObj _ => Throw DataException
  end.

Fixpoint has_nul (s : string) : bool :=
  match s with
  | EmptyString => false
  | String c r => (code c =? 0) || has_nul r
  end.

(** A string parameter: text with a zero byte is refused. *)
Definition text_param (s : string) : completion string :=
  if has_nul s then Throw DataException else Normal s.

(** A body value sent for a [text] column; only strings are followed. *)
Definition text_in (v : JsVal) : completion (option string) :=
  match v with
  | JUndefined | JNull => Normal None
  | JStr s => s' <- text_param s ;; Normal (Some s')
  | JBool _ | JNum _ | JArr _ | JObj _ => Unmodelled
  end.

(** Characters of a UTF-8 string: the bytes that are not continuation
    bytes. *)
Definition is_cont (c : ascii) : bool := (128 <=? code c) && (code c <? 192).

Fixpoint utf8_length (s : string) : nat :=
  match s with
  | EmptyString => O
  | String c r => ((if is_cont c then 0 else 1) + utf8_length r)%nat
  end.

Fixpoint take_chars (n : nat) (s : string) : string :=
  match s with
  | EmptyString => s
  | String c r =>
      if is_cont c then String c (take_chars n r)
      else match n with
           | O => EmptyString
           | S k => String c (take_chars k r)
           end
  end.

Fixpoint drop_chars (n : nat) (s : string) : string :=
  match s with
  | EmptyString => s
  | String c r =>
      if is_cont c then drop_chars n r
      else match n with
           | O => s
           | S k => drop_chars k r
           end
  end.

Fixpoint all_spaces (s : string) : bool :=
  match s with
  | EmptyString => true
  | String c r => (code c =? 32) && all_spaces r
  end.

(** Storing into [varchar(n)]: a longer string is an error unless the
    excess is all spaces, which are cut off. *)
Definition varchar (n : nat) (s : string) : completion string :=
  if (utf8_length s <=? n)%nat then Normal s
  else if all_spaces (drop_chars n s) then Normal (take_chars n s)
  else Throw DataException.

Definition varchar_in (n : nat) (v : JsVal) : completion (option string) :=
  t <- text_in v ;;
  match t with
  | Some s => s' <- varchar n s ;; Normal (Some s')
  | None => Normal None
  end.

(** [jsonb]: any JSON document without a zero character in a string or a
    key.  The stored document is identified with the value sent. *)
Fixpoint json_has_nul (v : JsVal) : bool :=
  match v with
  | JStr s => has_nul s
  | JArr items => existsb json_has_nul items
  | JObj props => existsb (fun kv => has_nul (fst kv) || json_has_nul (snd kv)) props
  | JUndefined | JNull | JBool _ | JNum _ => false
  end.

Definition jsonb_in (v : JsVal) : completion (option JsVal) :=
  match v with
  | JUndefined | JNull => Normal None
  | _ => if json_has_nul v then Throw DataException else Normal (Some v)
  end.

(** [timestamp]: an instant of the years 1000 to 9999 is stored, and read
    back into the returned row, as it was sent.  Outside them the text
    exchanged with the database is not followed (an instant of the year 0050
    is read back as one of 1950). *)
Definition timestamp_in (t : Z) : completion Z :=
  if (-30610224000000 <=? t) && (t <=? 253402300799999) then Normal t
  else Unmodelled.

(** NOT NULL *)
Definition not_null {A : Type} (x : option A) : completion A :=
  match x with
  | Some a => Normal a
  | None => Throw IntegrityConstraintViolation
  end.

(** The value of a [serial] column drawn from its sequence, checked against
    the primary key. *)
Definition serial_pk (ids : list Z) (next : Z) : completion Z :=
  if int4_range next
  then if existsb (Z.eqb next) ids then Throw IntegrityConstraintViolation
       else Normal next
  else Throw DataException.

End Pg.

(* ===================================================================== *)
(** ** The query builder calls of [index.js]                              *)
(* ===================================================================== *)

Module Drizzle.

(** [UPDATE ... WHERE p ... RETURNING *] over one table: every row that
    satisfies [p] is replaced by [f row]; the statement fails as a whole
    when [f] fails on one of them.  The result is the new table and the
    replaced rows. *)
Fixpoint update_rows {R : Type} (p : R -> bool) (f : R -> completion R)
    (rows : list R) : completion (list R * list R) :=
  match rows with
  | [] => Normal ([], [])
  | r :: rest =>
      if p r then
        r' <- f r ;;
        out <- update_rows p f rest ;;
        Normal (r' :: fst out, r' :: snd out)
      else
        out <- update_rows p f rest ;;
        Normal (r :: fst out, snd out)
  end.

(** One entry of the object given to [.set()]: a key whose value is
    [undefined] is not part of the update. *)
Definition assigned {A : Type} (input : JsVal -> completion (option A))
    (v : JsVal) : completion (option (option A)) :=
  if defined v then x <- input v ;; Normal (Some x) else Normal None.

(** The new value of a NOT NULL column under an update entry. *)
Definition set_not_null {A : Type} (entry : option (option A)) (old : A) : completion A :=
  match entry with
  | None => Normal old
  | Some x => Pg.not_null x
  end.

(** The new value of a nullable column under an update entry. *)
Definition set_nullable {A : Type} (entry : option (option A)) (old : option A) : option A :=
  match entry with
  | None => old
  | Some x => x
  end.

(** [value.toISOString()], the driver value of a timestamp. *)
Definition toISOString (d : Date) : completion Z :=
  match d with
  | Some t => Normal t
  | None => Throw RangeError
  end.

(* --------------------------------------------------------------------- *)
Module Matches.

(** The conditions [eq(matchesTable.<column>, value)] of the handlers. *)
Inductive SQL : Type :=
| eq_id (value : Number)
| eq_status (value : string)
| eq_sport (value : string).

(** [db.select().from(matchesTable)]: the builder (drizzle-orm ^0.33, the
    version the README names) keeps one condition in its configuration. *)
Record PgSelect : Type := { config_where : option SQL }.

Definition select_from : PgSelect := {| config_where := None |}.

(** [query.where(c)] is [this.config.where = c; return this]: a second call
    replaces the condition of the first, it does not add to it. *)
Definition where_ (c : SQL) (query : PgSelect) : PgSelect :=
  {| config_where := Some c |}.

(** Reading the parameter of a condition gives the row predicate. *)
Definition bind_where (c : SQL) : completion (matchesTable.row -> bool) :=
  match c with
  | eq_id value =>
      n <- Pg.int4_param value ;;
      Normal (fun r => matchesTable.id r =? n)
  | eq_status value =>
      e <- Pg.enum_in (JStr value) ;;
      Normal (fun r =>
        match e with
        | Some e => status_eqb e (matchesTable.status r)
        | None => false
        end)
  | eq_sport value =>
      s <- Pg.text_param value ;;
      Normal (fun r => (matchesTable.sport r =? s)%string)
  end.

(** [await query] *)
Definition await (db : Db) (query : PgSelect) : completion (list matchesTable.row) :=
  match config_where query with
  | None => Normal (matches db)
  | Some c => p <- bind_where c ;; Normal (filter p (matches db))
  end.

(** The object given to [db.insert(matchesTable).values(...)]. *)
Record values : Type := {
  v_sport : JsVal;
  v_homeTeam : JsVal;
  v_awayTeam : JsVal;
  v_startTime : Date;
  v_status : JsVal
}.

(** [await db.insert(matchesTable).values(v).returning()] *)
Definition insert_returning (env : Env) (db : Db) (v : values)
    : completion (Db * list matchesTable.row) :=
  t <- toISOString (v_startTime v) ;;
  sport <- Pg.varchar_in 50 (v_sport v) ;;
  homeTeam <- Pg.varchar_in 100 (v_homeTeam v) ;;
  awayTeam <- Pg.varchar_in 100 (v_awayTeam v) ;;
  status <- Pg.enum_in (v_status v) ;;
  startTime <- Pg.timestamp_in t ;;
  sport <- Pg.not_null sport ;;
  homeTeam <- Pg.not_null homeTeam ;;
  awayTeam <- Pg.not_null awayTeam ;;
  id <- Pg.serial_pk (map matchesTable.id (matches db)) (nextval env) ;;
  let r := {| matchesTable.id := id;
              matchesTable.sport := sport;
              matchesTable.homeTeam := homeTeam;
              matchesTable.awayTeam := awayTeam;
              matchesTable.status := match status with Some e => e | None => scheduled end;
              matchesTable.startTime := startTime;
              matchesTable.endTime := None;
              matchesTable.homeScore := 0;
              matchesTable.awayScore := 0;
              matchesTable.createdAt := now env |} in
  Normal ({| matches := matches db ++ [r]; commentary := commentary db |}, [r]).

(** The object given to [db.update(matchesTable).set(...)]; [JUndefined]
    and [None] stand for a key that was not set. *)
Record updateData : Type := {
  u_status : JsVal;
  u_homeScore : JsVal;
  u_awayScore : JsVal;
  u_endTime : option Date
}.

(** No entry is left once the [undefined] ones are dropped. *)
Definition no_values (u : updateData) : bool :=
  negb (defined (u_status u)) && negb (defined (u_homeScore u))
  && negb (defined (u_awayScore u))
  && match u_endTime u with None => true | Some _ => false end.

(** The SET clause once its parameters are read: per column, [None] when
    the column is not assigned, [Some None] for NULL. *)
Record set_clause : Type := {
  set_status : option (option matchStatusEnum);
  set_homeScore : option (option Z);
  set_awayScore : option (option Z);
  set_endTime : option (option Z)
}.

Definition bind_set (u : updateData) : completion set_clause :=
  t <- match u_endTime u with
       | Some d => t <- toISOString d ;; Normal (Some t)
       | None => Normal None
       end ;;
  status <- assigned Pg.enum_in (u_status u) ;;
  homeScore <- assigned Pg.int4_in (u_homeScore u) ;;
  awayScore <- assigned Pg.int4_in (u_awayScore u) ;;
  endTime <- match t with
             | Some t => t' <- Pg.timestamp_in t ;; Normal (Some (Some t'))
             | None => Normal None
             end ;;
  Normal {| set_status := status; set_homeScore := homeScore;
            set_awayScore := awayScore; set_endTime := endTime |}.

(** The row after the update; the NOT NULL columns refuse NULL. *)
Definition set_row (s : set_clause) (r : matchesTable.row) : completion matchesTable.row :=
  status' <- set_not_null (set_status s) (matchesTable.status r) ;;
  homeScore' <- set_not_null (set_homeScore s) (matchesTable.homeScore r) ;;
  awayScore' <- set_not_null (set_awayScore s) (matchesTable.awayScore r) ;;
  Normal {| matchesTable.id := matchesTable.id r;
            matchesTable.sport := matchesTable.sport r;
            matchesTable.homeTeam := matchesTable.homeTeam r;
            matchesTable.awayTeam := matchesTable.awayTeam r;
            matchesTable.status := status';
            matchesTable.startTime := matchesTable.startTime r;
            matchesTable.endTime := set_nullable (set_endTime s) (matchesTable.endTime r);
            matchesTable.homeScore := homeScore';
            matchesTable.awayScore := awayScore';
            matchesTable.createdAt := matchesTable.createdAt r |}.

(** [await db.update(matchesTable).set(u).where(c).returning()]: [set]
    throws on an object without values; then the parameters are read, and
    the rows that satisfy the condition are replaced. *)
Definition update_returning (db : Db) (u : updateData) (c : SQL)
    : completion (Db * list matchesTable.row) :=
  if no_values u then Throw NoValuesToSet else
  s <- bind_set u ;;
  p <- bind_where c ;;
  out <- update_rows p (set_row s) (matches db) ;;
  Normal ({| matches := fst out; commentary := commentary db |}, snd out).

(** [await db.delete(matchesTable).where(c)]: the rows go, and with them
    the commentary rows that reference one of them (on delete cascade). *)
Definition delete (db : Db) (c : SQL) : completion Db :=
  p <- bind_where c ;;
  let deleted := filter p (matches db) in
  Normal {| matches := filter (fun r => negb (p r)) (matches db);
            commentary :=
              filter (fun k => negb (existsb (fun r => matchesTable.id r =? commentaryTable.matchId k) deleted))
                     (commentary db) |}.

End Matches.

(* --------------------------------------------------------------------- *)
Module Commentary.

(** The conditions [eq(commentaryTable.<column>, value)] of the handlers. *)
Inductive SQL : Type :=
| eq_id (value : Number)
| eq_matchId (value : Number).

(** [desc(commentaryTable.createdAt)] *)
Inductive ordering : Type := desc_createdAt.

Record PgSelect : Type := {
  config_where : option SQL;
  config_orderBy : option ordering
}.

Definition select_from : PgSelect :=
  {| config_where := None; config_orderBy := None |}.

Definition where_ (c : SQL) (query : PgSelect) : PgSelect :=
  {| config_where := Some c; config_orderBy := config_orderBy query |}.

Definition orderBy (o : ordering) (query : PgSelect) : PgSelect :=
  {| config_where := config_where query; config_orderBy := Some o |}.

Definition bind_where (c : SQL) : completion (commentaryTable.row -> bool) :=
  match c with
  | eq_id value =>
      n <- Pg.int4_param value ;;
      Normal (fun k => commentaryTable.id k =? n)
  | eq_matchId value =>
      n <- Pg.int4_param value ;;
      Normal (fun k => commentaryTable.matchId k =? n)
  end.

(** ORDER BY created_at DESC, as an insertion sort.  The database promises
    no order among rows with the same timestamp; here they come out in
    storage order. *)
Fixpoint insert_desc (k : commentaryTable.row) (sorted : list commentaryTable.row)
    : list commentaryTable.row :=
  match sorted with
  | [] => [k]
  | k' :: rest =>
      if commentaryTable.createdAt k' <=? commentaryTable.createdAt k
      then k :: sorted
      else k' :: insert_desc k rest
  end.

Definition sort_desc (rows : list commentaryTable.row) : list commentaryTable.row :=
  fold_right insert_desc [] rows.

(** [await query] *)
Definition await (db : Db) (query : PgSelect) : completion (list commentaryTable.row) :=
  rows <- match config_where query with
          | None => Normal (commentary db)
          | Some c => p <- bind_where c ;; Normal (filter p (commentary db))
          end ;;
  match config_orderBy query with
  | None => Normal rows
  | Some desc_createdAt => Normal (sort_desc rows)
  end.

(** A tag that reads the same in an array literal with or without quotes:
    letters, digits, [_] and [-], not empty and not the word NULL. *)
Definition tag_char (c : ascii) : bool :=
  let a := code c in
  ((48 <=? a) && (a <=? 57)) || ((65 <=? a) && (a <=? 90))
  || ((97 <=? a) && (a <=? 122)) || (a =? 95) || (a =? 45).

Fixpoint all_tag_chars (s : string) : bool :=
  match s with
  | EmptyString => true
  | String c r => tag_char c && all_tag_chars r
  end.

Definition lower (c : ascii) : ascii :=
  let a := code c in
  if (65 <=? a) && (a <=? 90) then ascii_of_N (Z.to_N (a + 32)) else c.

Fixpoint lowercase (s : string) : string :=
  match s with
  | EmptyString => s
  | String c r => String (lower c) (lowercase r)
  end.

Definition plain_tag (s : string) : bool :=
  negb (s =? EmptyString)%string && all_tag_chars s && negb (lowercase s =? "null")%string.

Fixpoint plain_tags (items : list JsVal) : option (list string) :=
  match items with
  | [] => Some []
  | JStr s :: rest =>
      if plain_tag s
      then option_map (cons s) (plain_tags rest)
      else None
  | _ :: _ => None
  end.

(** The driver value of the [tags] column: [value.map(...)] throws on a
    value that is not an array; an array of plain tags is stored as it is,
    the literal built for any other array is not followed. *)
Definition makePgArray (v : JsVal) : completion (option (list string)) :=
  match v with
  | JUndefined | JNull => Normal None
  | JArr items =>
      match plain_tags items with
      | Some l => Normal (Some l)
      | None => Unmodelled
      end
  | JBool _ | JNum _ | JStr _ | JObj _ => Throw TypeError
  end.

(** The object given to [db.insert(commentaryTable).values(...)]. *)
Record values : Type := {
  v_matchId : Number;
  v_minute : JsVal;
  v_sequence : JsVal;
  v_period : JsVal;
  v_eventType : JsVal;
  v_actor : JsVal;
  v_team : JsVal;
  v_message : JsVal;
  v_metadata : JsVal;
  v_tags : JsVal
}.

(** [await db.insert(commentaryTable).values(v).returning()] *)
Definition insert_returning (env : Env) (db : Db) (v : values)
    : completion (Db * list commentaryTable.row) :=
  tags <- makePgArray (v_tags v) ;;
  matchId <- Pg.int4_param (v_matchId v) ;;
  minute <- Pg.int4_in (v_minute v) ;;
  sequence <- Pg.int4_in (v_sequence v) ;;
  period <- Pg.varchar_in 20 (v_period v) ;;
  eventType <- Pg.varchar_in 50 (v_eventType v) ;;
  actor <- Pg.varchar_in 100 (v_actor v) ;;
  team <- Pg.varchar_in 100 (v_team v) ;;
  message <- Pg.text_in (v_message v) ;;
  metadata <- Pg.jsonb_in (v_metadata v) ;;
  sequence <- Pg.not_null sequence ;;
  eventType <- Pg.not_null eventType ;;
  actor <- Pg.not_null actor ;;
  team <- Pg.not_null team ;;
  message <- Pg.not_null message ;;
  id <- Pg.serial_pk (map commentaryTable.id (commentary db)) (nextval env) ;;
  if existsb (fun r => matchesTable.id r =? matchId) (matches db) then
    let k := {| commentaryTable.id := id;
                commentaryTable.matchId := matchId;
                commentaryTable.minute := minute;
                commentaryTable.sequence := sequence;
                commentaryTable.period := period;
                commentaryTable.eventType := eventType;
                commentaryTable.actor := actor;
                commentaryTable.team := team;
                commentaryTable.message := message;
                commentaryTable.metadata := metadata;
                commentaryTable.tags := tags;
                commentaryTable.createdAt := now env |} in
    Normal ({| matches := matches db; commentary := commentary db ++ [k] |}, [k])
  else Throw IntegrityConstraintViolation.

(** The object given to [db.update(commentaryTable).set(...)]. *)
Record updateData : Type := {
  u_message : JsVal;
  u_metadata : JsVal
}.

Definition no_values (u : updateData) : bool :=
  negb (defined (u_message u)) && negb (defined (u_metadata u)).

Record set_clause : Type := {
  set_message : option (option string);
  set_metadata : option (option JsVal)
}.

Definition bind_set (u : updateData) : completion set_clause :=
  message <- assigned Pg.text_in (u_message u) ;;
  metadata <- assigned Pg.jsonb_in (u_metadata u) ;;
  Normal {| set_message := message; set_metadata := metadata |}.

Definition set_row (s : set_clause) (k : commentaryTable.row) : completion commentaryTable.row :=
  message' <- set_not_null (set_message s) (commentaryTable.message k) ;;
  Normal {| commentaryTable.id := commentaryTable.id k;
            commentaryTable.matchId := commentaryTable.matchId k;
            commentaryTable.minute := commentaryTable.minute k;
            commentaryTable.sequence := commentaryTable.sequence k;
            commentaryTable.period := commentaryTable.period k;
            commentaryTable.eventType := commentaryTable.eventType k;
            commentaryTable.actor := commentaryTable.actor k;
            commentaryTable.team := commentaryTable.team k;
            commentaryTable.message := message';
            commentaryTable.metadata := set_nullable (set_metadata s) (commentaryTable.metadata k);
            commentaryTable.tags := commentaryTable.tags k;
            commentaryTable.createdAt := commentaryTable.createdAt k |}.

(** [await db.update(commentaryTable).set(u).where(c).returning()] *)
Definition update_returning (db : Db) (u : updateData) (c : SQL)
    : completion (Db * list commentaryTable.row) :=
  if no_values u then Throw NoValuesToSet else
  s <- bind_set u ;;
  p <- bind_where c ;;
  out <- update_rows p (set_row s) (commentary db) ;;
  Normal ({| matches := matches db; commentary := fst out |}, snd out).

(** [await db.delete(commentaryTable).where(c)] *)
Definition delete (db : Db) (c : SQL) : completion Db :=
  p <- bind_where c ;;
  Normal {| matches := matches db;
            commentary := filter (fun k => negb (p k)) (commentary db) |}.

End Commentary.

End Drizzle.

(* ===================================================================== *)
(** ** [src/index.js]: the route handlers                                 *)
(* ===================================================================== *)

Module App.

Import Drizzle.

(** The [data] of a success body. *)
Inductive payload : Type :=
| match_rows (rows : list matchesTable.row)
| match_row (r : matchesTable.row)
| commentary_rows (rows : list commentaryTable.row)
| commentary_row (k : commentaryTable.row).

(** The text of an error body: written in the handler, or the message of
    the exception caught. *)
Inductive error_text : Type :=
| text (s : string)
| error_message (e : Exn).

(** The three shapes of body the handlers send. *)
Inductive json : Type :=
| success_data (data : payload)             (* { success: true, data } *)
| success_message (message : string)        (* { success: true, message } *)
| failure (error : error_text).             (* { success: false, error } *)

Record Response : Type := {
  statusCode : Z;
  body : json
}.

(** [res.json(b)] *)
Definition res_json (b : json) : Response := {| statusCode := 200; body := b |}.

(** [res.status(c).json(b)] *)
Definition res_status_json (c : Z) (b : json) : Response := {| statusCode := c; body := b |}.

(** [try { ... } catch (error) { res.status(400).json({ success: false,
    error: error.message }) }]: the one statement of a handler that throws
    leaves the tables as they were. *)
Definition try_catch (db : Db) (c : completion (Db * Response)) : option (Db * Response) :=
  match c with
  | Normal out => Some out
  | Throw e => Some (db, res_status_json 400 (failure (error_message e)))
  | Unmodelled => None
  end.

(** [if (q)] on a query-string parameter. *)
Definition given (q : option string) : option string :=
  match q with
  | Some s => if (s =? EmptyString)%string then None else Some s
  | None => None
  end.

(** GET /matches *)
Definition get_matches (db : Db) (status sport : option string) : option (Db * Response) :=
  try_catch db (
    let query := Matches.select_from in
    let query := match given status with
                 | Some status => Matches.where_ (Matches.eq_status status) query
                 | None => query
                 end in
    let query := match given sport with
                 | Some sport => Matches.where_ (Matches.eq_sport sport) query
                 | None => query
                 end in
    matches <- Matches.await db query ;;
    Normal (db, res_json (success_data (match_rows matches)))).

(** GET /matches/:id *)
Definition get_matches_id (db : Db) (id : string) : option (Db * Response) :=
  try_catch db (
    match_ <- Matches.await db (Matches.where_ (Matches.eq_id (parseInt id)) Matches.select_from) ;;
    match match_ with
    | [] => Normal (db, res_status_json 404 (failure (text "Match not found")))
    | first :: _ => Normal (db, res_json (success_data (match_row first)))
    end).

(** POST /matches *)
Definition post_matches (env : Env) (db : Db) (body : JsVal) : option (Db * Response) :=
  try_catch db (
    sport <- destructure body "sport" ;;
    homeTeam <- destructure body "homeTeam" ;;
    awayTeam <- destructure body "awayTeam" ;;
    startTime <- destructure body "startTime" ;;
    if negb (truthy sport) || negb (truthy homeTeam) || negb (truthy awayTeam)
       || negb (truthy startTime)
    then Normal (db, res_status_json 400 (failure (text
           "Missing required fields: sport, homeTeam, awayTeam, startTime")))
    else
      date <- new_Date startTime ;;
      out <- Matches.insert_returning env db
               {| Matches.v_sport := sport;
                  Matches.v_homeTeam := homeTeam;
                  Matches.v_awayTeam := awayTeam;
                  Matches.v_startTime := date;
                  Matches.v_status := JStr "scheduled" |} ;;
      match snd out with   (* const [newMatch] = ...: the insert returns its one row *)
      | newMatch :: _ => Normal (fst out, res_status_json 201 (success_data (match_row newMatch)))
      | [] => Unmodelled
      end).

(** PUT /matches/:id *)
Definition put_matches_id (db : Db) (id : string) (body : JsVal) : option (Db * Response) :=
  try_catch db (
    status <- destructure body "status" ;;
    homeScore <- destructure body "homeScore" ;;
    awayScore <- destructure body "awayScore" ;;
    endTime <- destructure body "endTime" ;;
    date <- (if defined endTime then d <- new_Date endTime ;; Normal (Some d)
             else Normal None) ;;
    let updateData :=
      {| Matches.u_status := if defined status then status else JUndefined;
         Matches.u_homeScore := if defined homeScore then homeScore else JUndefined;
         Matches.u_awayScore := if defined awayScore then awayScore else JUndefined;
         Matches.u_endTime := date |} in
    out <- Matches.update_returning db updateData (Matches.eq_id (parseInt id)) ;;
    match snd out with
    | [] => Normal (fst out, res_status_json 404 (failure (text "Match not found")))
    | updatedMatch :: _ => Normal (fst out, res_json (success_data (match_row updatedMatch)))
    end).

(** DELETE /matches/:id *)
Definition delete_matches_id (db : Db) (id : string) : option (Db * Response) :=
  try_catch db (
    db' <- Matches.delete db (Matches.eq_id (parseInt id)) ;;
    Normal (db', res_json (success_message "Match deleted successfully"))).

(** GET /matches/:matchId/commentary *)
Definition get_matches_matchId_commentary (db : Db) (matchId : string) : option (Db * Response) :=
  try_catch db (
    commentary <- Commentary.await db
      (Commentary.orderBy Commentary.desc_createdAt
        (Commentary.where_ (Commentary.eq_matchId (parseInt matchId))
          Commentary.select_from)) ;;
    Normal (db, res_json (success_data (commentary_rows commentary)))).

(** POST /matches/:matchId/commentary *)
Definition post_matches_matchId_commentary (env : Env) (db : Db) (matchId : string)
    (body : JsVal) : option (Db * Response) :=
  try_catch db (
    minute <- destructure body "minute" ;;
    sequence <- destructure body "sequence" ;;
    period <- destructure body "period" ;;
    eventType <- destructure body "eventType" ;;
    actor <- destructure body "actor" ;;
    team <- destructure body "team" ;;
    message <- destructure body "message" ;;
    metadata <- destructure body "metadata" ;;
    tags <- destructure body "tags" ;;
    if negb (truthy sequence) || negb (truthy eventType) || negb (truthy actor)
       || negb (truthy team) || negb (truthy message)
    then Normal (db, res_status_json 400 (failure (text
           "Missing required fields: sequence, eventType, actor, team, message")))
    else
      out <- Commentary.insert_returning env db
               {| Commentary.v_matchId := parseInt matchId;
                  Commentary.v_minute := Js.or minute JNull;
                  Commentary.v_sequence := sequence;
                  Commentary.v_period := Js.or period JNull;
                  Commentary.v_eventType := eventType;
                  Commentary.v_actor := actor;
                  Commentary.v_team := team;
                  Commentary.v_message := message;
                  Commentary.v_metadata := Js.or metadata JNull;
                  Commentary.v_tags := Js.or tags (JArr []) |} ;;
      match snd out with   (* const [newCommentary] = ...: the insert returns its one row *)
      | newCommentary :: _ =>
          Normal (fst out, res_status_json 201 (success_data (commentary_row newCommentary)))
      | [] => Unmodelled
      end).

(** PUT /commentary/:id *)
Definition put_commentary_id (db : Db) (id : string) (body : JsVal) : option (Db * Response) :=
  try_catch db (
    message <- destructure body "message" ;;
    metadata <- destructure body "metadata" ;;
    let updateData :=
      {| Commentary.u_message := if defined message then message else JUndefined;
         Commentary.u_metadata := if defined metadata then metadata else JUndefined |} in
    out <- Commentary.update_returning db updateData (Commentary.eq_id (parseInt id)) ;;
    match snd out with
    | [] => Normal (fst out, res_status_json 404 (failure (text "Commentary not found")))
    | updatedCommentary :: _ =>
        Normal (fst out, res_json (success_data (commentary_row updatedCommentary)))
    end).

(** DELETE /commentary/:id *)
Definition delete_commentary_id (db : Db) (id : string) : option (Db * Response) :=
  try_catch db (
    db' <- Commentary.delete db (Commentary.eq_id (parseInt id)) ;;
    Normal (db', res_json (success_message "Commentary deleted successfully"))).

(** A request to one of the nine routes over the tables. *)
Inductive Request : Type :=
| GET_matches (status sport : option string)
| GET_matches_id (id : string)
| POST_matches (env : Env) (body : JsVal)
| PUT_matches_id (id : string) (body : JsVal)
| DELETE_matches_id (id : string)
| GET_matches_matchId_commentary (matchId : string)
| POST_matches_matchId_commentary (env : Env) (matchId : string) (body : JsVal)
| PUT_commentary_id (id : string) (body : JsVal)
| DELETE_commentary_id (id : string).

(** Routing by method and path. *)
Definition app (db : Db) (req : Request) : option (Db * Response) :=
  match req with
  | GET_matches status sport => get_matches db status sport
  | GET_matches_id id => get_matches_id db id
  | POST_matches env body => post_matches env db body
  | PUT_matches_id id body => put_matches_id db id body
  | DELETE_matches_id id => delete_matches_id db id
  | GET_matches_matchId_commentary matchId => get_matches_matchId_commentary db matchId
  | POST_matches_matchId_commentary env matchId body =>
      post_matches_matchId_commentary env db matchId body
  | PUT_commentary_id id body => put_commentary_id db id body
  | DELETE_commentary_id id => delete_commentary_id db id
  end.




End App.

(* ===================================================================== *)
(** ** Vocabulary of the statements                                       *)
(* ===================================================================== *)

(** The constraints [schema.js] puts on the tables: ids of [matches] are
    32-bit, the two primary keys, and the foreign key of [commentary]. *)
Record Db_ok (db : Db) : Prop := {
  matches_int4 :
    Forall (fun r => Pg.int4_range (matchesTable.id r) = true) (matches db);
  matches_pkey : NoDup (map matchesTable.id (matches db));
  commentary_pkey : NoDup (map commentaryTable.id (commentary db));
  commentary_fkey :
    Forall (fun k => existsb (fun r => matchesTable.id r =? commentaryTable.matchId k)
                             (matches db) = true)
           (commentary db)
}.

(** The tables the server can reach from empty ones. *)
Inductive reachable : Db -> Prop :=
| reachable_empty : reachable {| matches := []; commentary := [] |}
| reachable_step db req db' resp :
    reachable db -> App.app db req = Some (db', resp) -> reachable db'.

(** The value [const { k } = body] gives to [k]; [undefined] where there is
    no body to destructure. *)
Definition field (body : JsVal) (k : string) : JsVal :=
  match destructure body k with
  | Normal v => v
  | _ => JUndefined
  end.

(** The body has no property [k] (or there is no body at all). *)
Definition lacks (body : JsVal) (k : string) : Prop :=
  field body k = JUndefined.

(** The property [k] of the body is missing or falsy. *)
Definition missing_or_falsy (body : JsVal) (k : string) : Prop :=
  truthy (field body k) = false.

(** The property [k] of the body is there and truthy. *)
Definition present (body : JsVal) (k : string) : Prop :=
  truthy (field body k) = true.

(** A body was parsed: there is something to destructure. *)
Definition has_body (body : JsVal) : Prop := body <> JUndefined /\ body <> JNull.

(** The object POST /matches gives to [values], [date] being
    [new Date(startTime)]. *)
Definition matches_values (body : JsVal) (date : Date) : Drizzle.Matches.values :=
  {| Drizzle.Matches.v_sport := field body "sport";
     Drizzle.Matches.v_homeTeam := field body "homeTeam";
     Drizzle.Matches.v_awayTeam := field body "awayTeam";
     Drizzle.Matches.v_startTime := date;
     Drizzle.Matches.v_status := JStr "scheduled" |}.

(** The object POST /matches/:matchId/commentary gives to [values]. *)
Definition commentary_values (matchId : string) (body : JsVal) : Drizzle.Commentary.values :=
  {| Drizzle.Commentary.v_matchId := parseInt matchId;
     Drizzle.Commentary.v_minute := Js.or (field body "minute") JNull;
     Drizzle.Commentary.v_sequence := field body "sequence";
     Drizzle.Commentary.v_period := Js.or (field body "period") JNull;
     Drizzle.Commentary.v_eventType := field body "eventType";
     Drizzle.Commentary.v_actor := field body "actor";
     Drizzle.Commentary.v_team := field body "team";
     Drizzle.Commentary.v_message := field body "message";
     Drizzle.Commentary.v_metadata := Js.or (field body "metadata") JNull;
     Drizzle.Commentary.v_tags := Js.or (field body "tags") (JArr []) |}.

(** [new Date(endTime)] of a PUT /matches/:id body that has an endTime. *)
Definition endTime_date (body : JsVal) : completion (option Date) :=
  if defined (field body "endTime")
  then d <- new_Date (field body "endTime") ;; Normal (Some d)
  else Normal None.

(** [updateData] as PUT /matches/:id fills it from the body. *)
Definition matches_updateData (body : JsVal) (date : option Date)
    : Drizzle.Matches.updateData :=
  {| Drizzle.Matches.u_status := field body "status";
     Drizzle.Matches.u_homeScore := field body "homeScore";
     Drizzle.Matches.u_awayScore := field body "awayScore";
     Drizzle.Matches.u_endTime := date |}.

(** [updateData] as PUT /commentary/:id fills it from the body. *)
Definition commentary_updateData (body : JsVal) : Drizzle.Commentary.updateData :=
  {| Drizzle.Commentary.u_message := field body "message";
     Drizzle.Commentary.u_metadata := field body "metadata" |}.

(** The update of a PUT /matches/:id body is accepted as the SET clause
    [s]: the body supplies one of the four fields, the endTime converts,
    the columns read the values, and none of status, homeScore, awayScore is
    set to null. *)
Definition matches_update_accepted (body : JsVal) (s : Drizzle.Matches.set_clause) : Prop :=
  has_body body
  /\ exists date,
       endTime_date body = Normal date
       /\ Drizzle.Matches.no_values (matches_updateData body date) = false
       /\ Drizzle.Matches.bind_set (matches_updateData body date) = Normal s
       /\ Drizzle.Matches.set_status s <> Some None
       /\ Drizzle.Matches.set_homeScore s <> Some None
       /\ Drizzle.Matches.set_awayScore s <> Some None.

(** The same for PUT /commentary/:id: message or metadata is supplied, the
    columns read the values, and message is not set to null. *)
Definition commentary_update_accepted (body : JsVal) (s : Drizzle.Commentary.set_clause)
    : Prop :=
  has_body body
  /\ Drizzle.Commentary.no_values (commentary_updateData body) = false
  /\ Drizzle.Commentary.bind_set (commentary_updateData body) = Normal s
  /\ Drizzle.Commentary.set_message s <> Some None.

(** Newest first. *)
Definition newest_first (rows : list commentaryTable.row) : Prop :=
  StronglySorted (fun a b => commentaryTable.createdAt b <= commentaryTable.createdAt a) rows.

(** [r'] is [r] but for the fields of status, homeScore, awayScore, endTime
    that the body of a PUT /matches/[id] supplies; a row with another id is
    not touched at all. *)
Definition only_supplied_changed (id : string) (body : JsVal)
    (r r' : matchesTable.row) : Prop :=
  matchesTable.id r' = matchesTable.id r
  /\ matchesTable.sport r' = matchesTable.sport r
  /\ matchesTable.homeTeam r' = matchesTable.homeTeam r
  /\ matchesTable.awayTeam r' = matchesTable.awayTeam r
  /\ matchesTable.startTime r' = matchesTable.startTime r
  /\ matchesTable.createdAt r' = matchesTable.createdAt r
  /\ (lacks body "status" -> matchesTable.status r' = matchesTable.status r)
  /\ (lacks body "homeScore" -> matchesTable.homeScore r' = matchesTable.homeScore r)
  /\ (lacks body "awayScore" -> matchesTable.awayScore r' = matchesTable.awayScore r)
  /\ (lacks body "endTime" -> matchesTable.endTime r' = matchesTable.endTime r)
  /\ (parseInt id <> Some (matchesTable.id r) -> r' = r).

(** [r] with another status, everything else as it is. *)
Definition with_status (e : matchStatusEnum) (r : matchesTable.row) : matchesTable.row :=
  {| matchesTable.id := matchesTable.id r;
     matchesTable.sport := matchesTable.sport r;
     matchesTable.homeTeam := matchesTable.homeTeam r;
     matchesTable.awayTeam := matchesTable.awayTeam r;
     matchesTable.status := e;
     matchesTable.startTime := matchesTable.startTime r;
     matchesTable.endTime := matchesTable.endTime r;
     matchesTable.homeScore := matchesTable.homeScore r;
     matchesTable.awayScore := matchesTable.awayScore r;
     matchesTable.createdAt := matchesTable.createdAt r |}.

(* ===================================================================== *)
(** ** Sample data                                                        *)
(* ===================================================================== *)

Module Sample.

Definition football_scheduled : matchesTable.row :=
  {| matchesTable.id := 1;
     matchesTable.sport := "football";
     matchesTable.homeTeam := "A";
     matchesTable.awayTeam := "B";
     matchesTable.status := scheduled;
     matchesTable.startTime := 1767261600000;
     matchesTable.endTime := None;
     matchesTable.homeScore := 0;
     matchesTable.awayScore := 0;
     matchesTable.createdAt := 1767000000000 |}.

Definition tennis_live : matchesTable.row :=
  {| matchesTable.id := 2;
     matchesTable.sport := "tennis";
     matchesTable.homeTeam := "C";
     matchesTable.awayTeam := "D";
     matchesTable.status := live;
     matchesTable.startTime := 1767261600000;
     matchesTable.endTime := None;
     matchesTable.homeScore := 1;
     matchesTable.awayScore := 0;
     matchesTable.createdAt := 1767000001000 |}.

Definition note (id matchId createdAt : Z) (message : string) : commentaryTable.row :=
  {| commentaryTable.id := id;
     commentaryTable.matchId := matchId;
     commentaryTable.minute := Some 12;
     commentaryTable.sequence := id;
     commentaryTable.period := None;
     commentaryTable.eventType := "goal";
     commentaryTable.actor := "P";
     commentaryTable.team := "A";
     commentaryTable.message := message;
     commentaryTable.metadata := None;
     commentaryTable.tags := Some [];
     commentaryTable.createdAt := createdAt |}.

Definition empty : Db := {| matches := []; commentary := [] |}.

Definition db1 : Db :=
  {| matches := [football_scheduled]; commentary := [] |}.

Definition db2 : Db :=
  {| matches := [football_scheduled; tennis_live];
     commentary := [note 1 1 1767262000000 "a"; note 2 2 1767262001000 "b";
                    note 3 1 1767262002000 "c"] |}.

Definition env3 : Env := {| now := 1767100000000; nextval := 3 |}.

(** The body of the specification's end-to-end example, with a [status]
    the handler has to ignore. *)
Definition new_match_body : JsVal :=
  JObj [("sport", JStr "football"); ("homeTeam", JStr "A"); ("awayTeam", JStr "B");
        ("startTime", JStr "2026-01-01T10:00:00Z"); ("status", JStr "live")].

Definition long_sport : string :=
  "aaaaaaaaaaaaaaaaaaaaaaaaaaaaaaaaaaaaaaaaaaaaaaaaaaa".

Definition long_sport_body : JsVal :=
  JObj [("sport", JStr long_sport); ("homeTeam", JStr "A"); ("awayTeam", JStr "B");
        ("startTime", JStr "2026-01-01T10:00:00Z")].

Definition new_commentary_body : JsVal :=
  JObj [("sequence", JNum 1); ("eventType", JStr "goal"); ("actor", JStr "P");
        ("team", JStr "A"); ("message", JStr "what a strike")].

End Sample.

(* ===================================================================== *)
(** ** Lemmas on the building blocks                                      *)
(* ===================================================================== *)

Import App.

Lemma bind_Normal {A B : Type} (c : completion A) (k : A -> completion B) (b : B) :
  bind c k = Normal b -> exists a, c = Normal a /\ k a = Normal b.
Proof.
  destruct c as [a | e | ]; simpl; intros H; try discriminate.
  exists a; split; [reflexivity | exact H].
Qed.

Lemma try_catch_unchanged (db : Db) (e : Exn) :
  try_catch db (Throw e) = Some (db, res_status_json 400 (failure (error_message e))).
Proof. reflexivity. Qed.

(** Destructuring either throws for every key or gives a value for every
    key. *)
Lemma destructure_cases (body : JsVal) :
  (forall k, destructure body k = Throw TypeError)
  \/ (forall k, exists v, destructure body k = Normal v).
Proof.
  destruct body; simpl; (left; intros; reflexivity) || (right; intros; eexists; reflexivity).
Qed.

Lemma field_Normal body k v : destructure body k = Normal v -> field body k = v.
Proof. unfold field. intros H. rewrite H. reflexivity. Qed.

Lemma lacks_Normal body k v :
  lacks body k -> destructure body k = Normal v -> v = JUndefined.
Proof. unfold lacks. intros L H. rewrite (field_Normal _ _ _ H) in L. exact L. Qed.

Lemma falsy_Normal body k v :
  missing_or_falsy body k -> destructure body k = Normal v -> truthy v = false.
Proof. unfold missing_or_falsy. intros L H. rewrite (field_Normal _ _ _ H) in L. exact L. Qed.

Lemma present_Normal body k :
  present body k -> destructure body k = Normal (field body k).
Proof.
  unfold present, field. destruct (destructure body k); simpl; intros H;
    [reflexivity | discriminate | discriminate].
Qed.

Section UpdateRows.
Context {R : Type} (p : R -> bool) (f : R -> completion R).

Lemma update_rows_table rows out :
  Drizzle.update_rows p f rows = Normal out ->
  Forall2 (fun r r' => if p r then f r = Normal r' else r' = r) rows (fst out).
Proof.
  revert out. induction rows as [ | r rest IH]; simpl; intros out H.
  - inversion H; subst; constructor.
  - destruct (p r) eqn:Hp.
    + apply bind_Normal in H as (r' & Hf & H).
      apply bind_Normal in H as (o & Ho & H).
      inversion H; subst; simpl. constructor; [rewrite Hp; exact Hf | apply IH, Ho].
    + apply bind_Normal in H as (o & Ho & H).
      inversion H; subst; simpl. constructor; [rewrite Hp; reflexivity | apply IH, Ho].
Qed.

Lemma update_rows_returning rows out :
  Drizzle.update_rows p f rows = Normal out ->
  Forall2 (fun r r' => f r = Normal r') (filter p rows) (snd out).
Proof.
  revert out. induction rows as [ | r rest IH]; simpl; intros out H.
  - inversion H; subst; constructor.
  - destruct (p r) eqn:Hp.
    + apply bind_Normal in H as (r' & Hf & H).
      apply bind_Normal in H as (o & Ho & H).
      inversion H; subst; simpl. constructor; [exact Hf | apply IH, Ho].
    + apply bind_Normal in H as (o & Ho & H).
      inversion H; subst; simpl. apply IH, Ho.
Qed.

Lemma update_rows_no_match rows :
  filter p rows = [] -> Drizzle.update_rows p f rows = Normal (rows, []).
Proof.
  induction rows as [ | r rest IH]; simpl; intros H; [reflexivity | ].
  destruct (p r); [discriminate | ]. rewrite (IH H). reflexivity.
Qed.

Lemma update_rows_total rows :
  (forall r, In r rows -> p r = true -> exists r', f r = Normal r') ->
  exists out, Drizzle.update_rows p f rows = Normal out.
Proof.
  induction rows as [ | r rest IH]; simpl; intros H; [eexists; reflexivity | ].
  destruct IH as [o Ho]; [intros; apply H; auto | ].
  destruct (p r) eqn:Hp.
  - destruct (H r (or_introl eq_refl) Hp) as [r' Hr']. rewrite Hr', Ho. simpl. eexists; reflexivity.
  - rewrite Ho. simpl. eexists; reflexivity.
Qed.

Lemma update_rows_map {B : Type} (g : R -> B) rows out :
  (forall r r', f r = Normal r' -> g r' = g r) ->
  Drizzle.update_rows p f rows = Normal out ->
  map g (fst out) = map g rows.
Proof.
  intros Hg H. apply update_rows_table in H.
  induction H as [ | r r' l l' Hr _ IH]; simpl; [reflexivity | ].
  f_equal; [ | exact IH].
  destruct (p r); [apply Hg, Hr | subst; reflexivity].
Qed.

Lemma update_rows_empty_returning rows out :
  Drizzle.update_rows p f rows = Normal out ->
  snd out = [] -> fst out = rows /\ filter p rows = [].
Proof.
  intros H E. pose proof (update_rows_returning _ _ H) as HR.
  rewrite E in HR. inversion HR as [Hnil | ]. split; [ | reflexivity].
  symmetry in Hnil. rewrite (update_rows_no_match _ Hnil) in H.
  inversion H; reflexivity.
Qed.
End UpdateRows.

(* ===================================================================== *)
(** ** GET /matches                                                       *)
(* ===================================================================== *)

(** Without a filter every row is listed. *)
Lemma get_matches_all db status sport :
  given status = None -> given sport = None ->
  get_matches db status sport = Some (db, res_json (success_data (match_rows (matches db)))).
Proof.
  intros Hs Hp. unfold get_matches. rewrite Hs, Hp. reflexivity.
Qed.

(** [status] alone filters on the status. *)
Lemma get_matches_status_only db status sport s e :
  given status = Some s -> given sport = None -> enumValues s = Some e ->
  get_matches db status sport
  = Some (db, res_json (success_data (match_rows
            (filter (fun r => status_eqb e (matchesTable.status r)) (matches db))))).
Proof.
  intros Hs Hp He. unfold get_matches. rewrite Hs, Hp. simpl.
  unfold Drizzle.Matches.await; simpl. rewrite He. reflexivity.
Qed.

(** [sport] alone filters on the sport. *)
Lemma get_matches_sport_only db status sport s :
  given status = None -> given sport = Some s -> Pg.has_nul s = false ->
  get_matches db status sport
  = Some (db, res_json (success_data (match_rows
            (filter (fun r => (matchesTable.sport r =? s)%string) (matches db))))).
Proof.
  intros Hs Hp Hn. unfold get_matches. rewrite Hs, Hp. simpl.
  unfold Drizzle.Matches.await; simpl. unfold Pg.text_param. rewrite Hn. reflexivity.
Qed.

(** With both parameters the second [where] replaces the first: the list is
    filtered on the sport alone, whatever the status asked for. *)
Lemma get_matches_both db status sport s1 s2 :
  given status = Some s1 -> given sport = Some s2 -> Pg.has_nul s2 = false ->
  get_matches db status sport
  = Some (db, res_json (success_data (match_rows
            (filter (fun r => (matchesTable.sport r =? s2)%string) (matches db))))).
Proof.
  intros Hs Hp Hn. unfold get_matches. rewrite Hs, Hp. simpl.
  unfold Drizzle.Matches.await; simpl. unfold Pg.text_param. rewrite Hn. reflexivity.
Qed.

(** C1 (the code departs from the claim).  Asked for the live football
    matches of a table that holds one scheduled football match, the handler
    answers 200 with that scheduled match: only the sport is filtered on. *)
Theorem get_matches_status_filter_dropped :
  get_matches Sample.db1 (Some "live") (Some "football")
  = Some (Sample.db1, res_json (success_data (match_rows [Sample.football_scheduled])))
  /\ matchesTable.status Sample.football_scheduled <> live.
Proof.
  split; [reflexivity | discriminate].
Qed.

(* ===================================================================== *)
(** ** POST /matches: validation                                          *)
(* ===================================================================== *)

(** C8.  When one of sport, homeTeam, awayTeam, startTime is missing or
    falsy, POST /matches answers 400 with an error body and leaves the
    tables as they were; for a parsed body the error is the handler's
    missing-fields message. *)
Theorem post_matches_missing_field env db body :
  missing_or_falsy body "sport" \/ missing_or_falsy body "homeTeam"
  \/ missing_or_falsy body "awayTeam" \/ missing_or_falsy body "startTime" ->
  exists e,
    post_matches env db body = Some (db, res_status_json 400 (failure e))
    /\ ((exists v, destructure body "sport" = Normal v) ->
        e = text "Missing required fields: sport, homeTeam, awayTeam, startTime").
Proof.
  intros H. unfold post_matches.
  destruct (destructure_cases body) as [T | N].
  - rewrite T; simpl. eexists; split; [reflexivity | ].
    intros [v Hv]. discriminate.
  - destruct (N "sport") as [v1 H1], (N "homeTeam") as [v2 H2],
      (N "awayTeam") as [v3 H3], (N "startTime") as [v4 H4].
    rewrite H1, H2, H3, H4; simpl.
    assert (C : negb (truthy v1) || negb (truthy v2) || negb (truthy v3)
                || negb (truthy v4) = true).
    { destruct H as [H | [H | [H | H]]];
        [rewrite (falsy_Normal _ _ _ H H1) | rewrite (falsy_Normal _ _ _ H H2)
         | rewrite (falsy_Normal _ _ _ H H3) | rewrite (falsy_Normal _ _ _ H H4)];
        simpl; rewrite ?orb_true_r; reflexivity. }
    rewrite C; simpl. eexists; split; [reflexivity | intros _; reflexivity].
Qed.

Lemma post_matches_missing_field_witness :
  exists e,
    post_matches Sample.env3 Sample.db2
      (JObj [("sport", JStr "football"); ("homeTeam", JStr EmptyString); ("awayTeam", JStr "B")])
    = Some (Sample.db2, res_status_json 400 (failure e)).
Proof.
  destruct (post_matches_missing_field Sample.env3 Sample.db2
              (JObj [("sport", JStr "football"); ("homeTeam", JStr EmptyString); ("awayTeam", JStr "B")]))
    as [e [He _]].
  - right; left. reflexivity.
  - exists e. exact He.
Defined.

(* ===================================================================== *)
(** ** PUT with no field to update                                        *)
(* ===================================================================== *)

(** C10.  A PUT /matches/:id whose body has none of status, homeScore,
    awayScore, endTime, and a PUT /commentary/:id whose body has neither
    message nor metadata, answer 400 (for a parsed body: the query
    builder's refusal of an empty update), not 200 or 404, and the tables
    are unchanged. *)
Theorem put_without_fields_rejected db id body :
  (lacks body "status" -> lacks body "homeScore" -> lacks body "awayScore" ->
   lacks body "endTime" ->
   exists e,
     put_matches_id db id body = Some (db, res_status_json 400 (failure (error_message e)))
     /\ ((exists v, destructure body "status" = Normal v) -> e = NoValuesToSet))
  /\
  (lacks body "message" -> lacks body "metadata" ->
   exists e,
     put_commentary_id db id body = Some (db, res_status_json 400 (failure (error_message e)))
     /\ ((exists v, destructure body "message" = Normal v) -> e = NoValuesToSet)).
Proof.
  split.
  - intros L1 L2 L3 L4. unfold put_matches_id.
    destruct (destructure_cases body) as [T | N].
    + rewrite T; simpl. eexists; split; [reflexivity | ].
      intros [v Hv]. discriminate.
    + destruct (N "status") as [v1 H1], (N "homeScore") as [v2 H2],
        (N "awayScore") as [v3 H3], (N "endTime") as [v4 H4].
      rewrite H1, H2, H3, H4.
      rewrite (lacks_Normal _ _ _ L1 H1), (lacks_Normal _ _ _ L2 H2),
        (lacks_Normal _ _ _ L3 H3), (lacks_Normal _ _ _ L4 H4); simpl.
      eexists; split; [reflexivity | intros _; reflexivity].
  - intros L1 L2. unfold put_commentary_id.
    destruct (destructure_cases body) as [T | N].
    + rewrite T; simpl. eexists; split; [reflexivity | ].
      intros [v Hv]. discriminate.
    + destruct (N "message") as [v1 H1], (N "metadata") as [v2 H2].
      rewrite H1, H2.
      rewrite (lacks_Normal _ _ _ L1 H1), (lacks_Normal _ _ _ L2 H2); simpl.
      eexists; split; [reflexivity | intros _; reflexivity].
Qed.

Lemma put_without_fields_rejected_witness :
  put_matches_id Sample.db2 "1" (JObj [("sport", JStr "rugby")])
  = Some (Sample.db2, res_status_json 400 (failure (error_message NoValuesToSet)))
  /\ put_commentary_id Sample.db2 "1" (JObj [])
     = Some (Sample.db2, res_status_json 400 (failure (error_message NoValuesToSet))).
Proof.
  split.
  - destruct (proj1 (put_without_fields_rejected Sample.db2 "1" (JObj [("sport", JStr "rugby")])))
      as [e [He Hn]].
    + reflexivity.
    + reflexivity.
    + reflexivity.
    + reflexivity.
    + rewrite He. rewrite Hn; [reflexivity | eexists; reflexivity].
  - destruct (proj2 (put_without_fields_rejected Sample.db2 "1" (JObj [])))
      as [e [He Hn]].
    + reflexivity.
    + reflexivity.
    + rewrite He. rewrite Hn; [reflexivity | eexists; reflexivity].
Defined.

(* ===================================================================== *)
(** ** DELETE                                                             *)
(* ===================================================================== *)

Lemma filter_none {A : Type} (p : A -> bool) (l : list A) :
  (forall a, In a l -> p a = false) -> filter p l = [].
Proof.
  induction l as [ | a l IH]; simpl; intros H; [reflexivity | ].
  rewrite (H a (or_introl eq_refl)). apply IH. intros; apply H; auto.
Qed.

Lemma filter_all {A : Type} (p : A -> bool) (l : list A) :
  (forall a, In a l -> p a = true) -> filter p l = l.
Proof.
  induction l as [ | a l IH]; simpl; intros H; [reflexivity | ].
  rewrite (H a (or_introl eq_refl)). f_equal. apply IH. intros; apply H; auto.
Qed.

(** Whether a commentary row references one of the rows with id [n]. *)
Lemma references_deleted (rows : list matchesTable.row) (n x : Z) :
  existsb (fun r => matchesTable.id r =? x) (filter (fun r => matchesTable.id r =? n) rows)
  = (x =? n) && existsb (fun r => matchesTable.id r =? n) rows.
Proof.
  induction rows as [ | r rest IH]; simpl; [rewrite andb_false_r; reflexivity | ].
  destruct (matchesTable.id r =? n) eqn:E; simpl; [ | exact IH].
  rewrite IH. apply Z.eqb_eq in E. rewrite E.
  destruct (x =? n) eqn:E'; simpl.
  - rewrite Z.eqb_sym, E'. reflexivity.
  - rewrite Z.eqb_sym, E'. reflexivity.
Qed.

Lemma existsb_id_In (rows : list matchesTable.row) (m : matchesTable.row) :
  In m rows -> existsb (fun r => matchesTable.id r =? matchesTable.id m) rows = true.
Proof.
  intros H. apply existsb_exists. exists m. split; [exact H | apply Z.eqb_refl].
Qed.

Lemma delete_matches_id_eq db id n :
  parseInt id = Some n -> Pg.int4_range n = true ->
  delete_matches_id db id
  = Some ({| matches := filter (fun r => negb (matchesTable.id r =? n)) (matches db);
             commentary :=
               filter (fun k => negb ((commentaryTable.matchId k =? n)
                                      && existsb (fun r => matchesTable.id r =? n) (matches db)))
                      (commentary db) |},
          res_json (success_message "Match deleted successfully")).
Proof.
  intros Hp Hr. unfold delete_matches_id, Drizzle.Matches.delete; simpl.
  rewrite Hp; simpl. rewrite Hr; simpl. do 3 f_equal.
  apply filter_ext. intros k. rewrite references_deleted. reflexivity.
Qed.

Lemma delete_commentary_id_eq db id n :
  parseInt id = Some n -> Pg.int4_range n = true ->
  delete_commentary_id db id
  = Some ({| matches := matches db;
             commentary := filter (fun k => negb (commentaryTable.id k =? n)) (commentary db) |},
          res_json (success_message "Commentary deleted successfully")).
Proof.
  intros Hp Hr. unfold delete_commentary_id, Drizzle.Commentary.delete; simpl.
  rewrite Hp; simpl. rewrite Hr; simpl. reflexivity.
Qed.

Lemma delete_matches_id_not_404 db id db' resp :
  delete_matches_id db id = Some (db', resp) -> statusCode resp <> 404.
Proof.
  unfold delete_matches_id, Drizzle.Matches.delete; simpl.
  destruct (parseInt id) as [n | ]; simpl; [destruct (Pg.int4_range n); simpl | ];
    intros H; inversion H; subst; simpl; discriminate.
Qed.

Lemma delete_commentary_id_not_404 db id db' resp :
  delete_commentary_id db id = Some (db', resp) -> statusCode resp <> 404.
Proof.
  unfold delete_commentary_id, Drizzle.Commentary.delete; simpl.
  destruct (parseInt id) as [n | ]; simpl; [destruct (Pg.int4_range n); simpl | ];
    intros H; inversion H; subst; simpl; discriminate.
Qed.

(** C9 as stated fails: an id that parses, but to a number beyond the
    32-bit [serial] column, is refused by the storage layer and the handlers
    answer 400. *)
Lemma delete_id_out_of_range :
  parseInt "2147483648" = Some 2147483648
  /\ delete_matches_id Sample.db2 "2147483648"
     = Some (Sample.db2, res_status_json 400 (failure (error_message DataException)))
  /\ delete_commentary_id Sample.db2 "2147483648"
     = Some (Sample.db2, res_status_json 400 (failure (error_message DataException))).
Proof. repeat split; reflexivity. Qed.

(* ===================================================================== *)
(** ** GET /matches/:matchId/commentary                                   *)
(* ===================================================================== *)

Lemma insert_desc_perm k rows :
  Permutation (k :: rows) (Drizzle.Commentary.insert_desc k rows).
Proof.
  induction rows as [ | k' rest IH]; simpl; [apply Permutation_refl | ].
  destruct (commentaryTable.createdAt k' <=? commentaryTable.createdAt k).
  - apply Permutation_refl.
  - eapply perm_trans; [apply perm_swap | apply perm_skip, IH].
Qed.

Lemma sort_desc_perm rows :
  Permutation rows (Drizzle.Commentary.sort_desc rows).
Proof.
  induction rows as [ | k rest IH]; simpl; [constructor | ].
  eapply perm_trans; [apply perm_skip, IH | apply insert_desc_perm].
Qed.

Lemma insert_desc_sorted k rows :
  newest_first rows -> newest_first (Drizzle.Commentary.insert_desc k rows).
Proof.
  unfold newest_first. intros S. induction S as [ | k' rest S IH F]; simpl.
  - repeat constructor.
  - destruct (commentaryTable.createdAt k' <=? commentaryTable.createdAt k) eqn:E.
    + apply Z.leb_le in E. constructor; [constructor; assumption | ].
      constructor; [lia | ].
      eapply Forall_impl; [ | exact F]. simpl; intros; lia.
    + apply Z.leb_gt in E. constructor; [exact IH | ].
      eapply Permutation_Forall; [apply insert_desc_perm | ].
      constructor; [lia | exact F].
Qed.

Lemma sort_desc_sorted rows : newest_first (Drizzle.Commentary.sort_desc rows).
Proof.
  induction rows as [ | k rest IH]; simpl; [constructor | apply insert_desc_sorted, IH].
Qed.

(** A row older than every row of the list goes to its end. *)
Lemma insert_desc_oldest k rows :
  Forall (fun k' => commentaryTable.createdAt k < commentaryTable.createdAt k') rows ->
  Drizzle.Commentary.insert_desc k rows = (rows ++ [k])%list.
Proof.
  induction 1 as [ | k' rest H _ IH]; simpl; [reflexivity | ].
  destruct (Z.leb_spec (commentaryTable.createdAt k') (commentaryTable.createdAt k)); [lia | ].
  rewrite IH. reflexivity.
Qed.

(** Rows stored in the order of their creation, at distinct times, are
    listed in the reverse order: created A, B, C, listed C, B, A. *)
Lemma sort_desc_rev rows :
  StronglySorted (fun a b => commentaryTable.createdAt a < commentaryTable.createdAt b) rows ->
  Drizzle.Commentary.sort_desc rows = rev rows.
Proof.
  induction 1 as [ | k rest _ IH F]; simpl; [reflexivity | ].
  rewrite IH. apply insert_desc_oldest.
  apply Forall_forall. intros k' Hin. apply in_rev in Hin.
  rewrite Forall_forall in F. apply F, Hin.
Qed.

Lemma get_commentary_eq db matchId n :
  parseInt matchId = Some n -> Pg.int4_range n = true ->
  get_matches_matchId_commentary db matchId
  = Some (db, res_json (success_data (commentary_rows
            (Drizzle.Commentary.sort_desc
               (filter (fun k => commentaryTable.matchId k =? n) (commentary db)))))).
Proof.
  intros Hp Hr. unfold get_matches_matchId_commentary, Drizzle.Commentary.await; simpl.
  rewrite Hp; simpl. rewrite Hr; simpl. reflexivity.
Qed.

(** Under the foreign key, no commentary references an id no match has. *)
Lemma no_commentary_without_match db n :
  Db_ok db -> (forall r, In r (matches db) -> matchesTable.id r <> n) ->
  filter (fun k => commentaryTable.matchId k =? n) (commentary db) = [].
Proof.
  intros Ok Hno. apply filter_none. intros k Hin.
  apply not_true_is_false. intros E. apply Z.eqb_eq in E.
  pose proof (commentary_fkey db Ok) as FK. rewrite Forall_forall in FK.
  specialize (FK k Hin). apply existsb_exists in FK as (r & Hr & Er).
  apply Z.eqb_eq in Er. apply (Hno r Hr). congruence.
Qed.

(** C6 as stated fails: a matchId that does not parse is sent as NaN, the
    storage layer refuses it and the response is 400, not a success. *)
Lemma get_commentary_unparseable :
  parseInt "abc" = None
  /\ get_matches_matchId_commentary Sample.db2 "abc"
     = Some (Sample.db2, res_status_json 400 (failure (error_message DataException))).
Proof. split; reflexivity. Qed.

(* ===================================================================== *)
(** ** DELETE /matches/:id cascades                                       *)
(* ===================================================================== *)

(** C4.  Deleting a stored match removes it and every commentary row that
    references it, and keeps every other row of both tables; listing the
    commentary of that id afterwards gives 200 with the empty list. *)
Theorem delete_match_cascades db m id :
  Db_ok db -> In m (matches db) -> parseInt id = Some (matchesTable.id m) ->
  exists db',
    delete_matches_id db id
    = Some (db', res_json (success_message "Match deleted successfully"))
    /\ matches db'
       = filter (fun r => negb (matchesTable.id r =? matchesTable.id m)) (matches db)
    /\ commentary db'
       = filter (fun k => negb (commentaryTable.matchId k =? matchesTable.id m)) (commentary db)
    /\ ~ In m (matches db')
    /\ get_matches_matchId_commentary db' id
       = Some (db', res_json (success_data (commentary_rows []))).
Proof.
  intros Ok Hin Hp.
  assert (Hr : Pg.int4_range (matchesTable.id m) = true).
  { pose proof (matches_int4 db Ok) as F. rewrite Forall_forall in F. apply F, Hin. }
  eexists. split; [apply (delete_matches_id_eq _ _ _ Hp Hr) | ]. simpl.
  rewrite (existsb_id_In _ _ Hin).
  split; [reflexivity | ]. split.
  { apply filter_ext. intros k. rewrite andb_true_r. reflexivity. }
  split.
  { intros H. apply filter_In in H as [_ H]. rewrite Z.eqb_refl in H. discriminate. }
  rewrite (get_commentary_eq _ _ _ Hp Hr). simpl.
  rewrite (filter_none (fun k => commentaryTable.matchId k =? matchesTable.id m));
    [reflexivity | ].
  intros k H. apply filter_In in H as [_ H].
  rewrite andb_true_r in H. apply negb_true_iff in H. exact H.
Qed.

Lemma delete_match_cascades_witness :
  exists db',
    delete_matches_id Sample.db2 "1"
    = Some (db', res_json (success_message "Match deleted successfully"))
    /\ commentary db' = [Sample.note 2 2 1767262001000 "b"]
    /\ get_matches_matchId_commentary db' "1"
       = Some (db', res_json (success_data (commentary_rows []))).
Proof.
  assert (Ok : Db_ok Sample.db2).
  { constructor; simpl.
    - repeat constructor.
    - repeat constructor; simpl; intuition discriminate.
    - repeat constructor; simpl; intuition discriminate.
    - repeat constructor. }
  destruct (delete_match_cascades Sample.db2 Sample.football_scheduled "1" Ok
              (or_introl eq_refl) eq_refl) as [db' [H [_ [Hc [_ Hg]]]]].
  exists db'. split; [exact H | ]. split; [rewrite Hc; reflexivity | exact Hg].
Defined.

(* ===================================================================== *)
(** ** PUT /matches/:id and PUT /commentary/:id                           *)
(* ===================================================================== *)

Lemma try_catch_inv db c db' resp :
  try_catch db c = Some (db', resp) ->
  c = Normal (db', resp)
  \/ exists e, db' = db /\ resp = res_status_json 400 (failure (error_message e)).
Proof.
  destruct c as [[d r] | e | ]; simpl; intros H; inversion H; subst.
  - left; reflexivity.
  - right; exists e; split; reflexivity.
Qed.

Lemma defined_id v : (if defined v then v else JUndefined) = v.
Proof. destruct v; reflexivity. Qed.

Lemma assigned_Normal {A : Type} (input : JsVal -> completion (option A)) v x :
  Drizzle.assigned input v = Normal x -> v = JUndefined -> x = None.
Proof.
  intros H E. subst v. simpl in H. inversion H. reflexivity.
Qed.

Lemma db_eta db : {| matches := matches db; commentary := commentary db |} = db.
Proof. destruct db; reflexivity. Qed.

Module MatchesFacts.
Import Drizzle Drizzle.Matches.

Lemma matches_bind_set_absent u s :
  bind_set u = Normal s ->
  (u_status u = JUndefined -> set_status s = None)
  /\ (u_homeScore u = JUndefined -> set_homeScore s = None)
  /\ (u_awayScore u = JUndefined -> set_awayScore s = None)
  /\ (u_endTime u = None -> set_endTime s = None).
Proof.
  unfold bind_set. intros H.
  apply bind_Normal in H as (t & Ht & H).
  apply bind_Normal in H as (st & Hst & H).
  apply bind_Normal in H as (hs & Hhs & H).
  apply bind_Normal in H as (aw & Haw & H).
  apply bind_Normal in H as (et & Het & H).
  inversion H; subst; simpl.
  repeat split; intros E.
  - eapply assigned_Normal; eauto.
  - eapply assigned_Normal; eauto.
  - eapply assigned_Normal; eauto.
  - rewrite E in Ht. inversion Ht; subst. inversion Het. reflexivity.
Qed.

Lemma matches_set_row_frame s r r' :
  set_row s r = Normal r' ->
  matchesTable.id r' = matchesTable.id r
  /\ matchesTable.sport r' = matchesTable.sport r
  /\ matchesTable.homeTeam r' = matchesTable.homeTeam r
  /\ matchesTable.awayTeam r' = matchesTable.awayTeam r
  /\ matchesTable.startTime r' = matchesTable.startTime r
  /\ matchesTable.createdAt r' = matchesTable.createdAt r
  /\ (set_status s = None -> matchesTable.status r' = matchesTable.status r)
  /\ (set_homeScore s = None -> matchesTable.homeScore r' = matchesTable.homeScore r)
  /\ (set_awayScore s = None -> matchesTable.awayScore r' = matchesTable.awayScore r)
  /\ (set_endTime s = None -> matchesTable.endTime r' = matchesTable.endTime r).
Proof.
  unfold set_row. intros H.
  apply bind_Normal in H as (st & Hst & H).
  apply bind_Normal in H as (hs & Hhs & H).
  apply bind_Normal in H as (aw & Haw & H).
  inversion H; subst; simpl.
  repeat split; intros E; rewrite E in *; simpl in *; congruence.
Qed.

(** What a PUT /matches/:id that got a result did: either the [catch]
    block answered, or one update ran over the rows with the parsed id. *)
Lemma put_matches_id_inv db id body db' resp :
  put_matches_id db id body = Some (db', resp) ->
  (exists e, db' = db /\ resp = res_status_json 400 (failure (error_message e)))
  \/ exists s n out,
       (lacks body "status" -> set_status s = None)
       /\ (lacks body "homeScore" -> set_homeScore s = None)
       /\ (lacks body "awayScore" -> set_awayScore s = None)
       /\ (lacks body "endTime" -> set_endTime s = None)
       /\ parseInt id = Some n /\ Pg.int4_range n = true
       /\ update_rows (fun r => matchesTable.id r =? n) (set_row s) (matches db) = Normal out
       /\ db' = {| matches := fst out; commentary := commentary db |}
       /\ resp = match snd out with
                 | [] => res_status_json 404 (failure (text "Match not found"))
                 | updatedMatch :: _ => res_json (success_data (match_row updatedMatch))
                 end.
Proof.
  intros H. apply try_catch_inv in H as [H | H]; [right | left; exact H].
  destruct (destructure_cases body) as [T | N]; [rewrite T in H; discriminate | ].
  destruct (N "status") as [v1 H1], (N "homeScore") as [v2 H2],
    (N "awayScore") as [v3 H3], (N "endTime") as [v4 H4].
  rewrite H1, H2, H3, H4 in H. simpl in H. rewrite !defined_id in H.
  apply bind_Normal in H as (date & Hd & H).
  apply bind_Normal in H as (out & Hu & H).
  unfold update_returning in Hu.
  destruct (no_values _); [discriminate | ].
  apply bind_Normal in Hu as (s & Hs & Hu).
  apply bind_Normal in Hu as (p & Hp & Hu).
  apply bind_Normal in Hu as (o & Ho & Hu).
  inversion Hu; subst out; clear Hu. simpl in H.
  simpl in Hp. apply bind_Normal in Hp as (n & Hn & Hp). inversion Hp; subst p; clear Hp.
  unfold Pg.int4_param in Hn.
  destruct (parseInt id) as [z | ]; [ | discriminate].
  destruct (Pg.int4_range z) eqn:Hr; [ | discriminate].
  inversion Hn; subst z; clear Hn.
  apply matches_bind_set_absent in Hs as (A1 & A2 & A3 & A4); simpl in A1, A2, A3, A4.
  exists s, n, o. repeat split; try assumption.
  - intros L. apply A1, (lacks_Normal _ _ _ L H1).
  - intros L. apply A2, (lacks_Normal _ _ _ L H2).
  - intros L. apply A3, (lacks_Normal _ _ _ L H3).
  - intros L. apply A4. rewrite (lacks_Normal _ _ _ L H4) in Hd. simpl in Hd. inversion Hd; reflexivity.
  - destruct (snd o); inversion H; reflexivity.
  - destruct (snd o); inversion H; reflexivity.
Qed.

End MatchesFacts.

Module CommentaryFacts.
Import Drizzle Drizzle.Commentary.

Lemma commentary_bind_set_absent u s :
  bind_set u = Normal s ->
  (u_message u = JUndefined -> set_message s = None)
  /\ (u_metadata u = JUndefined -> set_metadata s = None).
Proof.
  unfold bind_set. intros H.
  apply bind_Normal in H as (m & Hm & H).
  apply bind_Normal in H as (md & Hmd & H).
  inversion H; subst; simpl.
  split; intros E; eapply assigned_Normal; eauto.
Qed.

Lemma commentary_set_row_frame s k k' :
  set_row s k = Normal k' ->
  commentaryTable.id k' = commentaryTable.id k
  /\ commentaryTable.matchId k' = commentaryTable.matchId k
  /\ commentaryTable.minute k' = commentaryTable.minute k
  /\ commentaryTable.sequence k' = commentaryTable.sequence k
  /\ commentaryTable.period k' = commentaryTable.period k
  /\ commentaryTable.eventType k' = commentaryTable.eventType k
  /\ commentaryTable.actor k' = commentaryTable.actor k
  /\ commentaryTable.team k' = commentaryTable.team k
  /\ commentaryTable.tags k' = commentaryTable.tags k
  /\ commentaryTable.createdAt k' = commentaryTable.createdAt k
  /\ (set_message s = None -> commentaryTable.message k' = commentaryTable.message k)
  /\ (set_metadata s = None -> commentaryTable.metadata k' = commentaryTable.metadata k).
Proof.
  unfold set_row. intros H.
  apply bind_Normal in H as (m & Hm & H).
  inversion H; subst; simpl.
  repeat split; intros E; rewrite E in *; simpl in *; congruence.
Qed.

Lemma put_commentary_id_inv db id body db' resp :
  put_commentary_id db id body = Some (db', resp) ->
  (exists e, db' = db /\ resp = res_status_json 400 (failure (error_message e)))
  \/ exists s n out,
       (lacks body "message" -> set_message s = None)
       /\ (lacks body "metadata" -> set_metadata s = None)
       /\ parseInt id = Some n /\ Pg.int4_range n = true
       /\ update_rows (fun k => commentaryTable.id k =? n) (set_row s) (commentary db) = Normal out
       /\ db' = {| matches := matches db; commentary := fst out |}
       /\ resp = match snd out with
                 | [] => res_status_json 404 (failure (text "Commentary not found"))
                 | updated :: _ => res_json (success_data (commentary_row updated))
                 end.
Proof.
  intros H. apply try_catch_inv in H as [H | H]; [right | left; exact H].
  destruct (destructure_cases body) as [T | N]; [rewrite T in H; discriminate | ].
  destruct (N "message") as [v1 H1], (N "metadata") as [v2 H2].
  rewrite H1, H2 in H. simpl in H. rewrite !defined_id in H.
  apply bind_Normal in H as (out & Hu & H).
  unfold update_returning in Hu.
  destruct (no_values _); [discriminate | ].
  apply bind_Normal in Hu as (s & Hs & Hu).
  apply bind_Normal in Hu as (p & Hp & Hu).
  apply bind_Normal in Hu as (o & Ho & Hu).
  inversion Hu; subst out; clear Hu. simpl in H.
  simpl in Hp. apply bind_Normal in Hp as (n & Hn & Hp). inversion Hp; subst p; clear Hp.
  unfold Pg.int4_param in Hn.
  destruct (parseInt id) as [z | ]; [ | discriminate].
  destruct (Pg.int4_range z) eqn:Hr; [ | discriminate].
  inversion Hn; subst z; clear Hn.
  apply commentary_bind_set_absent in Hs as (A1 & A2); simpl in A1, A2.
  exists s, n, o. repeat split; try assumption.
  - intros L. apply A1, (lacks_Normal _ _ _ L H1).
  - intros L. apply A2, (lacks_Normal _ _ _ L H2).
  - destruct (snd o); inversion H; reflexivity.
  - destruct (snd o); inversion H; reflexivity.
Qed.

End CommentaryFacts.

Section UpdateRowsMore.
Context {R : Type} (p : R -> bool) (f : R -> completion R).

Lemma update_rows_returning_incl rows out :
  Drizzle.update_rows p f rows = Normal out -> incl (snd out) (fst out).
Proof.
  revert out. induction rows as [ | r rest IH]; simpl; intros out H.
  - inversion H; subst; simpl. apply incl_refl.
  - destruct (p r).
    + apply bind_Normal in H as (r' & Hf & H).
      apply bind_Normal in H as (o & Ho & H).
      inversion H; subst; simpl. apply incl_cons; [left; reflexivity | ].
      apply incl_tl, IH, Ho.
    + apply bind_Normal in H as (o & Ho & H).
      inversion H; subst; simpl. apply incl_tl, IH, Ho.
Qed.

Lemma update_rows_pure (g : R -> R) rows :
  (forall r, f r = Normal (g r)) ->
  Drizzle.update_rows p f rows
  = Normal (map (fun r => if p r then g r else r) rows, map g (filter p rows)).
Proof.
  intros Hg. induction rows as [ | r rest IH]; simpl; [reflexivity | ].
  rewrite IH. destruct (p r); [rewrite Hg | ]; reflexivity.
Qed.

(** No row is returned exactly when no row satisfies the condition. *)
Lemma update_rows_none_iff rows out :
  Drizzle.update_rows p f rows = Normal out ->
  (snd out = [] <-> forall r, In r rows -> p r = false).
Proof.
  intros H. pose proof (update_rows_returning p f _ _ H) as HR. split.
  - intros E r Hin. rewrite E in HR. inversion HR as [Hnil | ].
    apply not_true_is_false. intros Hp.
    assert (Hf : In r (filter p rows)) by (apply filter_In; auto).
    rewrite <- Hnil in Hf. exact Hf.
  - intros Hno. rewrite (filter_none _ _ Hno) in HR. inversion HR. reflexivity.
Qed.

(** The first row returned is the update of a row that satisfies the
    condition. *)
Lemma update_rows_first rows out r' rest :
  Drizzle.update_rows p f rows = Normal out -> snd out = r' :: rest ->
  exists r, In r rows /\ p r = true /\ f r = Normal r'.
Proof.
  intros H E. pose proof (update_rows_returning p f _ _ H) as HR.
  rewrite E in HR. inversion HR as [ | r l ? ? Hf _ Hl]; subst.
  assert (Hin : In r (filter p rows)) by (rewrite <- Hl; left; reflexivity).
  apply filter_In in Hin as [Hin Hp]. exists r. auto.
Qed.
End UpdateRowsMore.

(** Under the primary key one row has a given id. *)
Lemma filter_pkey (rows : list matchesTable.row) (m : matchesTable.row) :
  NoDup (map matchesTable.id rows) -> In m rows ->
  filter (fun r => matchesTable.id r =? matchesTable.id m) rows = [m].
Proof.
  induction rows as [ | a rest IH]; simpl; intros ND Hin; [contradiction | ].
  inversion ND as [ | ? ? Hnotin ND']; subst.
  destruct Hin as [E | Hin].
  - subst a. rewrite Z.eqb_refl. f_equal. apply filter_none.
    intros r Hr. apply Z.eqb_neq. intros E. apply Hnotin. rewrite <- E.
    apply in_map, Hr.
  - destruct (Z.eqb_spec (matchesTable.id a) (matchesTable.id m)) as [E | _].
    + exfalso. apply Hnotin. rewrite E. apply in_map, Hin.
    + apply IH; assumption.
Qed.

Lemma get_matches_id_eq db id n :
  parseInt id = Some n -> Pg.int4_range n = true ->
  get_matches_id db id
  = Some (db, match filter (fun r => matchesTable.id r =? n) (matches db) with
              | [] => res_status_json 404 (failure (text "Match not found"))
              | first :: _ => res_json (success_data (match_row first))
              end).
Proof.
  intros Hp Hr. unfold get_matches_id, Drizzle.Matches.await; simpl.
  rewrite Hp; simpl. rewrite Hr; simpl.
  destruct (filter _ (matches db)); reflexivity.
Qed.

Lemma get_matches_id_found db id n :
  parseInt id = Some n -> Pg.int4_range n = true ->
  exists resp,
    get_matches_id db id = Some (db, resp)
    /\ (resp = res_status_json 404 (failure (text "Match not found"))
        <-> forall r, In r (matches db) -> matchesTable.id r <> n)
    /\ ((exists r, In r (matches db) /\ matchesTable.id r = n) ->
        exists r', In r' (matches db) /\ matchesTable.id r' = n
                   /\ resp = res_json (success_data (match_row r'))).
Proof.
  intros Hp Hr. eexists. split; [apply (get_matches_id_eq _ _ _ Hp Hr) | ].
  destruct (filter (fun r => matchesTable.id r =? n) (matches db)) as [ | first rest] eqn:F.
  - assert (Hno : forall r, In r (matches db) -> matchesTable.id r <> n).
    { intros r Hin E.
      assert (Hf : In r (filter (fun r => matchesTable.id r =? n) (matches db)))
        by (apply filter_In; split; [exact Hin | apply Z.eqb_eq, E]).
      rewrite F in Hf. exact Hf. }
    split; [split; [intros _; exact Hno | reflexivity] | ].
    intros (r & Hin & E). exfalso. exact (Hno r Hin E).
  - assert (Hf : In first (filter (fun r => matchesTable.id r =? n) (matches db)))
      by (rewrite F; left; reflexivity).
    apply filter_In in Hf as [Hin E]. apply Z.eqb_eq in E.
    split; [split | ].
    + intros H; discriminate H.
    + intros Hno. exfalso. exact (Hno first Hin E).
    + intros _. exists first. auto.
Qed.

Lemma put_matches_id_found db id body db' resp :
  put_matches_id db id body = Some (db', resp) -> statusCode resp <> 400 ->
  exists n,
    parseInt id = Some n
    /\ (resp = res_status_json 404 (failure (text "Match not found"))
        <-> forall r, In r (matches db) -> matchesTable.id r <> n)
    /\ (resp = res_status_json 404 (failure (text "Match not found")) -> db' = db)
    /\ ((exists r, In r (matches db) /\ matchesTable.id r = n) ->
        exists r', In r' (matches db') /\ matchesTable.id r' = n
                   /\ resp = res_json (success_data (match_row r'))).
Proof.
  intros H Hcode. apply MatchesFacts.put_matches_id_inv in H as [(e & _ & E) | H].
  { subst resp. exfalso. apply Hcode. reflexivity. }
  destruct H as (s & n & out & _ & _ & _ & _ & Hp & _ & Hu & Hdb & Hresp).
  exists n. split; [exact Hp | ].
  pose proof (update_rows_none_iff _ _ _ _ Hu) as Hnone.
  destruct (snd out) as [ | r' rest] eqn:E.
  - assert (Hno : forall r, In r (matches db) -> matchesTable.id r <> n).
    { intros r Hin. apply Z.eqb_neq. apply (proj1 Hnone eq_refl r Hin). }
    split; [split; [intros _; exact Hno | intros _; exact Hresp] | ].
    split.
    + intros _. subst db'.
      destruct (update_rows_empty_returning _ _ _ _ Hu E) as [Hfst _].
      rewrite Hfst. apply db_eta.
    + intros (r & Hin & Er). exfalso. exact (Hno r Hin Er).
  - destruct (update_rows_first _ _ _ _ _ _ Hu E) as (r & Hin & Hpr & Hf).
    apply Z.eqb_eq in Hpr.
    split; [split | ].
    + intros H404. rewrite Hresp in H404. discriminate H404.
    + intros Hno. exfalso. exact (Hno r Hin Hpr).
    + split; [intros H404; rewrite Hresp in H404; discriminate H404 | ].
      intros _. exists r'. split; [ | split].
      * subst db'; simpl. apply (update_rows_returning_incl _ _ _ _ Hu).
        rewrite E. left; reflexivity.
      * apply MatchesFacts.matches_set_row_frame in Hf as (Hid & _). congruence.
      * exact Hresp.
Qed.

Lemma put_commentary_id_found db id body db' resp :
  put_commentary_id db id body = Some (db', resp) -> statusCode resp <> 400 ->
  exists n,
    parseInt id = Some n
    /\ (resp = res_status_json 404 (failure (text "Commentary not found"))
        <-> forall k, In k (commentary db) -> commentaryTable.id k <> n)
    /\ (resp = res_status_json 404 (failure (text "Commentary not found")) -> db' = db)
    /\ ((exists k, In k (commentary db) /\ commentaryTable.id k = n) ->
        exists k', In k' (commentary db') /\ commentaryTable.id k' = n
                   /\ resp = res_json (success_data (commentary_row k'))).
Proof.
  intros H Hcode. apply CommentaryFacts.put_commentary_id_inv in H as [(e & _ & E) | H].
  { subst resp. exfalso. apply Hcode. reflexivity. }
  destruct H as (s & n & out & _ & _ & Hp & _ & Hu & Hdb & Hresp).
  exists n. split; [exact Hp | ].
  pose proof (update_rows_none_iff _ _ _ _ Hu) as Hnone.
  destruct (snd out) as [ | k' rest] eqn:E.
  - assert (Hno : forall k, In k (commentary db) -> commentaryTable.id k <> n).
    { intros k Hin. apply Z.eqb_neq. apply (proj1 Hnone eq_refl k Hin). }
    split; [split; [intros _; exact Hno | intros _; exact Hresp] | ].
    split.
    + intros _. subst db'.
      destruct (update_rows_empty_returning _ _ _ _ Hu E) as [Hfst _].
      rewrite Hfst. apply db_eta.
    + intros (k & Hin & Ek). exfalso. exact (Hno k Hin Ek).
  - destruct (update_rows_first _ _ _ _ _ _ Hu E) as (k & Hin & Hpk & Hf).
    apply Z.eqb_eq in Hpk.
    split; [split | ].
    + intros H404. rewrite Hresp in H404. discriminate H404.
    + intros Hno. exfalso. exact (Hno k Hin Hpk).
    + split; [intros H404; rewrite Hresp in H404; discriminate H404 | ].
      intros _. exists k'. split; [ | split].
      * subst db'; simpl. apply (update_rows_returning_incl _ _ _ _ Hu).
        rewrite E. left; reflexivity.
      * apply CommentaryFacts.commentary_set_row_frame in Hf as (Hid & _). congruence.
      * exact Hresp.
Qed.

(** C7 as stated fails for the two PUT handlers: with a body that has none
    of the updatable fields the answer is 400, whether a row has the id
    (match 1, no updated row comes back) or none has (match 9, no 404). *)
Lemma put_empty_body_is_400 :
  In Sample.football_scheduled (matches Sample.db2)
  /\ parseInt "1" = Some (matchesTable.id Sample.football_scheduled)
  /\ put_matches_id Sample.db2 "1" (JObj [])
     = Some (Sample.db2, res_status_json 400 (failure (error_message NoValuesToSet)))
  /\ parseInt "9" = Some 9
  /\ (forall r, In r (matches Sample.db2) -> matchesTable.id r <> 9)
  /\ put_matches_id Sample.db2 "9" (JObj [])
     = Some (Sample.db2, res_status_json 400 (failure (error_message NoValuesToSet))).
Proof.
  repeat split; try reflexivity.
  - left; reflexivity.
  - simpl. intros r [E | [E | []]]; subst r; discriminate.
Qed.

Lemma only_supplied_changed_refl id body r : only_supplied_changed id body r r.
Proof. unfold only_supplied_changed. repeat split; reflexivity. Qed.

Lemma Forall2_same {A : Type} (P : A -> A -> Prop) (l : list A) :
  (forall a, P a a) -> Forall2 P l l.
Proof. intros H. induction l; constructor; auto. Qed.

Lemma put_matches_id_frame db id body db' resp :
  put_matches_id db id body = Some (db', resp) ->
  commentary db' = commentary db
  /\ Forall2 (only_supplied_changed id body) (matches db) (matches db').
Proof.
  intros H. apply MatchesFacts.put_matches_id_inv in H as [(e & E & _) | H].
  { subst db'. split; [reflexivity | ].
    apply Forall2_same. intros r. apply only_supplied_changed_refl. }
  destruct H as (s & n & out & A1 & A2 & A3 & A4 & Hp & _ & Hu & Hdb & _).
  subst db'; simpl. split; [reflexivity | ].
  apply update_rows_table in Hu.
  eapply Forall2_impl; [ | exact Hu]. simpl. intros r r' Hr.
  destruct (Z.eqb_spec (matchesTable.id r) n) as [E | NE].
  - apply MatchesFacts.matches_set_row_frame in Hr
      as (F1 & F2 & F3 & F4 & F5 & F6 & F7 & F8 & F9 & F10).
    unfold only_supplied_changed. repeat split; auto.
    intros Hne. exfalso. apply Hne. rewrite Hp, E. reflexivity.
  - subst r'. apply only_supplied_changed_refl.
Qed.

Lemma put_matches_id_status_only db id body m s e :
  Db_ok db -> In m (matches db) -> parseInt id = Some (matchesTable.id m) ->
  destructure body "status" = Normal (JStr s) -> enumValues s = Some e ->
  lacks body "homeScore" -> lacks body "awayScore" -> lacks body "endTime" ->
  put_matches_id db id body
  = Some ({| matches := map (fun r => if matchesTable.id r =? matchesTable.id m
                                      then with_status e r else r) (matches db);
             commentary := commentary db |},
          res_json (success_data (match_row (with_status e m)))).
Proof.
  intros Ok Hin Hp Hs He L2 L3 L4.
  assert (Hr : Pg.int4_range (matchesTable.id m) = true).
  { pose proof (matches_int4 db Ok) as F. rewrite Forall_forall in F. apply F, Hin. }
  destruct (destructure_cases body) as [T | N]; [rewrite T in Hs; discriminate | ].
  destruct (N "homeScore") as [v2 H2], (N "awayScore") as [v3 H3], (N "endTime") as [v4 H4].
  pose proof (lacks_Normal _ _ _ L2 H2); pose proof (lacks_Normal _ _ _ L3 H3);
  pose proof (lacks_Normal _ _ _ L4 H4); subst v2 v3 v4.
  unfold put_matches_id. rewrite Hs, H2, H3, H4. simpl.
  unfold Drizzle.Matches.update_returning, Drizzle.Matches.bind_set; simpl.
  unfold Drizzle.assigned, Pg.enum_in; simpl.
  rewrite He; simpl. rewrite Hp; simpl. rewrite Hr; simpl.
  rewrite (update_rows_pure _ _ (with_status e)); [ | intros r; reflexivity].
  simpl. rewrite (filter_pkey _ _ (matches_pkey db Ok) Hin). reflexivity.
Qed.

(** C5.  A PUT /matches/:id that gets a result leaves the commentary as it
    is and, row by row, leaves in place every field except those of status,
    homeScore, awayScore, endTime that the body supplies, and every row with
    another id; in particular, a body that has only a valid [status] turns
    the stored match into the same row with that status, and returns it. *)
Theorem put_matches_changes_only_supplied db id body :
  (forall db' resp,
     put_matches_id db id body = Some (db', resp) ->
     commentary db' = commentary db
     /\ Forall2 (only_supplied_changed id body) (matches db) (matches db'))
  /\ (forall m s e,
        Db_ok db -> In m (matches db) -> parseInt id = Some (matchesTable.id m) ->
        destructure body "status" = Normal (JStr s) -> enumValues s = Some e ->
        lacks body "homeScore" -> lacks body "awayScore" -> lacks body "endTime" ->
        put_matches_id db id body
        = Some ({| matches := map (fun r => if matchesTable.id r =? matchesTable.id m
                                            then with_status e r else r) (matches db);
                   commentary := commentary db |},
                res_json (success_data (match_row (with_status e m))))).
Proof.
  split.
  - intros db' resp. apply put_matches_id_frame.
  - intros m s e. apply put_matches_id_status_only.
Qed.

Lemma sample_db2_ok : Db_ok Sample.db2.
Proof.
  constructor; simpl.
  - repeat constructor.
  - repeat constructor; simpl; intuition discriminate.
  - repeat constructor; simpl; intuition discriminate.
  - repeat constructor.
Qed.

Lemma put_matches_changes_only_supplied_witness :
  put_matches_id Sample.db2 "1" (JObj [("status", JStr "live")])
  = Some ({| matches := [with_status live Sample.football_scheduled; Sample.tennis_live];
             commentary := commentary Sample.db2 |},
          res_json (success_data (match_row (with_status live Sample.football_scheduled))))
  /\ Forall2 (only_supplied_changed "1" (JObj [("status", JStr "live")]))
             (matches Sample.db2)
             [with_status live Sample.football_scheduled; Sample.tennis_live].
Proof.
  destruct (put_matches_changes_only_supplied Sample.db2 "1" (JObj [("status", JStr "live")]))
    as [F S].
  pose proof (S Sample.football_scheduled "live" live sample_db2_ok (or_introl eq_refl)
                eq_refl eq_refl eq_refl eq_refl eq_refl eq_refl) as E.
  split; [exact E | exact (proj2 (F _ _ E))].
Defined.

(* ===================================================================== *)
(** ** POST /matches: creation                                            *)
(* ===================================================================== *)

Lemma existsb_eqb_notin (ids : list Z) (x : Z) :
  ~ In x ids -> existsb (Z.eqb x) ids = false.
Proof.
  intros H. apply not_true_is_false. intros E.
  apply existsb_exists in E as (y & Hin & Hy). apply Z.eqb_eq in Hy. subst y. exact (H Hin).
Qed.

Lemma serial_pk_fresh (ids : list Z) (x : Z) :
  Pg.int4_range x = true -> ~ In x ids -> Pg.serial_pk ids x = Normal x.
Proof.
  intros Hr Hn. unfold Pg.serial_pk. rewrite Hr, (existsb_eqb_notin _ _ Hn). reflexivity.
Qed.

(** C2 as stated fails: with the four fields present, a sport of 51
    characters does not fit [varchar(50)], the insert throws and the answer
    is 400; no row is created. *)
Lemma post_matches_long_sport_rejected :
  present Sample.long_sport_body "sport" /\ present Sample.long_sport_body "homeTeam"
  /\ present Sample.long_sport_body "awayTeam" /\ present Sample.long_sport_body "startTime"
  /\ post_matches Sample.env3 Sample.db2 Sample.long_sport_body
     = Some (Sample.db2, res_status_json 400 (failure (error_message DataException))).
Proof. repeat split; reflexivity. Qed.

(* ===================================================================== *)
(** ** POST /matches/:matchId/commentary                                  *)
(* ===================================================================== *)

(** C3 as stated fails: with the five fields present and truthy, a matchId
    that no stored match has violates the foreign key; the answer is 400 and
    nothing is inserted. *)
Lemma post_commentary_unknown_match_rejected :
  present Sample.new_commentary_body "sequence" /\ present Sample.new_commentary_body "eventType"
  /\ present Sample.new_commentary_body "actor" /\ present Sample.new_commentary_body "team"
  /\ present Sample.new_commentary_body "message"
  /\ post_matches_matchId_commentary {| now := 1767263000000; nextval := 4 |} Sample.db2 "7"
       Sample.new_commentary_body
     = Some (Sample.db2,
             res_status_json 400 (failure (error_message IntegrityConstraintViolation))).
Proof. repeat split; reflexivity. Qed.

(** A sequence number of 0 is taken for a missing field. *)
Lemma post_commentary_sequence_zero :
  post_matches_matchId_commentary {| now := 1767263000000; nextval := 4 |} Sample.db2 "2"
    (JObj [("sequence", JNum 0); ("eventType", JStr "kickoff"); ("actor", JStr "P");
           ("team", JStr "A"); ("message", JStr "we are off")])
  = Some (Sample.db2, res_status_json 400 (failure (text
            "Missing required fields: sequence, eventType, actor, team, message"))).
Proof. reflexivity. Qed.

(* ===================================================================== *)
(** ** The schema's constraints hold in every reachable state             *)
(* ===================================================================== *)

Lemma existsb_id_map (rows : list matchesTable.row) (x : Z) :
  existsb (fun r => matchesTable.id r =? x) rows
  = existsb (fun i => i =? x) (map matchesTable.id rows).
Proof.
  induction rows as [ | r rest IH]; simpl; [reflexivity | rewrite IH; reflexivity].
Qed.

(** An update that keeps the keys of both tables keeps the constraints. *)
Lemma Db_ok_same_keys db db' :
  map matchesTable.id (matches db') = map matchesTable.id (matches db) ->
  map commentaryTable.id (commentary db') = map commentaryTable.id (commentary db) ->
  map commentaryTable.matchId (commentary db') = map commentaryTable.matchId (commentary db) ->
  Db_ok db -> Db_ok db'.
Proof.
  intros Em Ec Ef [I P1 P2 F]. constructor.
  - apply (Forall_map matchesTable.id (fun i => Pg.int4_range i = true)).
    rewrite Em. apply Forall_map. exact I.
  - rewrite Em. exact P1.
  - rewrite Ec. exact P2.
  - apply (Forall_map commentaryTable.matchId
             (fun x => existsb (fun r => matchesTable.id r =? x) (matches db') = true)).
    rewrite Ef. apply Forall_map.
    eapply Forall_impl; [ | exact F]. simpl. intros k Hk.
    rewrite existsb_id_map, Em, <- existsb_id_map. exact Hk.
Qed.

(** A primary key stays one when rows are deleted. *)
Lemma pkey_filter {Row : Type} (key : Row -> Z) (keep : Row -> bool) (rows : list Row) :
  NoDup (map key rows) -> NoDup (map key (filter keep rows)).
Proof.
  intros ND. induction rows as [ | r rest IH]; simpl in *; [constructor | ].
  inversion ND as [ | ? ? Hfresh ND']; subst.
  destruct (keep r); simpl; [ | apply IH, ND'].
  constructor; [ | apply IH, ND'].
  intros Hin. apply Hfresh. apply in_map_iff in Hin as (x & Ex & Hx).
  apply filter_In in Hx as [Hx _]. apply in_map_iff. exists x. auto.
Qed.

Lemma Forall_filter_keep {A : Type} (P : A -> Prop) (p : A -> bool) (l : list A) :
  Forall P l -> Forall P (filter p l).
Proof.
  rewrite !Forall_forall. intros H a Ha. apply filter_In in Ha as [Ha _]. apply H, Ha.
Qed.

Lemma serial_pk_inv (ids : list Z) (next id : Z) :
  Pg.serial_pk ids next = Normal id ->
  id = next /\ Pg.int4_range id = true /\ ~ In id ids.
Proof.
  unfold Pg.serial_pk. destruct (Pg.int4_range next) eqn:Hr; [ | discriminate].
  destruct (existsb (Z.eqb next) ids) eqn:He; [discriminate | ].
  intros H. inversion H; subst. repeat split; [exact Hr | ].
  intros Hin. apply not_true_iff_false in He. apply He.
  apply existsb_exists. exists id. split; [exact Hin | apply Z.eqb_refl].
Qed.

Lemma NoDup_snoc {A : Type} (l : list A) (a : A) :
  NoDup l -> ~ In a l -> NoDup (l ++ [a]).
Proof.
  intros H Hn. induction H as [ | x l Hx H IH]; simpl.
  - constructor; [intros [] | constructor].
  - constructor.
    + intros Hin. apply in_app_or in Hin as [Hin | [E | []]]; [exact (Hx Hin) | ].
      subst. apply Hn. left; reflexivity.
    + apply IH. intros Hin. apply Hn. right; exact Hin.
Qed.

Lemma matches_insert_inv env db v out :
  Drizzle.Matches.insert_returning env db v = Normal out ->
  exists r,
    out = ({| matches := matches db ++ [r]; commentary := commentary db |}, [r])
    /\ Pg.int4_range (matchesTable.id r) = true
    /\ ~ In (matchesTable.id r) (map matchesTable.id (matches db)).
Proof.
  unfold Drizzle.Matches.insert_returning. intros H.
  repeat (apply bind_Normal in H as (? & ? & H)).
  match goal with Hs : Pg.serial_pk _ _ = Normal _ |- _ =>
    apply serial_pk_inv in Hs as (_ & Hr & Hn) end.
  inversion H; subst. eexists. split; [reflexivity | ]. simpl. split; assumption.
Qed.

Lemma commentary_insert_inv env db v out :
  Drizzle.Commentary.insert_returning env db v = Normal out ->
  exists k,
    out = ({| matches := matches db; commentary := commentary db ++ [k] |}, [k])
    /\ ~ In (commentaryTable.id k) (map commentaryTable.id (commentary db))
    /\ existsb (fun r => matchesTable.id r =? commentaryTable.matchId k) (matches db) = true.
Proof.
  unfold Drizzle.Commentary.insert_returning. intros H.
  repeat (apply bind_Normal in H as (? & ? & H)).
  match goal with Hs : Pg.serial_pk _ _ = Normal _ |- _ =>
    apply serial_pk_inv in Hs as (_ & Hr & Hn) end.
  match type of H with (if ?c then _ else _) = _ => destruct c eqn:Hfk end;
    [ | discriminate].
  inversion H; subst. eexists. split; [reflexivity | ]. simpl. split; assumption.
Qed.

Lemma Db_ok_insert_match db r :
  Db_ok db -> Pg.int4_range (matchesTable.id r) = true ->
  ~ In (matchesTable.id r) (map matchesTable.id (matches db)) ->
  Db_ok {| matches := matches db ++ [r]; commentary := commentary db |}.
Proof.
  intros [I P1 P2 F] Hr Hn. constructor; simpl.
  - apply Forall_app. split; [exact I | constructor; [exact Hr | constructor]].
  - rewrite map_app. simpl. apply NoDup_snoc; assumption.
  - exact P2.
  - eapply Forall_impl; [ | exact F]. simpl. intros k Hk.
    rewrite existsb_app, Hk. reflexivity.
Qed.

Lemma Db_ok_insert_commentary db k :
  Db_ok db ->
  ~ In (commentaryTable.id k) (map commentaryTable.id (commentary db)) ->
  existsb (fun r => matchesTable.id r =? commentaryTable.matchId k) (matches db) = true ->
  Db_ok {| matches := matches db; commentary := commentary db ++ [k] |}.
Proof.
  intros [I P1 P2 F] Hn Hfk. constructor; simpl.
  - exact I.
  - exact P1.
  - rewrite map_app. simpl. apply NoDup_snoc; assumption.
  - apply Forall_app. split; [exact F | constructor; [exact Hfk | constructor]].
Qed.

Lemma Db_ok_delete_match db n :
  Db_ok db ->
  Db_ok {| matches := filter (fun r => negb (matchesTable.id r =? n)) (matches db);
           commentary :=
             filter (fun k => negb ((commentaryTable.matchId k =? n)
                                    && existsb (fun r => matchesTable.id r =? n) (matches db)))
                    (commentary db) |}.
Proof.
  intros [I P1 P2 F]. constructor; simpl.
  - apply Forall_filter_keep, I.
  - apply pkey_filter, P1.
  - apply pkey_filter, P2.
  - rewrite Forall_forall in *. intros k Hk. apply filter_In in Hk as [Hk Hkeep].
    specialize (F k Hk). apply existsb_exists in F as (r & Hr & E).
    apply existsb_exists. exists r. split; [ | exact E].
    apply filter_In. split; [exact Hr | ].
    apply negb_true_iff, Z.eqb_neq. intros En.
    apply Z.eqb_eq in E. apply negb_true_iff, andb_false_iff in Hkeep as [Hk1 | Hk2].
    + apply Z.eqb_neq in Hk1. apply Hk1. congruence.
    + apply not_true_iff_false in Hk2. apply Hk2.
      apply existsb_exists. exists r. split; [exact Hr | apply Z.eqb_eq, En].
Qed.

Lemma Db_ok_delete_commentary db n :
  Db_ok db ->
  Db_ok {| matches := matches db;
           commentary := filter (fun k => negb (commentaryTable.id k =? n)) (commentary db) |}.
Proof.
  intros [I P1 P2 F]. constructor; simpl.
  - exact I.
  - exact P1.
  - apply pkey_filter, P2.
  - apply Forall_filter_keep, F.
Qed.

Lemma post_matches_ok env db body db' resp :
  Db_ok db -> post_matches env db body = Some (db', resp) -> Db_ok db'.
Proof.
  intros Ok H. apply try_catch_inv in H as [H | (e & E & _)]; [ | subst; exact Ok].
  repeat (apply bind_Normal in H as (? & _ & H)).
  match type of H with (if ?c then _ else _) = _ => destruct c end.
  - inversion H; subst; exact Ok.
  - apply bind_Normal in H as (date & _ & H).
    apply bind_Normal in H as (out & Hi & H).
    apply matches_insert_inv in Hi as (r & Eo & Hr & Hn). subst out. simpl in H.
    inversion H; subst. apply Db_ok_insert_match; assumption.
Qed.

Lemma post_commentary_ok env db matchId body db' resp :
  Db_ok db -> post_matches_matchId_commentary env db matchId body = Some (db', resp) -> Db_ok db'.
Proof.
  intros Ok H. apply try_catch_inv in H as [H | (e & E & _)]; [ | subst; exact Ok].
  repeat (apply bind_Normal in H as (? & _ & H)).
  match type of H with (if ?c then _ else _) = _ => destruct c end.
  - inversion H; subst; exact Ok.
  - apply bind_Normal in H as (out & Hi & H).
    apply commentary_insert_inv in Hi as (k & Eo & Hn & Hfk). subst out. simpl in H.
    inversion H; subst. apply Db_ok_insert_commentary; assumption.
Qed.

Lemma put_matches_id_ok db id body db' resp :
  Db_ok db -> put_matches_id db id body = Some (db', resp) -> Db_ok db'.
Proof.
  intros Ok H. apply MatchesFacts.put_matches_id_inv in H as [(e & E & _) | H];
    [subst; exact Ok | ].
  destruct H as (s & n & out & _ & _ & _ & _ & _ & _ & Hu & Hdb & _). subst db'.
  apply (Db_ok_same_keys db); simpl; try reflexivity; [ | exact Ok].
  apply (update_rows_map _ _ matchesTable.id _ _) with (2 := Hu).
  intros r r' Hr. apply MatchesFacts.matches_set_row_frame in Hr as (Hid & _). exact Hid.
Qed.

Lemma put_commentary_id_ok db id body db' resp :
  Db_ok db -> put_commentary_id db id body = Some (db', resp) -> Db_ok db'.
Proof.
  intros Ok H. apply CommentaryFacts.put_commentary_id_inv in H as [(e & E & _) | H];
    [subst; exact Ok | ].
  destruct H as (s & n & out & _ & _ & _ & _ & Hu & Hdb & _). subst db'.
  apply (Db_ok_same_keys db); simpl; try reflexivity; [ | | exact Ok].
  - apply (update_rows_map _ _ commentaryTable.id _ _) with (2 := Hu).
    intros k k' Hk. apply CommentaryFacts.commentary_set_row_frame in Hk as (Hid & _). exact Hid.
  - apply (update_rows_map _ _ commentaryTable.matchId _ _) with (2 := Hu).
    intros k k' Hk. apply CommentaryFacts.commentary_set_row_frame in Hk as (_ & Hm & _). exact Hm.
Qed.

Lemma delete_matches_id_ok db id db' resp :
  Db_ok db -> delete_matches_id db id = Some (db', resp) -> Db_ok db'.
Proof.
  intros Ok H. destruct (parseInt id) as [n | ] eqn:Hp.
  - destruct (Pg.int4_range n) eqn:Hr.
    + rewrite (delete_matches_id_eq _ _ _ Hp Hr) in H. inversion H; subst.
      apply Db_ok_delete_match, Ok.
    + unfold delete_matches_id, Drizzle.Matches.delete in H; simpl in H.
      rewrite Hp in H; simpl in H. rewrite Hr in H; simpl in H.
      inversion H; subst; exact Ok.
  - unfold delete_matches_id, Drizzle.Matches.delete in H; simpl in H.
    rewrite Hp in H; simpl in H. inversion H; subst; exact Ok.
Qed.

Lemma delete_commentary_id_ok db id db' resp :
  Db_ok db -> delete_commentary_id db id = Some (db', resp) -> Db_ok db'.
Proof.
  intros Ok H. destruct (parseInt id) as [n | ] eqn:Hp.
  - destruct (Pg.int4_range n) eqn:Hr.
    + rewrite (delete_commentary_id_eq _ _ _ Hp Hr) in H. inversion H; subst.
      apply Db_ok_delete_commentary, Ok.
    + unfold delete_commentary_id, Drizzle.Commentary.delete in H; simpl in H.
      rewrite Hp in H; simpl in H. rewrite Hr in H; simpl in H.
      inversion H; subst; exact Ok.
  - unfold delete_commentary_id, Drizzle.Commentary.delete in H; simpl in H.
    rewrite Hp in H; simpl in H. inversion H; subst; exact Ok.
Qed.

(** The three GET handlers do not write. *)
Lemma get_unchanged db db' resp :
  (exists status sport, get_matches db status sport = Some (db', resp))
  \/ (exists id, get_matches_id db id = Some (db', resp))
  \/ (exists matchId, get_matches_matchId_commentary db matchId = Some (db', resp)) ->
  db' = db.
Proof.
  intros [(status & sport & H) | [(id & H) | (matchId & H)]];
    apply try_catch_inv in H as [H | (e & E & _)]; try exact E.
  - apply bind_Normal in H as (rows & _ & H). inversion H; reflexivity.
  - apply bind_Normal in H as (rows & _ & H). destruct rows; inversion H; reflexivity.
  - apply bind_Normal in H as (rows & _ & H). inversion H; reflexivity.
Qed.

(** Every request keeps the constraints of the schema. *)
Theorem app_preserves_Db_ok db req db' resp :
  Db_ok db -> app db req = Some (db', resp) -> Db_ok db'.
Proof.
  intros Ok H. destruct req; simpl in H.
  - rewrite (get_unchanged db db' resp); [exact Ok | left; eauto].
  - rewrite (get_unchanged db db' resp); [exact Ok | right; left; eauto].
  - eapply post_matches_ok; eauto.
  - eapply put_matches_id_ok; eauto.
  - eapply delete_matches_id_ok; eauto.
  - rewrite (get_unchanged db db' resp); [exact Ok | right; right; eauto].
  - eapply post_commentary_ok; eauto.
  - eapply put_commentary_id_ok; eauto.
  - eapply delete_commentary_id_ok; eauto.
Qed.

(** X14.  In every state the server reaches from empty tables, whatever the
    requests and their outcomes, the constraints of the schema hold: match
    ids are 32-bit and pairwise distinct, commentary ids are pairwise
    distinct, and every commentary row references a stored match. *)
Theorem reachable_Db_ok db : reachable db -> Db_ok db.
Proof.
  induction 1 as [ | db req db' resp _ IH H].
  - constructor; simpl; constructor.
  - eapply app_preserves_Db_ok; eauto.
Qed.

(* ===================================================================== *)
(** ** What the storage layer accepts, and the specification's scenario   *)
(* ===================================================================== *)

(** A string without a zero byte that fits the column is stored as it is. *)
Lemma varchar_in_fits (n : nat) (s : string) :
  Pg.has_nul s = false -> (Pg.utf8_length s <= n)%nat ->
  Pg.varchar_in n (JStr s) = Normal (Some s).
Proof.
  intros Hz Hl. unfold Pg.varchar_in, Pg.text_in, Pg.text_param. rewrite Hz; simpl.
  unfold Pg.varchar. apply Nat.leb_le in Hl. rewrite Hl. reflexivity.
Qed.

(** A longer string is refused unless only spaces stick out. *)
Lemma varchar_in_too_long (n : nat) (s : string) :
  Pg.has_nul s = false -> (n < Pg.utf8_length s)%nat ->
  Pg.all_spaces (Pg.drop_chars n s) = false ->
  Pg.varchar_in n (JStr s) = Throw DataException.
Proof.
  intros Hz Hl Hs. unfold Pg.varchar_in, Pg.text_in, Pg.text_param. rewrite Hz; simpl.
  unfold Pg.varchar. apply Nat.leb_gt in Hl. rewrite Hl, Hs. reflexivity.
Qed.

(** A startTime beyond the range of a Date is an Invalid Date: the insert
    throws and the answer is 400. *)
Lemma post_matches_invalid_date :
  post_matches Sample.env3 Sample.db2
    (JObj [("sport", JStr "football"); ("homeTeam", JStr "A"); ("awayTeam", JStr "B");
           ("startTime", JNum 8640000000000001)])
  = Some (Sample.db2, res_status_json 400 (failure (error_message RangeError))).
Proof. reflexivity. Qed.

(** The end-to-end scenario: POST /matches, then PUT /matches/:id with
    [{homeScore: 2, status: "finished"}] gives 200 with homeScore 2 and
    awayScore still 0. *)
Lemma post_then_put :
  exists db1 created db2 updated,
    post_matches {| now := 1767100000000; nextval := 1 |} Sample.empty
      (JObj [("sport", JStr "football"); ("homeTeam", JStr "A"); ("awayTeam", JStr "B");
             ("startTime", JStr "2026-01-01T10:00:00Z")])
    = Some (db1, res_status_json 201 (success_data (match_row created)))
    /\ matchesTable.status created = scheduled /\ matchesTable.homeScore created = 0
    /\ put_matches_id db1 "1" (JObj [("homeScore", JNum 2); ("status", JStr "finished")])
       = Some (db2, res_json (success_data (match_row updated)))
    /\ matchesTable.homeScore updated = 2 /\ matchesTable.awayScore updated = 0
    /\ matchesTable.status updated = finished.
Proof.
  do 4 eexists. split; [reflexivity | ].
  split; [reflexivity | ]. split; [reflexivity | ].
  split; [reflexivity | ]. repeat split.
Qed.

(* ===================================================================== *)
(** ** Further properties of the handlers                                 *)
(* ===================================================================== *)

(** *** GET /matches with one parameter *)

(** X1.  GET /matches lists every row when neither parameter is given (an
    empty parameter counts as not given); with [status] alone it lists
    exactly the rows of that status, or answers 400 when the value is not
    one of the three labels; with [sport] alone it lists exactly the rows of
    that sport.  The tables are never changed. *)
Theorem get_matches_one_filter db status sport :
  (given status = None -> given sport = None ->
   get_matches db status sport
   = Some (db, res_json (success_data (match_rows (matches db)))))
  /\ (forall s, given status = Some s -> given sport = None ->
        get_matches db status sport
        = Some (db, match enumValues s with
                    | Some e =>
                        res_json (success_data (match_rows
                          (filter (fun r => status_eqb e (matchesTable.status r)) (matches db))))
                    | None => res_status_json 400 (failure (error_message DataException))
                    end))
  /\ (forall s, given status = None -> given sport = Some s -> Pg.has_nul s = false ->
        get_matches db status sport
        = Some (db, res_json (success_data (match_rows
                  (filter (fun r => (matchesTable.sport r =? s)%string) (matches db)))))).
Proof.
  split; [ | split].
  - apply get_matches_all.
  - intros s Hs Hp. unfold get_matches. rewrite Hs, Hp. simpl.
    unfold Drizzle.Matches.await; simpl.
    destruct (enumValues s); reflexivity.
  - intros s. apply get_matches_sport_only.
Qed.

Lemma get_matches_one_filter_witness :
  get_matches Sample.db2 (Some "live") (Some EmptyString)
  = Some (Sample.db2, res_json (success_data (match_rows [Sample.tennis_live])))
  /\ get_matches Sample.db2 (Some "postponed") None
     = Some (Sample.db2, res_status_json 400 (failure (error_message DataException)))
  /\ get_matches Sample.db2 None (Some "football")
     = Some (Sample.db2, res_json (success_data (match_rows [Sample.football_scheduled]))).
Proof.
  destruct (get_matches_one_filter Sample.db2 (Some "live") (Some EmptyString)) as [_ [S1 _]].
  destruct (get_matches_one_filter Sample.db2 (Some "postponed") None) as [_ [S2 _]].
  destruct (get_matches_one_filter Sample.db2 None (Some "football")) as [_ [_ P]].
  split; [ | split].
  - exact (S1 "live" eq_refl eq_refl).
  - exact (S2 "postponed" eq_refl eq_refl).
  - exact (P "football" eq_refl eq_refl eq_refl).
Defined.

(** *** POST /matches/:matchId/commentary: validation *)

(** X2.  When one of sequence, eventType, actor, team, message is missing
    or falsy (a sequence of 0 and an empty string included), POST
    /matches/:matchId/commentary answers 400 with an error body and leaves
    the tables as they were, whatever the matchId; for a parsed body the
    error is the handler's missing-fields message. *)
Theorem post_commentary_missing_field env db matchId body :
  missing_or_falsy body "sequence" \/ missing_or_falsy body "eventType"
  \/ missing_or_falsy body "actor" \/ missing_or_falsy body "team"
  \/ missing_or_falsy body "message" ->
  exists e,
    post_matches_matchId_commentary env db matchId body
    = Some (db, res_status_json 400 (failure e))
    /\ ((exists v, destructure body "sequence" = Normal v) ->
        e = text "Missing required fields: sequence, eventType, actor, team, message").
Proof.
  intros H. unfold post_matches_matchId_commentary.
  destruct (destructure_cases body) as [T | N].
  - rewrite T; simpl. eexists; split; [reflexivity | ].
    intros [v Hv]. rewrite T in Hv. discriminate.
  - destruct (N "minute") as [m Hm], (N "period") as [p Hp],
      (N "metadata") as [md Hmd], (N "tags") as [tg Htg].
    destruct (N "sequence") as [v1 H1], (N "eventType") as [v2 H2],
      (N "actor") as [v3 H3], (N "team") as [v4 H4], (N "message") as [v5 H5].
    rewrite Hm, Hp, Hmd, Htg, H1, H2, H3, H4, H5; simpl.
    assert (C : negb (truthy v1) || negb (truthy v2) || negb (truthy v3)
                || negb (truthy v4) || negb (truthy v5) = true).
    { destruct H as [H | [H | [H | [H | H]]]];
        [rewrite (falsy_Normal _ _ _ H H1) | rewrite (falsy_Normal _ _ _ H H2)
         | rewrite (falsy_Normal _ _ _ H H3) | rewrite (falsy_Normal _ _ _ H H4)
         | rewrite (falsy_Normal _ _ _ H H5)];
        simpl; rewrite ?orb_true_r; reflexivity. }
    rewrite C; simpl. eexists; split; [reflexivity | intros _; reflexivity].
Qed.

Lemma post_commentary_missing_field_witness :
  exists e,
    post_matches_matchId_commentary Sample.env3 Sample.db2 "1"
      (JObj [("sequence", JNum 0); ("eventType", JStr "kickoff"); ("actor", JStr "P");
             ("team", JStr "A"); ("message", JStr "we are off")])
    = Some (Sample.db2, res_status_json 400 (failure e)).
Proof.
  destruct (post_commentary_missing_field Sample.env3 Sample.db2 "1"
              (JObj [("sequence", JNum 0); ("eventType", JStr "kickoff"); ("actor", JStr "P");
                     ("team", JStr "A"); ("message", JStr "we are off")]))
    as [e [He _]].
  - left. reflexivity.
  - exists e. exact He.
Defined.

(** *** What a 201 means *)

Lemma matches_insert_row env db v out :
  Drizzle.Matches.insert_returning env db v = Normal out ->
  Drizzle.Matches.v_status v = JStr "scheduled" ->
  exists r,
    out = ({| matches := matches db ++ [r]; commentary := commentary db |}, [r])
    /\ matchesTable.id r = nextval env
    /\ ~ In (matchesTable.id r) (map matchesTable.id (matches db))
    /\ matchesTable.status r = scheduled
    /\ matchesTable.homeScore r = 0 /\ matchesTable.awayScore r = 0
    /\ matchesTable.endTime r = None
    /\ matchesTable.createdAt r = now env
    /\ Pg.int4_range (matchesTable.id r) = true.
Proof.
  unfold Drizzle.Matches.insert_returning. intros H Hst. rewrite Hst in H.
  apply bind_Normal in H as (t & _ & H).
  apply bind_Normal in H as (sp & _ & H).
  apply bind_Normal in H as (ht & _ & H).
  apply bind_Normal in H as (at_ & _ & H).
  apply bind_Normal in H as (st & Hs & H).
  apply bind_Normal in H as (t' & _ & H).
  apply bind_Normal in H as (sp' & _ & H).
  apply bind_Normal in H as (ht' & _ & H).
  apply bind_Normal in H as (at' & _ & H).
  apply bind_Normal in H as (id & Hid & H).
  apply serial_pk_inv in Hid as (Eid & Hr & Hfresh).
  cbv in Hs. inversion Hs; subst st. inversion H; subst.
  eexists. split; [reflexivity | ]. simpl. repeat split; assumption.
Qed.

(** POST /matches either refuses with 400 and writes nothing, or appends
    one row. *)
Lemma post_matches_inv env db body db' resp :
  post_matches env db body = Some (db', resp) ->
  (db' = db /\ exists e, resp = res_status_json 400 (failure e))
  \/ exists r,
       resp = res_status_json 201 (success_data (match_row r))
       /\ db' = {| matches := matches db ++ [r]; commentary := commentary db |}
       /\ matchesTable.id r = nextval env
       /\ ~ In (matchesTable.id r) (map matchesTable.id (matches db))
       /\ matchesTable.status r = scheduled
       /\ matchesTable.homeScore r = 0 /\ matchesTable.awayScore r = 0
       /\ matchesTable.endTime r = None
       /\ matchesTable.createdAt r = now env
       /\ Pg.int4_range (matchesTable.id r) = true
       /\ present body "sport" /\ present body "homeTeam"
       /\ present body "awayTeam" /\ present body "startTime".
Proof.
  intros H. apply try_catch_inv in H as [H | (e & E1 & E2)];
    [ | left; split; [exact E1 | eexists; exact E2]].
  destruct (destructure_cases body) as [T | N]; [rewrite T in H; discriminate | ].
  destruct (N "sport") as [v1 H1], (N "homeTeam") as [v2 H2],
    (N "awayTeam") as [v3 H3], (N "startTime") as [v4 H4].
  rewrite H1, H2, H3, H4 in H. simpl in H.
  destruct (negb (truthy v1) || negb (truthy v2) || negb (truthy v3) || negb (truthy v4))
    eqn:C.
  { inversion H; subst. left. split; [reflexivity | eexists; reflexivity]. }
  right.
  apply bind_Normal in H as (date & _ & H).
  apply bind_Normal in H as (out & Hi & H).
  apply matches_insert_row in Hi as (r & Eo & F1 & F2 & F3 & F4 & F5 & F6 & F7 & F8);
    [ | reflexivity].
  subst out. simpl in H. inversion H; subst.
  apply orb_false_iff in C as [C C4]. apply orb_false_iff in C as [C C3].
  apply orb_false_iff in C as [C1 C2].
  apply negb_false_iff in C1, C2, C3, C4.
  exists r. unfold present.
  rewrite (field_Normal _ _ _ H1), (field_Normal _ _ _ H2),
    (field_Normal _ _ _ H3), (field_Normal _ _ _ H4).
  repeat split; assumption.
Qed.

(** X3.  Whenever POST /matches does not answer 400 it answers 201 with
    one new row appended to the matches table and nothing else changed: the
    row has the id drawn from the sequence (an id no stored match had), the
    creation time of the clock, status "scheduled", both scores 0 and no end
    time; and the four required fields of the body were present and truthy. *)
Theorem post_matches_success env db body db' resp :
  post_matches env db body = Some (db', resp) -> statusCode resp <> 400 ->
  exists r,
    resp = res_status_json 201 (success_data (match_row r))
    /\ db' = {| matches := matches db ++ [r]; commentary := commentary db |}
    /\ matchesTable.id r = nextval env
    /\ ~ In (matchesTable.id r) (map matchesTable.id (matches db))
    /\ matchesTable.status r = scheduled
    /\ matchesTable.homeScore r = 0 /\ matchesTable.awayScore r = 0
    /\ matchesTable.endTime r = None
    /\ matchesTable.createdAt r = now env
    /\ present body "sport" /\ present body "homeTeam"
    /\ present body "awayTeam" /\ present body "startTime".
Proof.
  intros H Hcode. apply post_matches_inv in H as [(_ & e & E) | H].
  - subst resp. exfalso. apply Hcode. reflexivity.
  - destruct H as (r & E1 & E2 & F1 & F2 & F3 & F4 & F5 & F6 & F7 & _ & P).
    exists r. repeat (split; [assumption | ]). exact P.
Qed.

Lemma post_matches_success_witness :
  exists r,
    post_matches Sample.env3 Sample.db2 Sample.new_match_body
    = Some ({| matches := matches Sample.db2 ++ [r]; commentary := commentary Sample.db2 |},
            res_status_json 201 (success_data (match_row r)))
    /\ matchesTable.status r = scheduled /\ matchesTable.id r = 3.
Proof.
  destruct (post_matches_success Sample.env3 Sample.db2 Sample.new_match_body _ _ eq_refl)
    as (r & E1 & E2 & F1 & _ & F3 & _).
  - simpl. discriminate.
  - exists r. split; [ | split; [exact F3 | exact F1]].
    rewrite <- E1, <- E2. reflexivity.
Defined.

Lemma commentary_insert_row env db v out :
  Drizzle.Commentary.insert_returning env db v = Normal out ->
  exists k,
    out = ({| matches := matches db; commentary := commentary db ++ [k] |}, [k])
    /\ commentaryTable.id k = nextval env
    /\ ~ In (commentaryTable.id k) (map commentaryTable.id (commentary db))
    /\ commentaryTable.createdAt k = now env
    /\ Pg.int4_param (Drizzle.Commentary.v_matchId v) = Normal (commentaryTable.matchId k)
    /\ existsb (fun r => matchesTable.id r =? commentaryTable.matchId k) (matches db) = true
    /\ Pg.int4_in (Drizzle.Commentary.v_minute v) = Normal (commentaryTable.minute k)
    /\ Pg.varchar_in 20 (Drizzle.Commentary.v_period v) = Normal (commentaryTable.period k)
    /\ Pg.jsonb_in (Drizzle.Commentary.v_metadata v) = Normal (commentaryTable.metadata k)
    /\ Drizzle.Commentary.makePgArray (Drizzle.Commentary.v_tags v)
       = Normal (commentaryTable.tags k).
Proof.
  unfold Drizzle.Commentary.insert_returning. intros H.
  apply bind_Normal in H as (tg & Htg & H).
  apply bind_Normal in H as (n & Hn & H).
  apply bind_Normal in H as (mi & Hmi & H).
  apply bind_Normal in H as (sq & _ & H).
  apply bind_Normal in H as (pe & Hpe & H).
  apply bind_Normal in H as (et & _ & H).
  apply bind_Normal in H as (ac & _ & H).
  apply bind_Normal in H as (tm & _ & H).
  apply bind_Normal in H as (msg & _ & H).
  apply bind_Normal in H as (md & Hmd & H).
  apply bind_Normal in H as (sq' & _ & H).
  apply bind_Normal in H as (et' & _ & H).
  apply bind_Normal in H as (ac' & _ & H).
  apply bind_Normal in H as (tm' & _ & H).
  apply bind_Normal in H as (msg' & _ & H).
  apply bind_Normal in H as (id & Hid & H).
  apply serial_pk_inv in Hid as (Eid & _ & Hfresh).
  destruct (existsb (fun r => matchesTable.id r =? n) (matches db)) eqn:Hfk; [ | discriminate].
  inversion H; subst.
  eexists. split; [reflexivity | ]. simpl. repeat split; assumption.
Qed.

(** POST /matches/:matchId/commentary either refuses with 400 and writes
    nothing, or appends one row. *)
Lemma post_commentary_inv env db matchId body db' resp :
  post_matches_matchId_commentary env db matchId body = Some (db', resp) ->
  (db' = db /\ exists e, resp = res_status_json 400 (failure e))
  \/ exists k,
       resp = res_status_json 201 (success_data (commentary_row k))
       /\ db' = {| matches := matches db; commentary := commentary db ++ [k] |}
       /\ commentaryTable.id k = nextval env
       /\ ~ In (commentaryTable.id k) (map commentaryTable.id (commentary db))
       /\ commentaryTable.createdAt k = now env
       /\ parseInt matchId = Some (commentaryTable.matchId k)
       /\ Pg.int4_range (commentaryTable.matchId k) = true
       /\ (exists m, In m (matches db) /\ matchesTable.id m = commentaryTable.matchId k)
       /\ present body "sequence" /\ present body "eventType" /\ present body "actor"
       /\ present body "team" /\ present body "message"
       /\ (missing_or_falsy body "minute" -> commentaryTable.minute k = None)
       /\ (missing_or_falsy body "period" -> commentaryTable.period k = None)
       /\ (missing_or_falsy body "metadata" -> commentaryTable.metadata k = None)
       /\ (missing_or_falsy body "tags" -> commentaryTable.tags k = Some []).
Proof.
  intros H. apply try_catch_inv in H as [H | (e & E1 & E2)];
    [ | left; split; [exact E1 | eexists; exact E2]].
  destruct (destructure_cases body) as [T | N]; [rewrite T in H; discriminate | ].
  destruct (N "minute") as [m Hm], (N "period") as [p Hp],
    (N "metadata") as [md Hmd], (N "tags") as [tg Htg].
  destruct (N "sequence") as [v1 H1], (N "eventType") as [v2 H2],
    (N "actor") as [v3 H3], (N "team") as [v4 H4], (N "message") as [v5 H5].
  rewrite Hm, Hp, Hmd, Htg, H1, H2, H3, H4, H5 in H. simpl in H.
  destruct (negb (truthy v1) || negb (truthy v2) || negb (truthy v3) || negb (truthy v4)
            || negb (truthy v5)) eqn:C.
  { inversion H; subst. left. split; [reflexivity | eexists; reflexivity]. }
  right.
  apply bind_Normal in H as (out & Hi & H).
  apply commentary_insert_row in Hi
    as (k & Eo & F1 & F2 & F3 & Fn & Ffk & Fmi & Fpe & Fmd & Ftg).
  simpl in Fn, Fmi, Fpe, Fmd, Ftg.
  subst out. simpl in H. inversion H; subst.
  apply orb_false_iff in C as [C C5]. apply orb_false_iff in C as [C C4].
  apply orb_false_iff in C as [C C3]. apply orb_false_iff in C as [C1 C2].
  apply negb_false_iff in C1, C2, C3, C4, C5.
  exists k. unfold present, missing_or_falsy.
  rewrite (field_Normal _ _ _ H1), (field_Normal _ _ _ H2), (field_Normal _ _ _ H3),
    (field_Normal _ _ _ H4), (field_Normal _ _ _ H5), (field_Normal _ _ _ Hm),
    (field_Normal _ _ _ Hp), (field_Normal _ _ _ Hmd), (field_Normal _ _ _ Htg).
  split; [reflexivity | ]. split; [reflexivity | ].
  split; [exact F1 | ]. split; [exact F2 | ]. split; [exact F3 | ].
  split.
  { unfold Pg.int4_param in Fn. destruct (parseInt matchId) as [z | ]; [ | discriminate].
    destruct (Pg.int4_range z); [ | discriminate]. inversion Fn. reflexivity. }
  split.
  { unfold Pg.int4_param in Fn. destruct (parseInt matchId) as [z | ]; [ | discriminate].
    destruct (Pg.int4_range z) eqn:Hz; [ | discriminate]. inversion Fn; subst. exact Hz. }
  split.
  { apply existsb_exists in Ffk as (r & Hr & Er). apply Z.eqb_eq in Er. exists r. auto. }
  repeat (split; [assumption | ]).
  unfold Js.or in Fmi, Fpe, Fmd, Ftg.
  split; [ | split; [ | split]]; intros F.
  - rewrite F in Fmi. cbv [Pg.int4_in] in Fmi. congruence.
  - rewrite F in Fpe. cbv [Pg.varchar_in Pg.text_in bind] in Fpe. congruence.
  - rewrite F in Fmd. cbv [Pg.jsonb_in] in Fmd. congruence.
  - rewrite F in Ftg.
    cbv [Drizzle.Commentary.makePgArray Drizzle.Commentary.plain_tags] in Ftg. congruence.
Qed.

(** X4.  Whenever POST /matches/:matchId/commentary does not answer 400 it
    answers 201 with one new row appended to the commentary table and
    nothing else changed: the row carries the id drawn from the sequence,
    the creation time of the clock and the parsed matchId, which is the id
    of a stored match; the five required fields were present and truthy; and
    a minute, period or metadata that is missing or falsy (a minute of 0
    included) is stored as null, missing or falsy tags as the empty array. *)
Theorem post_commentary_success env db matchId body db' resp :
  post_matches_matchId_commentary env db matchId body = Some (db', resp) ->
  statusCode resp <> 400 ->
  exists k,
    resp = res_status_json 201 (success_data (commentary_row k))
    /\ db' = {| matches := matches db; commentary := commentary db ++ [k] |}
    /\ commentaryTable.id k = nextval env
    /\ ~ In (commentaryTable.id k) (map commentaryTable.id (commentary db))
    /\ commentaryTable.createdAt k = now env
    /\ parseInt matchId = Some (commentaryTable.matchId k)
    /\ (exists m, In m (matches db) /\ matchesTable.id m = commentaryTable.matchId k)
    /\ present body "sequence" /\ present body "eventType" /\ present body "actor"
    /\ present body "team" /\ present body "message"
    /\ (missing_or_falsy body "minute" -> commentaryTable.minute k = None)
    /\ (missing_or_falsy body "period" -> commentaryTable.period k = None)
    /\ (missing_or_falsy body "metadata" -> commentaryTable.metadata k = None)
    /\ (missing_or_falsy body "tags" -> commentaryTable.tags k = Some []).
Proof.
  intros H Hcode. apply post_commentary_inv in H as [(_ & e & E) | H].
  - subst resp. exfalso. apply Hcode. reflexivity.
  - destruct H as (k & E1 & E2 & F1 & F2 & F3 & F4 & _ & P).
    exists k. repeat (split; [assumption | ]). exact P.
Qed.

Lemma post_commentary_success_witness :
  exists k,
    post_matches_matchId_commentary {| now := 1767263000000; nextval := 4 |} Sample.db2 "2"
      (JObj [("minute", JNum 0); ("sequence", JNum 1); ("eventType", JStr "kickoff");
             ("actor", JStr "P"); ("team", JStr "A"); ("message", JStr "we are off")])
    = Some ({| matches := matches Sample.db2; commentary := commentary Sample.db2 ++ [k] |},
            res_status_json 201 (success_data (commentary_row k)))
    /\ commentaryTable.minute k = None /\ commentaryTable.tags k = Some []
    /\ commentaryTable.matchId k = 2.
Proof.
  destruct (post_commentary_success {| now := 1767263000000; nextval := 4 |} Sample.db2 "2"
              (JObj [("minute", JNum 0); ("sequence", JNum 1); ("eventType", JStr "kickoff");
                     ("actor", JStr "P"); ("team", JStr "A"); ("message", JStr "we are off")])
              _ _ eq_refl)
    as (k & E1 & E2 & _ & _ & _ & Hn & _ & _ & _ & _ & _ & _ & Hmi & _ & _ & Htg).
  - simpl. discriminate.
  - exists k. split; [rewrite <- E1, <- E2; reflexivity | ].
    split; [apply Hmi; reflexivity | ]. split; [apply Htg; reflexivity | ].
    inversion Hn. reflexivity.
Defined.

(** *** PUT /commentary/:id touches message and metadata only *)

Lemma put_commentary_id_frame db id body db' resp :
  put_commentary_id db id body = Some (db', resp) ->
  matches db' = matches db
  /\ Forall2 (fun k k' =>
        commentaryTable.id k' = commentaryTable.id k
        /\ commentaryTable.matchId k' = commentaryTable.matchId k
        /\ commentaryTable.minute k' = commentaryTable.minute k
        /\ commentaryTable.sequence k' = commentaryTable.sequence k
        /\ commentaryTable.period k' = commentaryTable.period k
        /\ commentaryTable.eventType k' = commentaryTable.eventType k
        /\ commentaryTable.actor k' = commentaryTable.actor k
        /\ commentaryTable.team k' = commentaryTable.team k
        /\ commentaryTable.tags k' = commentaryTable.tags k
        /\ commentaryTable.createdAt k' = commentaryTable.createdAt k
        /\ (lacks body "message" -> commentaryTable.message k' = commentaryTable.message k)
        /\ (lacks body "metadata" -> commentaryTable.metadata k' = commentaryTable.metadata k)
        /\ (parseInt id <> Some (commentaryTable.id k) -> k' = k))
       (commentary db) (commentary db').
Proof.
  intros H. apply CommentaryFacts.put_commentary_id_inv in H as [(e & E & _) | H].
  { subst db'. split; [reflexivity | ].
    apply Forall2_same. intros k. repeat split; reflexivity. }
  destruct H as (s & n & out & A1 & A2 & Hp & _ & Hu & Hdb & _).
  subst db'; simpl. split; [reflexivity | ].
  apply update_rows_table in Hu.
  eapply Forall2_impl; [ | exact Hu]. simpl. intros k k' Hk.
  destruct (Z.eqb_spec (commentaryTable.id k) n) as [E | NE].
  - apply CommentaryFacts.commentary_set_row_frame in Hk
      as (F1 & F2 & F3 & F4 & F5 & F6 & F7 & F8 & F9 & F10 & F11 & F12).
    repeat split; auto.
    intros Hne. exfalso. apply Hne. rewrite Hp, E. reflexivity.
  - subst k'. repeat split; reflexivity.
Qed.

Lemma filter_In_nonempty {A : Type} (p : A -> bool) (l : list A) (a : A) :
  In a l -> p a = true -> exists b rest, filter p l = b :: rest /\ In b l /\ p b = true.
Proof.
  intros Hin Hp.
  assert (Hf : In a (filter p l)) by (apply filter_In; auto).
  destruct (filter p l) as [ | b rest] eqn:E; [contradiction | ].
  exists b, rest. split; [reflexivity | ].
  assert (Hb : In b (filter p l)) by (rewrite E; left; reflexivity).
  apply filter_In in Hb. exact Hb.
Qed.

Lemma put_commentary_id_message db id body k s :
  In k (commentary db) -> parseInt id = Some (commentaryTable.id k) ->
  Pg.int4_range (commentaryTable.id k) = true ->
  destructure body "message" = Normal (JStr s) -> Pg.has_nul s = false ->
  lacks body "metadata" ->
  exists db' k',
    put_commentary_id db id body = Some (db', res_json (success_data (commentary_row k')))
    /\ In k' (commentary db')
    /\ commentaryTable.id k' = commentaryTable.id k
    /\ commentaryTable.message k' = s.
Proof.
  intros Hin Hp Hr Hm Hz L.
  destruct (destructure_cases body) as [T | N]; [rewrite T in Hm; discriminate | ].
  destruct (N "metadata") as [v2 H2].
  pose proof (lacks_Normal _ _ _ L H2); subst v2.
  unfold put_commentary_id. rewrite Hm, H2. simpl.
  unfold Drizzle.Commentary.update_returning, Drizzle.Commentary.bind_set; simpl.
  unfold Drizzle.assigned, Pg.text_in, Pg.text_param; simpl. rewrite Hz; simpl.
  rewrite Hp; simpl. rewrite Hr; simpl.
  rewrite (update_rows_pure _ _
             (fun k0 =>
                {| commentaryTable.id := commentaryTable.id k0;
                   commentaryTable.matchId := commentaryTable.matchId k0;
                   commentaryTable.minute := commentaryTable.minute k0;
                   commentaryTable.sequence := commentaryTable.sequence k0;
                   commentaryTable.period := commentaryTable.period k0;
                   commentaryTable.eventType := commentaryTable.eventType k0;
                   commentaryTable.actor := commentaryTable.actor k0;
                   commentaryTable.team := commentaryTable.team k0;
                   commentaryTable.message := s;
                   commentaryTable.metadata := commentaryTable.metadata k0;
                   commentaryTable.tags := commentaryTable.tags k0;
                   commentaryTable.createdAt := commentaryTable.createdAt k0 |}));
    [ | intros k0; reflexivity].
  simpl.
  destruct (filter_In_nonempty
              (fun k0 => commentaryTable.id k0 =? commentaryTable.id k) _ k Hin
              (Z.eqb_refl _)) as (b & rest & Ef & Hb & Eb).
  rewrite Ef. simpl. eexists. eexists. split; [reflexivity | ]. simpl.
  apply Z.eqb_eq in Eb. split; [ | split; [exact Eb | reflexivity]].
  apply in_map_iff. exists b. rewrite Eb, Z.eqb_refl. split; [reflexivity | exact Hb].
Qed.

(** X5.  A PUT /commentary/:id that gets a result leaves the matches table
    as it is and, row by row, leaves in place every field except message and
    metadata, each of these two when the body does not supply it, and every
    row with another id; a body with only a message (a string) gives 200
    with the row of that id under the new message. *)
Theorem put_commentary_changes_only_supplied db id body :
  (forall db' resp,
     put_commentary_id db id body = Some (db', resp) ->
     matches db' = matches db
     /\ Forall2 (fun k k' =>
           commentaryTable.id k' = commentaryTable.id k
           /\ commentaryTable.matchId k' = commentaryTable.matchId k
           /\ commentaryTable.minute k' = commentaryTable.minute k
           /\ commentaryTable.sequence k' = commentaryTable.sequence k
           /\ commentaryTable.period k' = commentaryTable.period k
           /\ commentaryTable.eventType k' = commentaryTable.eventType k
           /\ commentaryTable.actor k' = commentaryTable.actor k
           /\ commentaryTable.team k' = commentaryTable.team k
           /\ commentaryTable.tags k' = commentaryTable.tags k
           /\ commentaryTable.createdAt k' = commentaryTable.createdAt k
           /\ (lacks body "message" -> commentaryTable.message k' = commentaryTable.message k)
           /\ (lacks body "metadata" ->
               commentaryTable.metadata k' = commentaryTable.metadata k)
           /\ (parseInt id <> Some (commentaryTable.id k) -> k' = k))
          (commentary db) (commentary db'))
  /\ (forall k s,
        In k (commentary db) -> parseInt id = Some (commentaryTable.id k) ->
        Pg.int4_range (commentaryTable.id k) = true ->
        destructure body "message" = Normal (JStr s) -> Pg.has_nul s = false ->
        lacks body "metadata" ->
        exists db' k',
          put_commentary_id db id body
          = Some (db', res_json (success_data (commentary_row k')))
          /\ In k' (commentary db')
          /\ commentaryTable.id k' = commentaryTable.id k
          /\ commentaryTable.message k' = s).
Proof.
  split.
  - intros db' resp. apply put_commentary_id_frame.
  - intros k s. apply put_commentary_id_message.
Qed.

Lemma put_commentary_changes_only_supplied_witness :
  exists db' k',
    put_commentary_id Sample.db2 "2" (JObj [("message", JStr "corrected")])
    = Some (db', res_json (success_data (commentary_row k')))
    /\ commentaryTable.message k' = "corrected"
    /\ matches db' = matches Sample.db2.
Proof.
  destruct (put_commentary_changes_only_supplied Sample.db2 "2"
              (JObj [("message", JStr "corrected")])) as [F P].
  destruct (P (Sample.note 2 2 1767262001000 "b") "corrected"
              (or_intror (or_introl eq_refl)) eq_refl eq_refl eq_refl eq_refl eq_refl)
    as (db' & k' & E & _ & _ & Em).
  exists db', k'. split; [exact E | ]. split; [exact Em | exact (proj1 (F _ _ E))].
Defined.

(** *** Only a success writes *)





(** *** Writing, then reading *)

Lemma filter_id_fresh (rows : list matchesTable.row) (n : Z) :
  ~ In n (map matchesTable.id rows) ->
  filter (fun r => matchesTable.id r =? n) rows = [].
Proof.
  intros Hn. apply filter_none. intros r Hr. apply Z.eqb_neq. intros E.
  apply Hn. rewrite <- E. apply in_map, Hr.
Qed.

(** X7.  After a POST /matches answered 201 with a row, GET /matches/:id
    with an id that parses to the id of that row answers 200 with the very
    same row; and for every other id the answer of GET /matches/:id is what
    it was before the POST. *)
Theorem post_matches_then_get env db body db' r :
  post_matches env db body = Some (db', res_status_json 201 (success_data (match_row r))) ->
  (forall id, parseInt id = Some (matchesTable.id r) ->
     get_matches_id db' id = Some (db', res_json (success_data (match_row r))))
  /\ (forall id, parseInt id <> Some (matchesTable.id r) ->
        option_map snd (get_matches_id db' id) = option_map snd (get_matches_id db id)).
Proof.
  intros H. apply post_matches_inv in H as [(_ & e & E) | H]; [discriminate E | ].
  destruct H as (r0 & E & Edb & _ & Hfresh & _ & _ & _ & _ & _ & Hr & _).
  inversion E; subst r0. subst db'. split.
  - intros id Hp. rewrite (get_matches_id_eq _ _ _ Hp Hr). simpl.
    rewrite filter_app, (filter_id_fresh _ _ Hfresh). simpl.
    rewrite Z.eqb_refl. reflexivity.
  - intros id Hp. destruct (parseInt id) as [n | ] eqn:En.
    + destruct (Pg.int4_range n) eqn:Hn.
      * rewrite !(get_matches_id_eq _ _ _ En Hn). simpl.
        rewrite filter_app. simpl.
        destruct (Z.eqb_spec (matchesTable.id r) n) as [Eq | _];
          [exfalso; apply Hp; rewrite Eq; reflexivity | ].
        rewrite app_nil_r. reflexivity.
      * unfold get_matches_id, Drizzle.Matches.await; simpl.
        rewrite En; simpl. rewrite Hn; reflexivity.
    + unfold get_matches_id, Drizzle.Matches.await; simpl. rewrite En; reflexivity.
Qed.

Lemma post_matches_then_get_witness :
  exists db' r,
    post_matches Sample.env3 Sample.db2 Sample.new_match_body
    = Some (db', res_status_json 201 (success_data (match_row r)))
    /\ get_matches_id db' "3" = Some (db', res_json (success_data (match_row r)))
    /\ option_map snd (get_matches_id db' "1") = option_map snd (get_matches_id Sample.db2 "1").
Proof.
  eexists. eexists. split; [reflexivity | ].
  destruct (post_matches_then_get Sample.env3 Sample.db2 Sample.new_match_body _ _ eq_refl)
    as [G O].
  split; [apply G; reflexivity | apply O; discriminate].
Defined.

Section UpdateRowsKeys.
Context {R : Type} (p : R -> bool) (f : R -> completion R).
Hypothesis f_keeps_p : forall r r', f r = Normal r' -> p r' = p r.

(** The rows an update returns are the rows of the new table that satisfy
    its condition. *)
Lemma update_rows_filter_new rows out :
  Drizzle.update_rows p f rows = Normal out -> filter p (fst out) = snd out.
Proof.
  revert out. induction rows as [ | r rest IH]; simpl; intros out H.
  - inversion H; reflexivity.
  - destruct (p r) eqn:Hp.
    + apply bind_Normal in H as (r' & Hf & H).
      apply bind_Normal in H as (o & Ho & H).
      inversion H; subst; simpl.
      rewrite (f_keeps_p _ _ Hf), Hp, (IH _ Ho). reflexivity.
    + apply bind_Normal in H as (o & Ho & H).
      inversion H; subst; simpl. rewrite Hp. apply IH, Ho.
Qed.

Hypothesis f_idempotent : forall r r', f r = Normal r' -> f r' = Normal r'.

(** Running the same update on its own result changes nothing more. *)
Lemma update_rows_again rows out :
  Drizzle.update_rows p f rows = Normal out ->
  Drizzle.update_rows p f (fst out) = Normal out.
Proof.
  revert out. induction rows as [ | r rest IH]; simpl; intros out H.
  - inversion H; reflexivity.
  - destruct (p r) eqn:Hp.
    + apply bind_Normal in H as (r' & Hf & H).
      apply bind_Normal in H as (o & Ho & H).
      inversion H; subst; simpl.
      rewrite (f_keeps_p _ _ Hf), Hp, (f_idempotent _ _ Hf), (IH _ Ho). reflexivity.
    + apply bind_Normal in H as (o & Ho & H).
      inversion H; subst; simpl. rewrite Hp, (IH _ Ho). reflexivity.
Qed.
End UpdateRowsKeys.

(** X8.  After a PUT /matches/:id answered 200 with the updated row, GET
    /matches/:id with the same id answers 200 with that same row. *)
Theorem put_matches_then_get db id body db' r' :
  put_matches_id db id body = Some (db', res_json (success_data (match_row r'))) ->
  get_matches_id db' id = Some (db', res_json (success_data (match_row r'))).
Proof.
  intros H. apply MatchesFacts.put_matches_id_inv in H as [(e & _ & E) | H];
    [discriminate E | ].
  destruct H as (s & n & out & _ & _ & _ & _ & Hp & Hr & Hu & Hdb & Hresp).
  rewrite (get_matches_id_eq _ _ _ Hp Hr). subst db'. simpl.
  rewrite (update_rows_filter_new (fun r => matchesTable.id r =? n) _) with (2 := Hu).
  - destruct (snd out) as [ | u rest]; [discriminate Hresp | ].
    inversion Hresp. reflexivity.
  - intros r r0 Hf. apply MatchesFacts.matches_set_row_frame in Hf as (Hid & _).
    rewrite Hid. reflexivity.
Qed.

Lemma put_matches_then_get_witness :
  exists db' r',
    put_matches_id Sample.db2 "2" (JObj [("awayScore", JNum 3)])
    = Some (db', res_json (success_data (match_row r')))
    /\ matchesTable.awayScore r' = 3
    /\ get_matches_id db' "2" = Some (db', res_json (success_data (match_row r'))).
Proof.
  eexists. eexists. split; [reflexivity | ]. split; [reflexivity | ].
  apply (put_matches_then_get Sample.db2 "2" (JObj [("awayScore", JNum 3)])).
  reflexivity.
Defined.

(** X9.  After a DELETE /matches/:id answered 200, GET /matches/:id with
    the same id answers 404 "Match not found", and no PUT /matches/:id with
    that id answers 200. *)
Theorem delete_matches_then_gone db id db' resp :
  delete_matches_id db id = Some (db', resp) -> statusCode resp = 200 ->
  get_matches_id db' id
  = Some (db', res_status_json 404 (failure (text "Match not found")))
  /\ (forall body db'' resp',
        put_matches_id db' id body = Some (db'', resp') -> statusCode resp' <> 200).
Proof.
  intros H Hcode.
  destruct (parseInt id) as [n | ] eqn:Hp.
  2:{ unfold delete_matches_id, Drizzle.Matches.delete in H; simpl in H.
      rewrite Hp in H; simpl in H. inversion H; subst. discriminate Hcode. }
  destruct (Pg.int4_range n) eqn:Hr.
  2:{ unfold delete_matches_id, Drizzle.Matches.delete in H; simpl in H.
      rewrite Hp in H; simpl in H. rewrite Hr in H; simpl in H.
      inversion H; subst. discriminate Hcode. }
  rewrite (delete_matches_id_eq _ _ _ Hp Hr) in H. inversion H; subst db' resp. clear H.
  assert (Hgone : filter (fun r => matchesTable.id r =? n)
                    (filter (fun r => negb (matchesTable.id r =? n)) (matches db)) = []).
  { apply filter_none. intros r Hin. apply filter_In in Hin as [_ Hin].
    apply negb_true_iff in Hin. exact Hin. }
  split.
  - rewrite (get_matches_id_eq _ _ _ Hp Hr). simpl. rewrite Hgone. reflexivity.
  - intros body db'' resp' H.
    apply MatchesFacts.put_matches_id_inv in H as [(e & _ & E) | H];
      [subst resp'; discriminate | ].
    destruct H as (s & n' & out & _ & _ & _ & _ & Hp' & _ & Hu & _ & Hresp).
    rewrite Hp in Hp'. inversion Hp'; subst n'. simpl in Hu.
    rewrite (update_rows_no_match _ _ _ Hgone) in Hu. inversion Hu; subst out.
    simpl in Hresp. subst resp'. discriminate.
Qed.

Lemma delete_matches_then_gone_witness :
  exists db',
    delete_matches_id Sample.db2 "2"
    = Some (db', res_json (success_message "Match deleted successfully"))
    /\ get_matches_id db' "2"
       = Some (db', res_status_json 404 (failure (text "Match not found"))).
Proof.
  eexists. split; [reflexivity | ].
  apply (delete_matches_then_gone Sample.db2 "2" _ _ eq_refl eq_refl).
Defined.

(** *** Repeating a request *)

Lemma matches_set_row_again s r r' :
  Drizzle.Matches.set_row s r = Normal r' -> Drizzle.Matches.set_row s r' = Normal r'.
Proof.
  unfold Drizzle.Matches.set_row. intros H.
  apply bind_Normal in H as (st & Hst & H).
  apply bind_Normal in H as (hs & Hhs & H).
  apply bind_Normal in H as (aw & Haw & H).
  inversion H; subst; simpl. clear H.
  destruct s as [[st0 | ] [hs0 | ] [aw0 | ] [et0 | ]]; simpl in *;
    rewrite ?Hst, ?Hhs, ?Haw; simpl; reflexivity.
Qed.

Lemma commentary_set_row_again s k k' :
  Drizzle.Commentary.set_row s k = Normal k' -> Drizzle.Commentary.set_row s k' = Normal k'.
Proof.
  unfold Drizzle.Commentary.set_row. intros H.
  apply bind_Normal in H as (m & Hm & H).
  inversion H; subst; simpl. clear H.
  destruct s as [[m0 | ] [md0 | ]]; simpl in *; rewrite ?Hm; simpl; reflexivity.
Qed.

(** X10.  PUT /matches/:id and PUT /commentary/:id are idempotent: sent
    again on the tables it produced, a request gets the same response and
    leaves those tables as they are. *)
Theorem put_is_idempotent db id body db' resp :
  (put_matches_id db id body = Some (db', resp) ->
   put_matches_id db' id body = Some (db', resp))
  /\ (put_commentary_id db id body = Some (db', resp) ->
      put_commentary_id db' id body = Some (db', resp)).
Proof.
  split; intros H.
  - unfold put_matches_id in *.
    destruct (destructure body "status") as [v1 | e | ]; simpl in *;
      [ | inversion H; subst; reflexivity | discriminate].
    destruct (destructure body "homeScore") as [v2 | e | ]; simpl in *;
      [ | inversion H; subst; reflexivity | discriminate].
    destruct (destructure body "awayScore") as [v3 | e | ]; simpl in *;
      [ | inversion H; subst; reflexivity | discriminate].
    destruct (destructure body "endTime") as [v4 | e | ]; simpl in *;
      [ | inversion H; subst; reflexivity | discriminate].
    destruct (if defined v4 then _ else _) as [date | e | ]; simpl in *;
      [ | inversion H; subst; reflexivity | discriminate].
    unfold Drizzle.Matches.update_returning in *.
    destruct (Drizzle.Matches.no_values _); simpl in *;
      [inversion H; subst; reflexivity | ].
    destruct (Drizzle.Matches.bind_set _) as [s | e | ]; simpl in *;
      [ | inversion H; subst; reflexivity | discriminate].
    destruct (Pg.int4_param (parseInt id)) as [n | e | ]; simpl in *;
      [ | inversion H; subst; reflexivity | discriminate].
    destruct (Drizzle.update_rows (fun r => matchesTable.id r =? n)
                (Drizzle.Matches.set_row s) (matches db)) as [out | e | ] eqn:Hu;
      simpl in *; [ | inversion H; subst; rewrite Hu; reflexivity | discriminate].
    assert (Hagain : Drizzle.update_rows (fun r => matchesTable.id r =? n)
                       (Drizzle.Matches.set_row s) (fst out) = Normal out).
    { apply (update_rows_again _ _) with (3 := Hu).
      - intros r r0 Hf. apply MatchesFacts.matches_set_row_frame in Hf as (Hid & _).
        rewrite Hid. reflexivity.
      - apply matches_set_row_again. }
    destruct (snd out) as [ | u rest] eqn:E; simpl in *;
      inversion H; subst; simpl; rewrite Hagain; simpl; rewrite E; reflexivity.
  - unfold put_commentary_id in *.
    destruct (destructure body "message") as [v1 | e | ]; simpl in *;
      [ | inversion H; subst; reflexivity | discriminate].
    destruct (destructure body "metadata") as [v2 | e | ]; simpl in *;
      [ | inversion H; subst; reflexivity | discriminate].
    unfold Drizzle.Commentary.update_returning in *.
    destruct (Drizzle.Commentary.no_values _); simpl in *;
      [inversion H; subst; reflexivity | ].
    destruct (Drizzle.Commentary.bind_set _) as [s | e | ]; simpl in *;
      [ | inversion H; subst; reflexivity | discriminate].
    destruct (Pg.int4_param (parseInt id)) as [n | e | ]; simpl in *;
      [ | inversion H; subst; reflexivity | discriminate].
    destruct (Drizzle.update_rows (fun k => commentaryTable.id k =? n)
                (Drizzle.Commentary.set_row s) (commentary db)) as [out | e | ] eqn:Hu;
      simpl in *; [ | inversion H; subst; rewrite Hu; reflexivity | discriminate].
    assert (Hagain : Drizzle.update_rows (fun k => commentaryTable.id k =? n)
                       (Drizzle.Commentary.set_row s) (fst out) = Normal out).
    { apply (update_rows_again _ _) with (3 := Hu).
      - intros k k0 Hf. apply CommentaryFacts.commentary_set_row_frame in Hf as (Hid & _).
        rewrite Hid. reflexivity.
      - apply commentary_set_row_again. }
    destruct (snd out) as [ | u rest] eqn:E; simpl in *;
      inversion H; subst; simpl; rewrite Hagain; simpl; rewrite E; reflexivity.
Qed.

Lemma put_is_idempotent_witness :
  exists db' resp,
    put_matches_id Sample.db2 "1" (JObj [("homeScore", JNum 2); ("status", JStr "finished")])
    = Some (db', resp)
    /\ statusCode resp = 200
    /\ put_matches_id db' "1" (JObj [("homeScore", JNum 2); ("status", JStr "finished")])
       = Some (db', resp).
Proof.
  eexists. eexists. split; [reflexivity | ]. split; [reflexivity | ].
  apply (proj1 (put_is_idempotent Sample.db2 "1"
                  (JObj [("homeScore", JNum 2); ("status", JStr "finished")]) _ _)).
  reflexivity.
Defined.

Lemma filter_filter_same {A : Type} (p : A -> bool) (l : list A) :
  filter p (filter p l) = filter p l.
Proof.
  apply filter_all. intros a Ha. apply filter_In in Ha as [_ Ha]. exact Ha.
Qed.

(** X11.  DELETE /matches/:id and DELETE /commentary/:id are idempotent:
    sent again on the tables it produced, a delete gets the same response
    and removes nothing more. *)
Theorem delete_is_idempotent db id db' resp :
  (delete_matches_id db id = Some (db', resp) ->
   delete_matches_id db' id = Some (db', resp))
  /\ (delete_commentary_id db id = Some (db', resp) ->
      delete_commentary_id db' id = Some (db', resp)).
Proof.
  split; intros H.
  - destruct (parseInt id) as [n | ] eqn:Hp.
    2:{ unfold delete_matches_id, Drizzle.Matches.delete in *; simpl in *.
        rewrite Hp in *; simpl in *. inversion H; subst. reflexivity. }
    destruct (Pg.int4_range n) eqn:Hr.
    2:{ unfold delete_matches_id, Drizzle.Matches.delete in *; simpl in *.
        rewrite Hp in *; simpl in *. rewrite Hr in *; simpl in *.
        inversion H; subst. reflexivity. }
    rewrite (delete_matches_id_eq _ _ _ Hp Hr) in H. inversion H; subst db' resp. clear H.
    rewrite (delete_matches_id_eq _ _ _ Hp Hr). simpl.
    rewrite filter_filter_same.
    assert (Hgone : existsb (fun r => matchesTable.id r =? n)
                      (filter (fun r => negb (matchesTable.id r =? n)) (matches db)) = false).
    { apply not_true_is_false. intros E. apply existsb_exists in E as (r & Hin & E).
      apply filter_In in Hin as [_ Hin]. rewrite E in Hin. discriminate. }
    rewrite Hgone. do 3 f_equal.
    apply filter_all. intros k _. rewrite andb_false_r. reflexivity.
  - destruct (parseInt id) as [n | ] eqn:Hp.
    2:{ unfold delete_commentary_id, Drizzle.Commentary.delete in *; simpl in *.
        rewrite Hp in *; simpl in *. inversion H; subst. reflexivity. }
    destruct (Pg.int4_range n) eqn:Hr.
    2:{ unfold delete_commentary_id, Drizzle.Commentary.delete in *; simpl in *.
        rewrite Hp in *; simpl in *. rewrite Hr in *; simpl in *.
        inversion H; subst. reflexivity. }
    rewrite (delete_commentary_id_eq _ _ _ Hp Hr) in H. inversion H; subst db' resp. clear H.
    rewrite (delete_commentary_id_eq _ _ _ Hp Hr). simpl.
    rewrite filter_filter_same. reflexivity.
Qed.

Lemma delete_is_idempotent_witness :
  exists db',
    delete_matches_id Sample.db2 "1"
    = Some (db', res_json (success_message "Match deleted successfully"))
    /\ db' <> Sample.db2
    /\ delete_matches_id db' "1"
       = Some (db', res_json (success_message "Match deleted successfully")).
Proof.
  eexists. split; [reflexivity | ]. split; [discriminate | ].
  apply (proj1 (delete_is_idempotent Sample.db2 "1" _ _)). reflexivity.
Defined.

(** *** The order of a commentary listing *)

(** X12.  When the commentary rows of a match are stored in the order of
    their creation, at strictly increasing times, GET
    /matches/:matchId/commentary lists them in exactly the reverse order:
    created A, B, C, listed C, B, A. *)
Theorem get_commentary_reverse_of_creation db matchId n :
  parseInt matchId = Some n -> Pg.int4_range n = true ->
  StronglySorted (fun a b => commentaryTable.createdAt a < commentaryTable.createdAt b)
    (filter (fun k => commentaryTable.matchId k =? n) (commentary db)) ->
  get_matches_matchId_commentary db matchId
  = Some (db, res_json (success_data (commentary_rows
            (rev (filter (fun k => commentaryTable.matchId k =? n) (commentary db)))))).
Proof.
  intros Hp Hr S. rewrite (get_commentary_eq _ _ _ Hp Hr), (sort_desc_rev _ S). reflexivity.
Qed.

Lemma get_commentary_reverse_of_creation_witness :
  get_matches_matchId_commentary Sample.db2 "1"
  = Some (Sample.db2, res_json (success_data (commentary_rows
            [Sample.note 3 1 1767262002000 "c"; Sample.note 1 1 1767262000000 "a"]))).
Proof.
  apply (get_commentary_reverse_of_creation Sample.db2 "1" 1 eq_refl eq_refl).
  simpl. repeat constructor.
Defined.




(** *** Reachable tables *)

Lemma reachable_Db_ok_witness :
  exists db, reachable db /\ matches db <> [] /\ Db_ok db.
Proof.
  assert (R : reachable
                {| matches := [{| matchesTable.id := 1;
                                  matchesTable.sport := "football";
                                  matchesTable.homeTeam := "A";
                                  matchesTable.awayTeam := "B";
                                  matchesTable.status := scheduled;
                                  matchesTable.startTime := 1767261600000;
                                  matchesTable.endTime := None;
                                  matchesTable.homeScore := 0;
                                  matchesTable.awayScore := 0;
                                  matchesTable.createdAt := 1767100000000 |}];
                   commentary := [] |}).
  { apply (reachable_step _
             (POST_matches {| now := 1767100000000; nextval := 1 |} Sample.new_match_body)
             _ (res_status_json 201 (success_data (match_row
                  {| matchesTable.id := 1;
                     matchesTable.sport := "football";
                     matchesTable.homeTeam := "A";
                     matchesTable.awayTeam := "B";
                     matchesTable.status := scheduled;
                     matchesTable.startTime := 1767261600000;
                     matchesTable.endTime := None;
                     matchesTable.homeScore := 0;
                     matchesTable.awayScore := 0;
                     matchesTable.createdAt := 1767100000000 |})))
             reachable_empty).
    reflexivity. }
  eexists. split; [exact R | ]. split; [discriminate | ].
  exact (reachable_Db_ok _ R).
Defined.

(** *** DELETE /commentary/:id *)

(** X15.  A DELETE /commentary/:id that answers 200 removes exactly the
    commentary rows with the parsed id: the matches table and every other
    commentary row stay, in their order; afterwards no PUT /commentary/:id
    with that id answers 200. *)
Theorem delete_commentary_then_gone db id db' resp :
  delete_commentary_id db id = Some (db', resp) -> statusCode resp = 200 ->
  exists n,
    parseInt id = Some n
    /\ matches db' = matches db
    /\ commentary db' = filter (fun k => negb (commentaryTable.id k =? n)) (commentary db)
    /\ (forall body db'' resp',
          put_commentary_id db' id body = Some (db'', resp') -> statusCode resp' <> 200).
Proof.
  intros H Hcode.
  destruct (parseInt id) as [n | ] eqn:Hp.
  2:{ unfold delete_commentary_id, Drizzle.Commentary.delete in H; simpl in H.
      rewrite Hp in H; simpl in H. inversion H; subst. discriminate Hcode. }
  destruct (Pg.int4_range n) eqn:Hr.
  2:{ unfold delete_commentary_id, Drizzle.Commentary.delete in H; simpl in H.
      rewrite Hp in H; simpl in H. rewrite Hr in H; simpl in H.
      inversion H; subst. discriminate Hcode. }
  rewrite (delete_commentary_id_eq _ _ _ Hp Hr) in H. inversion H; subst db' resp. clear H.
  exists n. split; [reflexivity | ]. split; [reflexivity | ]. split; [reflexivity | ].
  intros body db'' resp' H.
  apply CommentaryFacts.put_commentary_id_inv in H as [(e & _ & E) | H];
    [subst resp'; discriminate | ].
  destruct H as (s & n' & out & _ & _ & Hp' & _ & Hu & _ & Hresp).
  rewrite Hp in Hp'. inversion Hp'; subst n'. simpl in Hu.
  assert (Hgone : filter (fun k => commentaryTable.id k =? n)
                    (filter (fun k => negb (commentaryTable.id k =? n)) (commentary db)) = []).
  { apply filter_none. intros k Hin. apply filter_In in Hin as [_ Hin].
    apply negb_true_iff in Hin. exact Hin. }
  rewrite (update_rows_no_match _ _ _ Hgone) in Hu. inversion Hu; subst out.
  simpl in Hresp. subst resp'. discriminate.
Qed.

Lemma delete_commentary_then_gone_witness :
  exists db',
    delete_commentary_id Sample.db2 "2"
    = Some (db', res_json (success_message "Commentary deleted successfully"))
    /\ commentary db'
       = [Sample.note 1 1 1767262000000 "a"; Sample.note 3 1 1767262002000 "c"]
    /\ matches db' = matches Sample.db2.
Proof.
  destruct (delete_commentary_then_gone Sample.db2 "2" _ _ eq_refl eq_refl)
    as (n & Hn & Hm & Hc & _).
  inversion Hn; subst n.
  eexists. split; [reflexivity | ]. split; [exact Hc | exact Hm].
Defined.

(** *** PUT /matches/:id with a status outside the enum *)

(** X16.  A PUT /matches/:id whose status is a string other than
    "scheduled", "live" and "finished" never succeeds: whatever else the
    body holds and whether or not a row has the id, a response is 400 and
    the tables are unchanged; when status is the only updatable field
    supplied, that 400 is the storage layer's refusal of the value. *)
Theorem put_matches_invalid_status db id body s :
  destructure body "status" = Normal (JStr s) -> enumValues s = None ->
  (forall db' resp,
     put_matches_id db id body = Some (db', resp) ->
     statusCode resp = 400 /\ db' = db)
  /\ (lacks body "homeScore" -> lacks body "awayScore" -> lacks body "endTime" ->
      put_matches_id db id body
      = Some (db, res_status_json 400 (failure (error_message DataException)))).
Proof.
  intros Hs He. split.
  - intros db' resp H. unfold put_matches_id in H. rewrite Hs in H. simpl in H.
    destruct (destructure body "homeScore") as [v2 | e | ]; simpl in H;
      [ | inversion H; split; reflexivity | discriminate].
    destruct (destructure body "awayScore") as [v3 | e | ]; simpl in H;
      [ | inversion H; split; reflexivity | discriminate].
    destruct (destructure body "endTime") as [v4 | e | ]; simpl in H;
      [ | inversion H; split; reflexivity | discriminate].
    destruct (if defined v4 then _ else _) as [date | e | ]; simpl in H;
      [ | inversion H; split; reflexivity | discriminate].
    unfold Drizzle.Matches.update_returning, Drizzle.Matches.bind_set in H. simpl in H.
    destruct (match date with Some d => _ | None => _ end) as [t | e | ]; simpl in H;
      [ | inversion H; split; reflexivity | discriminate].
    unfold Drizzle.assigned at 1 in H. simpl in H. rewrite He in H. simpl in H.
    inversion H; split; reflexivity.
  - intros L2 L3 L4.
    destruct (destructure_cases body) as [T | N]; [rewrite T in Hs; discriminate | ].
    destruct (N "homeScore") as [v2 H2], (N "awayScore") as [v3 H3], (N "endTime") as [v4 H4].
    pose proof (lacks_Normal _ _ _ L2 H2); pose proof (lacks_Normal _ _ _ L3 H3);
      pose proof (lacks_Normal _ _ _ L4 H4); subst v2 v3 v4.
    unfold put_matches_id. rewrite Hs, H2, H3, H4. simpl.
    unfold Drizzle.Matches.update_returning, Drizzle.Matches.bind_set; simpl.
    unfold Drizzle.assigned, Pg.enum_in; simpl. rewrite He. reflexivity.
Qed.

Lemma put_matches_invalid_status_witness :
  put_matches_id Sample.db2 "1" (JObj [("status", JStr "postponed")])
  = Some (Sample.db2, res_status_json 400 (failure (error_message DataException)))
  /\ forall db' resp,
       put_matches_id Sample.db2 "1" (JObj [("status", JStr "LIVE"); ("homeScore", JNum 1)])
       = Some (db', resp) ->
       statusCode resp = 400 /\ db' = Sample.db2.
Proof.
  split.
  - apply (proj2 (put_matches_invalid_status Sample.db2 "1"
                    (JObj [("status", JStr "postponed")]) "postponed" eq_refl eq_refl));
      reflexivity.
  - apply (proj1 (put_matches_invalid_status Sample.db2 "1"
                    (JObj [("status", JStr "LIVE"); ("homeScore", JNum 1)]) "LIVE"
                    eq_refl eq_refl)).
Defined.

(* ===================================================================== *)
(** ** Ids the storage layer refuses                                      *)
(* ===================================================================== *)

(** The id does not parse, or parses outside the 32-bit range. *)
Lemma int4_param_refused (id : string) :
  parseInt id = None \/ (exists n, parseInt id = Some n /\ Pg.int4_range n = false) ->
  Pg.int4_param (parseInt id) = Throw DataException.
Proof.
  intros [E | (n & E & Hr)]; rewrite E; simpl; [reflexivity | rewrite Hr; reflexivity].
Qed.

Lemma get_commentary_refused db matchId :
  parseInt matchId = None
  \/ (exists n, parseInt matchId = Some n /\ Pg.int4_range n = false) ->
  get_matches_matchId_commentary db matchId
  = Some (db, res_status_json 400 (failure (error_message DataException))).
Proof.
  intros H. unfold get_matches_matchId_commentary, Drizzle.Commentary.await; simpl.
  rewrite (int4_param_refused _ H). reflexivity.
Qed.

(** C6 (amended).  When the matchId parses to a 32-bit integer, the
    response is 200 with exactly the commentary rows of that matchId, newest
    first; when no match has that id (in tables that satisfy the foreign
    key) the list is empty, still with 200.  When the matchId does not
    parse, or parses outside the 32-bit range, the response is 400 and the
    tables are as they were. *)
Theorem get_commentary_listing db matchId :
  (forall n, parseInt matchId = Some n -> Pg.int4_range n = true ->
     exists rows,
       get_matches_matchId_commentary db matchId
       = Some (db, res_json (success_data (commentary_rows rows)))
       /\ Permutation (filter (fun k => commentaryTable.matchId k =? n) (commentary db)) rows
       /\ newest_first rows
       /\ (Db_ok db -> (forall r, In r (matches db) -> matchesTable.id r <> n) -> rows = []))
  /\ (parseInt matchId = None
      \/ (exists n, parseInt matchId = Some n /\ Pg.int4_range n = false) ->
      get_matches_matchId_commentary db matchId
      = Some (db, res_status_json 400 (failure (error_message DataException)))).
Proof.
  split.
  - intros n Hp Hr. eexists. split; [apply (get_commentary_eq _ _ _ Hp Hr) | ].
    split; [apply sort_desc_perm | ]. split; [apply sort_desc_sorted | ].
    intros Ok Hno. rewrite (no_commentary_without_match _ _ Ok Hno). reflexivity.
  - apply get_commentary_refused.
Qed.

Lemma get_commentary_listing_witness :
  (exists rows,
     get_matches_matchId_commentary Sample.db2 "1"
     = Some (Sample.db2, res_json (success_data (commentary_rows rows)))
     /\ newest_first rows)
  /\ get_matches_matchId_commentary Sample.db2 "one"
     = Some (Sample.db2, res_status_json 400 (failure (error_message DataException)))
  /\ get_matches_matchId_commentary Sample.db2 "4294967296"
     = Some (Sample.db2, res_status_json 400 (failure (error_message DataException))).
Proof.
  split; [ | split].
  - destruct (proj1 (get_commentary_listing Sample.db2 "1") 1 eq_refl eq_refl)
      as [rows [H [_ [S _]]]].
    exists rows. split; [exact H | exact S].
  - apply (proj2 (get_commentary_listing Sample.db2 "one")). left. reflexivity.
  - apply (proj2 (get_commentary_listing Sample.db2 "4294967296")).
    right. exists 4294967296. split; reflexivity.
Defined.

Lemma delete_refused db id :
  parseInt id = None \/ (exists n, parseInt id = Some n /\ Pg.int4_range n = false) ->
  delete_matches_id db id
  = Some (db, res_status_json 400 (failure (error_message DataException)))
  /\ delete_commentary_id db id
     = Some (db, res_status_json 400 (failure (error_message DataException))).
Proof.
  intros H. unfold delete_matches_id, delete_commentary_id,
    Drizzle.Matches.delete, Drizzle.Commentary.delete; simpl.
  rewrite (int4_param_refused _ H). split; reflexivity.
Qed.

(** C9 (amended).  When the id parses to a 32-bit integer, DELETE
    /matches/:id and DELETE /commentary/:id answer 200 with their success
    message whether or not a row has that id (with no such row the tables
    stay as they are).  When the id does not parse, or parses outside the
    32-bit range, both answer 400 and the tables are as they were.  Neither
    handler ever answers 404. *)
Theorem delete_reports_success db id :
  (forall n, parseInt id = Some n -> Pg.int4_range n = true ->
     (exists db',
        delete_matches_id db id
        = Some (db', res_json (success_message "Match deleted successfully"))
        /\ ((forall r, In r (matches db) -> matchesTable.id r <> n) ->
            matches db' = matches db /\ commentary db' = commentary db))
     /\ (exists db',
           delete_commentary_id db id
           = Some (db', res_json (success_message "Commentary deleted successfully"))
           /\ matches db' = matches db
           /\ ((forall k, In k (commentary db) -> commentaryTable.id k <> n) ->
               commentary db' = commentary db)))
  /\ (parseInt id = None \/ (exists n, parseInt id = Some n /\ Pg.int4_range n = false) ->
      delete_matches_id db id
      = Some (db, res_status_json 400 (failure (error_message DataException)))
      /\ delete_commentary_id db id
         = Some (db, res_status_json 400 (failure (error_message DataException))))
  /\ (forall db' resp,
        delete_matches_id db id = Some (db', resp) \/ delete_commentary_id db id = Some (db', resp) ->
        statusCode resp <> 404).
Proof.
  split; [ | split].
  - intros n Hp Hr. split.
    + eexists; split; [apply (delete_matches_id_eq _ _ _ Hp Hr) | ].
      intros Hno; simpl. split; apply filter_all.
      * intros r Hin. apply negb_true_iff, Z.eqb_neq, Hno, Hin.
      * intros k _. apply negb_true_iff, andb_false_iff. right.
        apply not_true_is_false. intros E. apply existsb_exists in E as (r & Hin & E).
        apply Z.eqb_eq in E. exact (Hno r Hin E).
    + eexists; split; [apply (delete_commentary_id_eq _ _ _ Hp Hr) | ].
      simpl. split; [reflexivity | ]. intros Hno. apply filter_all.
      intros k Hin. apply negb_true_iff, Z.eqb_neq, Hno, Hin.
  - apply delete_refused.
  - intros db' resp [H | H];
      [eapply delete_matches_id_not_404 | eapply delete_commentary_id_not_404]; exact H.
Qed.

Lemma delete_reports_success_witness :
  (exists db',
     delete_matches_id Sample.db2 "42"
     = Some (db', res_json (success_message "Match deleted successfully")))
  /\ (exists db',
        delete_commentary_id Sample.db2 "42"
        = Some (db', res_json (success_message "Commentary deleted successfully")))
  /\ delete_matches_id Sample.db2 "-2147483649"
     = Some (Sample.db2, res_status_json 400 (failure (error_message DataException)))
  /\ delete_commentary_id Sample.db2 "x7"
     = Some (Sample.db2, res_status_json 400 (failure (error_message DataException))).
Proof.
  destruct (proj1 (delete_reports_success Sample.db2 "42") 42 eq_refl eq_refl)
    as [[d1 [H1 _]] [d2 [H2 _]]].
  split; [exists d1; exact H1 | ]. split; [exists d2; exact H2 | ]. split.
  - apply (proj1 (proj2 (delete_reports_success Sample.db2 "-2147483649"))).
    right. exists (-2147483649). split; reflexivity.
  - apply (proj1 (proj2 (delete_reports_success Sample.db2 "x7"))). left. reflexivity.
Defined.

(* ===================================================================== *)
(** ** An accepted PUT answers 404 or the updated row                     *)
(* ===================================================================== *)

Lemma has_body_destructure body k :
  has_body body -> destructure body k = Normal (field body k).
Proof.
  intros [H1 H2]. unfold field. destruct body; simpl; try reflexivity; congruence.
Qed.

Lemma matches_set_row_total s r :
  Drizzle.Matches.set_status s <> Some None ->
  Drizzle.Matches.set_homeScore s <> Some None ->
  Drizzle.Matches.set_awayScore s <> Some None ->
  exists r', Drizzle.Matches.set_row s r = Normal r'.
Proof.
  intros H1 H2 H3. unfold Drizzle.Matches.set_row.
  destruct s as [[[st | ] | ] [[hs | ] | ] [[aw | ] | ] et]; simpl in *;
    try congruence; eexists; reflexivity.
Qed.

Lemma commentary_set_row_total s k :
  Drizzle.Commentary.set_message s <> Some None ->
  exists k', Drizzle.Commentary.set_row s k = Normal k'.
Proof.
  intros H1. unfold Drizzle.Commentary.set_row.
  destruct s as [[[m | ] | ] md]; simpl in *; try congruence; eexists; reflexivity.
Qed.

(** An accepted PUT /matches/:id runs its update and answers from the rows
    the update returns. *)
Lemma put_matches_id_run db id body s n :
  matches_update_accepted body s -> parseInt id = Some n -> Pg.int4_range n = true ->
  exists out,
    Drizzle.update_rows (fun r => matchesTable.id r =? n) (Drizzle.Matches.set_row s)
      (matches db) = Normal out
    /\ put_matches_id db id body
       = Some ({| matches := fst out; commentary := commentary db |},
               match snd out with
               | [] => res_status_json 404 (failure (text "Match not found"))
               | updatedMatch :: _ => res_json (success_data (match_row updatedMatch))
               end).
Proof.
  intros (Hb & date & Hd & Hno & Hs & N1 & N2 & N3) Hp Hr.
  destruct (update_rows_total (fun r => matchesTable.id r =? n) (Drizzle.Matches.set_row s)
              (matches db)) as [out Hu].
  { intros r _ _. apply matches_set_row_total; assumption. }
  exists out. split; [exact Hu | ].
  unfold put_matches_id.
  rewrite !(has_body_destructure _ _ Hb). simpl. rewrite !defined_id.
  unfold endTime_date in Hd. rewrite Hd. simpl.
  unfold Drizzle.Matches.update_returning.
  change {| Drizzle.Matches.u_status := field body "status";
            Drizzle.Matches.u_homeScore := field body "homeScore";
            Drizzle.Matches.u_awayScore := field body "awayScore";
            Drizzle.Matches.u_endTime := date |}
    with (matches_updateData body date).
  rewrite Hno, Hs. simpl. rewrite Hp. simpl. rewrite Hr. simpl. rewrite Hu. simpl.
  destruct (snd out); reflexivity.
Qed.

Lemma put_commentary_id_run db id body s n :
  commentary_update_accepted body s -> parseInt id = Some n -> Pg.int4_range n = true ->
  exists out,
    Drizzle.update_rows (fun k => commentaryTable.id k =? n) (Drizzle.Commentary.set_row s)
      (commentary db) = Normal out
    /\ put_commentary_id db id body
       = Some ({| matches := matches db; commentary := fst out |},
               match snd out with
               | [] => res_status_json 404 (failure (text "Commentary not found"))
               | updated :: _ => res_json (success_data (commentary_row updated))
               end).
Proof.
  intros (Hb & Hno & Hs & N1) Hp Hr.
  destruct (update_rows_total (fun k => commentaryTable.id k =? n)
              (Drizzle.Commentary.set_row s) (commentary db)) as [out Hu].
  { intros k _ _. apply commentary_set_row_total; assumption. }
  exists out. split; [exact Hu | ].
  unfold put_commentary_id.
  rewrite !(has_body_destructure _ _ Hb). simpl. rewrite !defined_id.
  unfold Drizzle.Commentary.update_returning.
  change {| Drizzle.Commentary.u_message := field body "message";
            Drizzle.Commentary.u_metadata := field body "metadata" |}
    with (commentary_updateData body).
  rewrite Hno, Hs. simpl. rewrite Hp. simpl. rewrite Hr. simpl. rewrite Hu. simpl.
  destruct (snd out); reflexivity.
Qed.

Lemma put_matches_id_accepted db id body s n :
  matches_update_accepted body s -> parseInt id = Some n -> Pg.int4_range n = true ->
  exists db' resp,
    put_matches_id db id body = Some (db', resp)
    /\ (resp = res_status_json 404 (failure (text "Match not found"))
        <-> forall r, In r (matches db) -> matchesTable.id r <> n)
    /\ (resp = res_status_json 404 (failure (text "Match not found")) -> db' = db)
    /\ ((exists r, In r (matches db) /\ matchesTable.id r = n) ->
        exists r r',
          In r (matches db) /\ matchesTable.id r = n
          /\ Drizzle.Matches.set_row s r = Normal r'
          /\ resp = res_json (success_data (match_row r'))
          /\ In r' (matches db')).
Proof.
  intros Ha Hp Hr. destruct (put_matches_id_run db id body s n Ha Hp Hr) as (out & Hu & Hput).
  eexists. eexists. split; [exact Hput | ].
  pose proof (update_rows_none_iff _ _ _ _ Hu) as Hnone.
  destruct (snd out) as [ | r' rest] eqn:E.
  - assert (Hno : forall r, In r (matches db) -> matchesTable.id r <> n).
    { intros r Hin. apply Z.eqb_neq. apply (proj1 Hnone eq_refl r Hin). }
    split; [split; [intros _; exact Hno | reflexivity] | ].
    split.
    + intros _. destruct (update_rows_empty_returning _ _ _ _ Hu E) as [Hfst _].
      rewrite Hfst. apply db_eta.
    + intros (r & Hin & Er). exfalso. exact (Hno r Hin Er).
  - destruct (update_rows_first _ _ _ _ _ _ Hu E) as (r & Hin & Hpr & Hf).
    apply Z.eqb_eq in Hpr.
    split; [split | ].
    + intros H404. discriminate H404.
    + intros Hno. exfalso. exact (Hno r Hin Hpr).
    + split; [intros H404; discriminate H404 | ].
      intros _. exists r, r'. repeat split; try assumption. simpl.
      apply (update_rows_returning_incl _ _ _ _ Hu). rewrite E. left; reflexivity.
Qed.

Lemma put_commentary_id_accepted db id body s n :
  commentary_update_accepted body s -> parseInt id = Some n -> Pg.int4_range n = true ->
  exists db' resp,
    put_commentary_id db id body = Some (db', resp)
    /\ (resp = res_status_json 404 (failure (text "Commentary not found"))
        <-> forall k, In k (commentary db) -> commentaryTable.id k <> n)
    /\ (resp = res_status_json 404 (failure (text "Commentary not found")) -> db' = db)
    /\ ((exists k, In k (commentary db) /\ commentaryTable.id k = n) ->
        exists k k',
          In k (commentary db) /\ commentaryTable.id k = n
          /\ Drizzle.Commentary.set_row s k = Normal k'
          /\ resp = res_json (success_data (commentary_row k'))
          /\ In k' (commentary db')).
Proof.
  intros Ha Hp Hr.
  destruct (put_commentary_id_run db id body s n Ha Hp Hr) as (out & Hu & Hput).
  eexists. eexists. split; [exact Hput | ].
  pose proof (update_rows_none_iff _ _ _ _ Hu) as Hnone.
  destruct (snd out) as [ | k' rest] eqn:E.
  - assert (Hno : forall k, In k (commentary db) -> commentaryTable.id k <> n).
    { intros k Hin. apply Z.eqb_neq. apply (proj1 Hnone eq_refl k Hin). }
    split; [split; [intros _; exact Hno | reflexivity] | ].
    split.
    + intros _. destruct (update_rows_empty_returning _ _ _ _ Hu E) as [Hfst _].
      rewrite Hfst. apply db_eta.
    + intros (k & Hin & Ek). exfalso. exact (Hno k Hin Ek).
  - destruct (update_rows_first _ _ _ _ _ _ Hu E) as (k & Hin & Hpk & Hf).
    apply Z.eqb_eq in Hpk.
    split; [split | ].
    + intros H404. discriminate H404.
    + intros Hno. exfalso. exact (Hno k Hin Hpk).
    + split; [intros H404; discriminate H404 | ].
      intros _. exists k, k'. repeat split; try assumption. simpl.
      apply (update_rows_returning_incl _ _ _ _ Hu). rewrite E. left; reflexivity.
Qed.

(** C7 (amended).  GET /matches/:id with an id that parses to a 32-bit
    integer answers 404 "Match not found" exactly when no row has that id,
    and otherwise 200 with a row of that id.  PUT /matches/:id and PUT
    /commentary/:id with an id that parses to a 32-bit integer and an
    accepted update (the body supplies an updatable field, the columns read
    the values, no NOT NULL column is set to null) always answer: 404
    "<Entity> not found" exactly when no row has the id, and then nothing is
    changed; otherwise 200 with the updated row of that id, which is then in
    the table.  And whatever the body, a PUT that does not answer 400
    answers 404 exactly when no row has the parsed id, and otherwise 200
    with the updated row. *)
Theorem not_found_iff_no_row db id :
  (forall n, parseInt id = Some n -> Pg.int4_range n = true ->
     exists resp,
       get_matches_id db id = Some (db, resp)
       /\ (resp = res_status_json 404 (failure (text "Match not found"))
           <-> forall r, In r (matches db) -> matchesTable.id r <> n)
       /\ ((exists r, In r (matches db) /\ matchesTable.id r = n) ->
           exists r', In r' (matches db) /\ matchesTable.id r' = n
                      /\ resp = res_json (success_data (match_row r'))))
  /\ (forall body s n,
        matches_update_accepted body s -> parseInt id = Some n -> Pg.int4_range n = true ->
        exists db' resp,
          put_matches_id db id body = Some (db', resp)
          /\ (resp = res_status_json 404 (failure (text "Match not found"))
              <-> forall r, In r (matches db) -> matchesTable.id r <> n)
          /\ (resp = res_status_json 404 (failure (text "Match not found")) -> db' = db)
          /\ ((exists r, In r (matches db) /\ matchesTable.id r = n) ->
              exists r r',
                In r (matches db) /\ matchesTable.id r = n
                /\ Drizzle.Matches.set_row s r = Normal r'
                /\ resp = res_json (success_data (match_row r'))
                /\ In r' (matches db')))
  /\ (forall body s n,
        commentary_update_accepted body s -> parseInt id = Some n ->
        Pg.int4_range n = true ->
        exists db' resp,
          put_commentary_id db id body = Some (db', resp)
          /\ (resp = res_status_json 404 (failure (text "Commentary not found"))
              <-> forall k, In k (commentary db) -> commentaryTable.id k <> n)
          /\ (resp = res_status_json 404 (failure (text "Commentary not found")) -> db' = db)
          /\ ((exists k, In k (commentary db) /\ commentaryTable.id k = n) ->
              exists k k',
                In k (commentary db) /\ commentaryTable.id k = n
                /\ Drizzle.Commentary.set_row s k = Normal k'
                /\ resp = res_json (success_data (commentary_row k'))
                /\ In k' (commentary db')))
  /\ (forall body db' resp,
        put_matches_id db id body = Some (db', resp) -> statusCode resp <> 400 ->
        exists n,
          parseInt id = Some n
          /\ (resp = res_status_json 404 (failure (text "Match not found"))
              <-> forall r, In r (matches db) -> matchesTable.id r <> n)
          /\ (resp = res_status_json 404 (failure (text "Match not found")) -> db' = db)
          /\ ((exists r, In r (matches db) /\ matchesTable.id r = n) ->
              exists r', In r' (matches db') /\ matchesTable.id r' = n
                         /\ resp = res_json (success_data (match_row r'))))
  /\ (forall body db' resp,
        put_commentary_id db id body = Some (db', resp) -> statusCode resp <> 400 ->
        exists n,
          parseInt id = Some n
          /\ (resp = res_status_json 404 (failure (text "Commentary not found"))
              <-> forall k, In k (commentary db) -> commentaryTable.id k <> n)
          /\ (resp = res_status_json 404 (failure (text "Commentary not found")) -> db' = db)
          /\ ((exists k, In k (commentary db) /\ commentaryTable.id k = n) ->
              exists k', In k' (commentary db') /\ commentaryTable.id k' = n
                         /\ resp = res_json (success_data (commentary_row k')))).
Proof.
  split; [ | split; [ | split; [ | split]]].
  - intros n. apply get_matches_id_found.
  - intros body s n. apply put_matches_id_accepted.
  - intros body s n. apply put_commentary_id_accepted.
  - intros body db' resp. apply put_matches_id_found.
  - intros body db' resp. apply put_commentary_id_found.
Qed.

Lemma not_found_iff_no_row_witness :
  (exists r', In r' (matches Sample.db2) /\ matchesTable.id r' = 1
              /\ get_matches_id Sample.db2 "1"
                 = Some (Sample.db2, res_json (success_data (match_row r'))))
  /\ (exists db' r',
        put_matches_id Sample.db2 "1" (JObj [("homeScore", JNum 2); ("status", JStr "finished")])
        = Some (db', res_json (success_data (match_row r')))
        /\ In r' (matches db'))
  /\ put_commentary_id Sample.db2 "9" (JObj [("message", JStr "x")])
     = Some (Sample.db2, res_status_json 404 (failure (text "Commentary not found")))
  /\ put_matches_id Sample.db2 "9" (JObj [("status", JStr "live")])
     = Some (Sample.db2, res_status_json 404 (failure (text "Match not found"))).
Proof.
  destruct (not_found_iff_no_row Sample.db2 "1") as (G & P & _).
  destruct (not_found_iff_no_row Sample.db2 "9") as (_ & _ & C & Pn & _).
  split; [ | split; [ | split]].
  - destruct (G 1 eq_refl eq_refl) as (resp & Hget & _ & Hrow).
    destruct Hrow as (r' & Hin & Hid & Hresp).
    + exists Sample.football_scheduled. split; [left; reflexivity | reflexivity].
    + exists r'. rewrite Hget, Hresp. auto.
  - destruct (P (JObj [("homeScore", JNum 2); ("status", JStr "finished")])
               {| Drizzle.Matches.set_status := Some (Some finished);
                  Drizzle.Matches.set_homeScore := Some (Some 2);
                  Drizzle.Matches.set_awayScore := None;
                  Drizzle.Matches.set_endTime := None |} 1)
      as (db' & resp & Hput & _ & _ & Hrow).
    + split; [split; discriminate | ].
      exists None. repeat split; try reflexivity; simpl; discriminate.
    + reflexivity.
    + reflexivity.
    + destruct Hrow as (r & r' & _ & _ & _ & Hresp & Hin).
      * exists Sample.football_scheduled. split; [left; reflexivity | reflexivity].
      * exists db', r'. rewrite Hput, Hresp. split; [reflexivity | exact Hin].
  - destruct (C (JObj [("message", JStr "x")])
               {| Drizzle.Commentary.set_message := Some (Some "x");
                  Drizzle.Commentary.set_metadata := None |} 9)
      as (db' & resp & Hput & H404 & Hsame & _).
    + split; [split; discriminate | ].
      repeat split; try reflexivity; simpl; discriminate.
    + reflexivity.
    + reflexivity.
    + assert (E : resp = res_status_json 404 (failure (text "Commentary not found"))).
      { apply H404. simpl. intros k [K | [K | [K | []]]]; subst k; discriminate. }
      rewrite Hput, (Hsame E), E. reflexivity.
  - destruct (Pn (JObj [("status", JStr "live")]) _ _ eq_refl) as (n & Hn & H404 & _ & _).
    + simpl. discriminate.
    + reflexivity.
Defined.

(* ===================================================================== *)
(** ** POST answers from what the insert does                             *)
(* ===================================================================== *)

Lemma present_has_body body k : present body k -> has_body body.
Proof.
  unfold present, has_body, field. intros H.
  split; intros E; subst body; simpl in H; discriminate H.
Qed.

(** With its four fields there, POST /matches is its insert inside the
    try/catch. *)
Lemma post_matches_run env db body date :
  present body "sport" -> present body "homeTeam" ->
  present body "awayTeam" -> present body "startTime" ->
  new_Date (field body "startTime") = Normal date ->
  post_matches env db body
  = try_catch db (
      out <- Drizzle.Matches.insert_returning env db (matches_values body date) ;;
      match snd out with
      | newMatch :: _ => Normal (fst out, res_status_json 201 (success_data (match_row newMatch)))
      | [] => Unmodelled
      end).
Proof.
  intros P1 P2 P3 P4 Hd. unfold post_matches.
  rewrite (present_Normal _ _ P1), (present_Normal _ _ P2),
    (present_Normal _ _ P3), (present_Normal _ _ P4). simpl.
  unfold present in P1, P2, P3, P4. rewrite P1, P2, P3, P4. simpl.
  rewrite Hd. reflexivity.
Qed.

(** The insert of POST /matches succeeds on values the columns store. *)
Lemma matches_insert_accepts env db body s h a t :
  Pg.timestamp_in t = Normal t ->
  Pg.varchar_in 50 (field body "sport") = Normal (Some s) ->
  Pg.varchar_in 100 (field body "homeTeam") = Normal (Some h) ->
  Pg.varchar_in 100 (field body "awayTeam") = Normal (Some a) ->
  Pg.int4_range (nextval env) = true ->
  ~ In (nextval env) (map matchesTable.id (matches db)) ->
  let r := {| matchesTable.id := nextval env;
              matchesTable.sport := s;
              matchesTable.homeTeam := h;
              matchesTable.awayTeam := a;
              matchesTable.status := scheduled;
              matchesTable.startTime := t;
              matchesTable.endTime := None;
              matchesTable.homeScore := 0;
              matchesTable.awayScore := 0;
              matchesTable.createdAt := now env |} in
  Drizzle.Matches.insert_returning env db (matches_values body (Some t))
  = Normal ({| matches := matches db ++ [r]; commentary := commentary db |}, [r]).
Proof.
  intros Ht Hs Hh Ha Hr Hn r.
  unfold Drizzle.Matches.insert_returning; simpl.
  rewrite Hs; simpl. rewrite Hh; simpl. rewrite Ha; simpl. rewrite Ht; simpl.
  rewrite (serial_pk_fresh _ _ Hr Hn). reflexivity.
Qed.

(** C2 (amended).  Take a POST /matches request in which sport, homeTeam,
    awayTeam and startTime are all present and truthy and [new
    Date(startTime)] gives a date object.  When the insert of the four
    values with status "scheduled" succeeds, the handler answers 201 with the
    row the insert appended, in which status is "scheduled" whatever status
    the body carries, the id is the one the sequence gave and both scores
    are 0.  When the insert throws, the handler answers 400 with the message
    of the error and the tables are unchanged.  The insert succeeds when the
    date is an instant the timestamp column reads back unchanged, the three
    strings are stored by varchar(50), varchar(100) and varchar(100), and the
    sequence gives a fresh 32-bit id: then the answer is 201 with exactly
    that row. *)
Theorem post_matches_created env db body :
  present body "sport" -> present body "homeTeam" ->
  present body "awayTeam" -> present body "startTime" ->
  (forall date out,
     new_Date (field body "startTime") = Normal date ->
     Drizzle.Matches.insert_returning env db (matches_values body date) = Normal out ->
     exists r,
       post_matches env db body
       = Some ({| matches := matches db ++ [r]; commentary := commentary db |},
               res_status_json 201 (success_data (match_row r)))
       /\ out = ({| matches := matches db ++ [r]; commentary := commentary db |}, [r])
       /\ matchesTable.status r = scheduled
       /\ matchesTable.id r = nextval env
       /\ ~ In (matchesTable.id r) (map matchesTable.id (matches db))
       /\ matchesTable.homeScore r = 0 /\ matchesTable.awayScore r = 0
       /\ matchesTable.endTime r = None
       /\ matchesTable.createdAt r = now env)
  /\ (forall date e,
        new_Date (field body "startTime") = Normal date ->
        Drizzle.Matches.insert_returning env db (matches_values body date) = Throw e ->
        post_matches env db body
        = Some (db, res_status_json 400 (failure (error_message e))))
  /\ (forall s h a t,
        new_Date (field body "startTime") = Normal (Some t) ->
        Pg.timestamp_in t = Normal t ->
        Pg.varchar_in 50 (field body "sport") = Normal (Some s) ->
        Pg.varchar_in 100 (field body "homeTeam") = Normal (Some h) ->
        Pg.varchar_in 100 (field body "awayTeam") = Normal (Some a) ->
        Pg.int4_range (nextval env) = true ->
        ~ In (nextval env) (map matchesTable.id (matches db)) ->
        let r := {| matchesTable.id := nextval env;
                    matchesTable.sport := s;
                    matchesTable.homeTeam := h;
                    matchesTable.awayTeam := a;
                    matchesTable.status := scheduled;
                    matchesTable.startTime := t;
                    matchesTable.endTime := None;
                    matchesTable.homeScore := 0;
                    matchesTable.awayScore := 0;
                    matchesTable.createdAt := now env |} in
        post_matches env db body
        = Some ({| matches := matches db ++ [r]; commentary := commentary db |},
                res_status_json 201 (success_data (match_row r)))).
Proof.
  intros P1 P2 P3 P4. split; [ | split].
  - intros date out Hd Hi.
    destruct (matches_insert_row _ _ _ _ Hi eq_refl)
      as (r & Eo & Hid & Hfresh & Hst & Hh & Ha & He & Hc & _).
    exists r. rewrite (post_matches_run _ _ _ _ P1 P2 P3 P4 Hd), Hi, Eo. simpl.
    repeat split; assumption.
  - intros date e Hd Hi.
    rewrite (post_matches_run _ _ _ _ P1 P2 P3 P4 Hd), Hi. reflexivity.
  - intros s h a t Hd Ht Hs Hh Ha Hr Hn r.
    rewrite (post_matches_run _ _ _ _ P1 P2 P3 P4 Hd).
    rewrite (matches_insert_accepts env db body s h a t Ht Hs Hh Ha Hr Hn). reflexivity.
Qed.

Lemma post_matches_created_witness :
  (exists r,
     post_matches Sample.env3 Sample.db2 Sample.new_match_body
     = Some ({| matches := matches Sample.db2 ++ [r]; commentary := commentary Sample.db2 |},
             res_status_json 201 (success_data (match_row r)))
     /\ matchesTable.status r = scheduled /\ matchesTable.id r = 3
     /\ matchesTable.homeScore r = 0 /\ matchesTable.awayScore r = 0)
  /\ post_matches Sample.env3 Sample.db2 Sample.long_sport_body
     = Some (Sample.db2, res_status_json 400 (failure (error_message DataException)))
  /\ post_matches Sample.env3 Sample.db2
       (JObj [("sport", JStr "football"); ("homeTeam", JStr "A"); ("awayTeam", JStr "B");
              ("startTime", JNum 8640000000000001)])
     = Some (Sample.db2, res_status_json 400 (failure (error_message RangeError))).
Proof.
  split; [ | split].
  - eexists. split.
    + apply (proj2 (proj2 (post_matches_created Sample.env3 Sample.db2 Sample.new_match_body
                             eq_refl eq_refl eq_refl eq_refl))
               "football" "A" "B" 1767261600000); try reflexivity.
      simpl. intuition discriminate.
    + repeat split; reflexivity.
  - apply (proj1 (proj2 (post_matches_created Sample.env3 Sample.db2 Sample.long_sport_body
                           eq_refl eq_refl eq_refl eq_refl))
             (Some 1767261600000) DataException); reflexivity.
  - apply (proj1 (proj2 (post_matches_created Sample.env3 Sample.db2
                           (JObj [("sport", JStr "football"); ("homeTeam", JStr "A");
                                  ("awayTeam", JStr "B");
                                  ("startTime", JNum 8640000000000001)])
                           eq_refl eq_refl eq_refl eq_refl))
             None RangeError); reflexivity.
Defined.

(** With its five fields there, POST /matches/:matchId/commentary is its
    insert inside the try/catch. *)
Lemma post_commentary_run env db matchId body :
  present body "sequence" -> present body "eventType" -> present body "actor" ->
  present body "team" -> present body "message" ->
  post_matches_matchId_commentary env db matchId body
  = try_catch db (
      out <- Drizzle.Commentary.insert_returning env db (commentary_values matchId body) ;;
      match snd out with
      | newCommentary :: _ =>
          Normal (fst out, res_status_json 201 (success_data (commentary_row newCommentary)))
      | [] => Unmodelled
      end).
Proof.
  intros P1 P2 P3 P4 P5. pose proof (present_has_body _ _ P1) as Hb.
  unfold post_matches_matchId_commentary.
  rewrite !(has_body_destructure _ _ Hb). simpl.
  unfold present in P1, P2, P3, P4, P5. rewrite P1, P2, P3, P4, P5. reflexivity.
Qed.

(** The insert of POST /matches/:matchId/commentary on values the columns
    store: the foreign key decides. *)
Lemma commentary_insert_accepts env db matchId body n sq et ac tm msg mi pe md tg :
  parseInt matchId = Some n -> Pg.int4_range n = true ->
  Pg.int4_in (field body "sequence") = Normal (Some sq) ->
  Pg.varchar_in 50 (field body "eventType") = Normal (Some et) ->
  Pg.varchar_in 100 (field body "actor") = Normal (Some ac) ->
  Pg.varchar_in 100 (field body "team") = Normal (Some tm) ->
  Pg.text_in (field body "message") = Normal (Some msg) ->
  Pg.int4_in (Js.or (field body "minute") JNull) = Normal mi ->
  Pg.varchar_in 20 (Js.or (field body "period") JNull) = Normal pe ->
  Pg.jsonb_in (Js.or (field body "metadata") JNull) = Normal md ->
  Drizzle.Commentary.makePgArray (Js.or (field body "tags") (JArr [])) = Normal tg ->
  Pg.int4_range (nextval env) = true ->
  ~ In (nextval env) (map commentaryTable.id (commentary db)) ->
  let k := {| commentaryTable.id := nextval env;
              commentaryTable.matchId := n;
              commentaryTable.minute := mi;
              commentaryTable.sequence := sq;
              commentaryTable.period := pe;
              commentaryTable.eventType := et;
              commentaryTable.actor := ac;
              commentaryTable.team := tm;
              commentaryTable.message := msg;
              commentaryTable.metadata := md;
              commentaryTable.tags := tg;
              commentaryTable.createdAt := now env |} in
  Drizzle.Commentary.insert_returning env db (commentary_values matchId body)
  = if existsb (fun r => matchesTable.id r =? n) (matches db)
    then Normal ({| matches := matches db; commentary := commentary db ++ [k] |}, [k])
    else Throw IntegrityConstraintViolation.
Proof.
  intros Hp Hr Hsq Het Hac Htm Hmsg Hmi Hpe Hmd Htg Hnr Hfresh k.
  unfold Drizzle.Commentary.insert_returning; simpl.
  rewrite Htg; simpl. rewrite Hp; simpl. rewrite Hr; simpl.
  rewrite Hmi; simpl. rewrite Hsq; simpl. rewrite Hpe; simpl. rewrite Het; simpl.
  rewrite Hac; simpl. rewrite Htm; simpl. rewrite Hmsg; simpl. rewrite Hmd; simpl.
  rewrite (serial_pk_fresh _ _ Hnr Hfresh); simpl. reflexivity.
Qed.

(** C3 (amended).  Take a POST /matches/:matchId/commentary request in
    which sequence, eventType, actor, team and message are all present and
    truthy.  The handler does not answer with the missing-fields error: it
    runs the insert.  When the insert succeeds, the handler answers 201 with
    the row the insert appended, whose matchId is the parsed path parameter
    and the id of a stored match, and in which minute, period and metadata
    are null when the body has none and tags is the empty array when the
    body has none.  When the insert throws, the handler answers 400 with the
    message of the error and nothing is inserted.  When the matchId does not
    parse to the id of a stored match, every answer is 400 and nothing is
    inserted.  When the matchId parses to a 32-bit integer, the columns
    store the other values and the sequence gives a fresh 32-bit id, the
    answer is 201 with exactly that row if a match has that id, and 400 for
    the foreign key if none has. *)
Theorem post_commentary_created env db matchId body :
  present body "sequence" -> present body "eventType" -> present body "actor" ->
  present body "team" -> present body "message" ->
  (forall out,
     Drizzle.Commentary.insert_returning env db (commentary_values matchId body) = Normal out ->
     exists k,
       post_matches_matchId_commentary env db matchId body
       = Some ({| matches := matches db; commentary := commentary db ++ [k] |},
               res_status_json 201 (success_data (commentary_row k)))
       /\ out = ({| matches := matches db; commentary := commentary db ++ [k] |}, [k])
       /\ commentaryTable.id k = nextval env
       /\ parseInt matchId = Some (commentaryTable.matchId k)
       /\ (exists m, In m (matches db) /\ matchesTable.id m = commentaryTable.matchId k)
       /\ (lacks body "minute" -> commentaryTable.minute k = None)
       /\ (lacks body "period" -> commentaryTable.period k = None)
       /\ (lacks body "metadata" -> commentaryTable.metadata k = None)
       /\ (lacks body "tags" -> commentaryTable.tags k = Some []))
  /\ (forall e,
        Drizzle.Commentary.insert_returning env db (commentary_values matchId body) = Throw e ->
        post_matches_matchId_commentary env db matchId body
        = Some (db, res_status_json 400 (failure (error_message e))))
  /\ ((forall m, In m (matches db) -> parseInt matchId <> Some (matchesTable.id m)) ->
      forall db' resp,
        post_matches_matchId_commentary env db matchId body = Some (db', resp) ->
        db' = db /\ statusCode resp = 400)
  /\ (forall n sq et ac tm msg mi pe md tg,
        parseInt matchId = Some n -> Pg.int4_range n = true ->
        Pg.int4_in (field body "sequence") = Normal (Some sq) ->
        Pg.varchar_in 50 (field body "eventType") = Normal (Some et) ->
        Pg.varchar_in 100 (field body "actor") = Normal (Some ac) ->
        Pg.varchar_in 100 (field body "team") = Normal (Some tm) ->
        Pg.text_in (field body "message") = Normal (Some msg) ->
        Pg.int4_in (Js.or (field body "minute") JNull) = Normal mi ->
        Pg.varchar_in 20 (Js.or (field body "period") JNull) = Normal pe ->
        Pg.jsonb_in (Js.or (field body "metadata") JNull) = Normal md ->
        Drizzle.Commentary.makePgArray (Js.or (field body "tags") (JArr [])) = Normal tg ->
        Pg.int4_range (nextval env) = true ->
        ~ In (nextval env) (map commentaryTable.id (commentary db)) ->
        let k := {| commentaryTable.id := nextval env;
                    commentaryTable.matchId := n;
                    commentaryTable.minute := mi;
                    commentaryTable.sequence := sq;
                    commentaryTable.period := pe;
                    commentaryTable.eventType := et;
                    commentaryTable.actor := ac;
                    commentaryTable.team := tm;
                    commentaryTable.message := msg;
                    commentaryTable.metadata := md;
                    commentaryTable.tags := tg;
                    commentaryTable.createdAt := now env |} in
        ((exists m, In m (matches db) /\ matchesTable.id m = n) ->
         post_matches_matchId_commentary env db matchId body
         = Some ({| matches := matches db; commentary := commentary db ++ [k] |},
                 res_status_json 201 (success_data (commentary_row k))))
        /\ ((forall m, In m (matches db) -> matchesTable.id m <> n) ->
            post_matches_matchId_commentary env db matchId body
            = Some (db, res_status_json 400
                          (failure (error_message IntegrityConstraintViolation))))).
Proof.
  intros P1 P2 P3 P4 P5.
  pose proof (post_commentary_run env db matchId body P1 P2 P3 P4 P5) as Run.
  split; [ | split; [ | split]].
  - intros out Hi.
    destruct (commentary_insert_row _ _ _ _ Hi)
      as (k & Eo & Hid & _ & _ & Hm & Hex & Hmi & Hpe & Hmd & Htg).
    simpl in Hm, Hmi, Hpe, Hmd, Htg.
    exists k. rewrite Run, Hi, Eo. simpl.
    split; [reflexivity | ]. split; [reflexivity | ]. split; [exact Hid | ].
    assert (Hp : parseInt matchId = Some (commentaryTable.matchId k)).
    { unfold Pg.int4_param in Hm. destruct (parseInt matchId) as [z | ]; [ | discriminate Hm].
      destruct (Pg.int4_range z); [ | discriminate Hm]. inversion Hm. reflexivity. }
    split; [exact Hp | ]. split.
    { apply existsb_exists in Hex as (m & Hin & E). apply Z.eqb_eq in E. exists m. auto. }
    unfold lacks. repeat split; intros L.
    + rewrite L in Hmi. cbv in Hmi |- *. congruence.
    + rewrite L in Hpe. cbv in Hpe |- *. congruence.
    + rewrite L in Hmd. cbv in Hmd |- *. congruence.
    + rewrite L in Htg. cbv in Htg |- *. congruence.
  - intros e Hi. rewrite Run, Hi. reflexivity.
  - intros Hno db' resp H.
    apply post_commentary_inv in H
      as [(E & e & Er) | (k & _ & _ & _ & _ & _ & Hp & _ & (m & Hin & Hid) & _)].
    + subst resp. split; [exact E | reflexivity].
    + exfalso. apply (Hno m Hin). rewrite Hid. exact Hp.
  - intros n sq et ac tm msg mi pe md tg Hp Hr Hsq Het Hac Htm Hmsg Hmi Hpe Hmd Htg Hnr Hfresh k.
    rewrite Run.
    rewrite (commentary_insert_accepts env db matchId body n sq et ac tm msg mi pe md tg
               Hp Hr Hsq Het Hac Htm Hmsg Hmi Hpe Hmd Htg Hnr Hfresh).
    split.
    + intros (m & Hin & Hid). subst n. rewrite (existsb_id_In _ _ Hin). reflexivity.
    + intros Hno.
      assert (E : existsb (fun r => matchesTable.id r =? n) (matches db) = false).
      { apply not_true_is_false. intros E. apply existsb_exists in E as (m & Hin & E).
        apply Z.eqb_eq in E. exact (Hno m Hin E). }
      rewrite E. reflexivity.
Qed.

Lemma post_commentary_created_witness :
  (exists k,
     post_matches_matchId_commentary {| now := 1767263000000; nextval := 4 |} Sample.db2 "2"
       Sample.new_commentary_body
     = Some ({| matches := matches Sample.db2; commentary := commentary Sample.db2 ++ [k] |},
             res_status_json 201 (success_data (commentary_row k)))
     /\ commentaryTable.minute k = None /\ commentaryTable.period k = None
     /\ commentaryTable.metadata k = None /\ commentaryTable.tags k = Some [])
  /\ post_matches_matchId_commentary {| now := 1767263000000; nextval := 4 |} Sample.db2 "7"
       Sample.new_commentary_body
     = Some (Sample.db2,
             res_status_json 400 (failure (error_message IntegrityConstraintViolation)))
  /\ post_matches_matchId_commentary {| now := 1767263000000; nextval := 4 |} Sample.db2 "seven"
       Sample.new_commentary_body
     = Some (Sample.db2, res_status_json 400 (failure (error_message DataException))).
Proof.
  pose (env := {| now := 1767263000000; nextval := 4 |}).
  split; [ | split].
  - destruct (post_commentary_created env Sample.db2 "2" Sample.new_commentary_body
                eq_refl eq_refl eq_refl eq_refl eq_refl)
      as (A & _ & _ & _).
    destruct (A _ eq_refl) as (k & H & _ & _ & _ & _ & L1 & L2 & L3 & L4).
    exists k. split; [exact H | ].
    split; [apply L1 | split; [apply L2 | split; [apply L3 | apply L4]]]; reflexivity.
  - destruct (post_commentary_created env Sample.db2 "7" Sample.new_commentary_body
                eq_refl eq_refl eq_refl eq_refl eq_refl)
      as (_ & _ & _ & D).
    apply (D 7 1 "goal" "P" "A" "what a strike" None None None (Some [])); try reflexivity.
    + simpl. intuition discriminate.
    + simpl. intros m [E | [E | []]]; subst m; discriminate.
  - destruct (post_commentary_created env Sample.db2 "seven" Sample.new_commentary_body
                eq_refl eq_refl eq_refl eq_refl eq_refl)
      as (_ & B & _ & _).
    apply B. reflexivity.
Defined.

(* ===================================================================== *)
(** ** Statuses of the server, and which of them write                    *)
(* ===================================================================== *)



